(** * VwapProject: the alert-to-order relay of [bot.py]

    A shallow embedding of the decision and state engine of the bot: the
    correlation gate over the two alert logs, the bracket-order prices, the
    single position slot, the close routine, the reconciliation pass and the
    mode toggles.  Python globals become the fields of one record that is
    threaded through a state-and-exception monad; the broker, the clock and
    the notification service are an interface whose answers are arbitrary. *)

From Stdlib Require Import ZArith List String Ascii Bool Lia Lqa QArith Qpower.
Import ListNotations.
Local Open Scope string_scope.
Local Open Scope Z_scope.

Set Implicit Arguments.

(** ** Exceptions and results *)

(** The exceptions the modelled code can see.  [ExternalError] stands for
    whatever a collaborator (broker SDK, HTTP client) raises. *)
Inductive exn : Type :=
| ValueError
| KeyError
| TypeError
| AttributeError
| JSONDecodeError
| InvalidOperation
| DecimalOverflow
| ExternalError (tag : string).

Inductive result (A : Type) : Type :=
| Ok (a : A)
| Raise (e : exn).
Arguments Ok {A} a.
Arguments Raise {A} e.

(** ** JSON values of a request body

    [data.get(k)] yields [JNull] for a missing key.  Numbers are restricted
    to integers.  The handlers compare these values with strings, test
    their truth value and use one of them as a dictionary key. *)
#[local] Set Warnings "-register-all".

Inductive jval : Type :=
| JNull
| JBool (b : bool)
| JInt (z : Z)
| JStr (s : string)
| JArr (items : list jval)
| JObj (fields : list (string * jval)).

(** [v == s] for a Python [str] [s]. *)
Definition jeq_str (v : jval) (s : string) : bool :=
  match v with
  | JStr s' => String.eqb s' s
  | _ => false
  end.

(** Truth value of a Python object, as used by [or (bypass)]. *)
Definition truthy (v : jval) : bool :=
  match v with
  | JNull => false
  | JBool b => b
  | JInt z => negb (z =? 0)
  | JStr s => negb (String.eqb s "")
  | JArr items => match items with [] => false | _ :: _ => true end
  | JObj fields => match fields with [] => false | _ :: _ => true end
  end.

(** Whether a value can be a dictionary key: a [list] and a [dict] are
    unhashable, and a subscript with one raises [TypeError]. *)
Definition hashable (v : jval) : bool :=
  match v with
  | JArr _ | JObj _ => false
  | _ => true
  end.

(** ** [decimal.Decimal]

    A finite decimal is a coefficient and an exponent, [dcoef * 10^dexp].
    NaN and the infinities are left out, and the sign of a zero is not
    tracked.  Arithmetic runs in the default context: precision 28,
    ROUND_HALF_EVEN, Emax 999999, Emin -999999, Overflow trapped. *)
Record dec : Type := Dec { dcoef : Z; dexp : Z }.

Definition prec : Z := 28.
Definition Emax : Z := 999999.
Definition Emin : Z := -999999.
Definition Etiny : Z := Emin - prec + 1.
Definition Etop : Z := Emax - prec + 1.

(** [Decimal(n)] for a Python [int]. *)
Definition dec_of_int (n : Z) : dec := Dec n 0.

Definition dec_neg (a : dec) : dec := Dec (- dcoef a) (dexp a).

(** Number of decimal digits of a positive number, [len(str(n))]. *)
Fixpoint ndigits_fuel (fuel : nat) (n : Z) : Z :=
  match fuel with
  | O => 0
  | S f => if n <? 10 then 1 else 1 + ndigits_fuel f (n / 10)
  end.

Definition ndigits (n : Z) : Z := ndigits_fuel (S (Z.to_nat (Z.log2 n))) n.

(** The exact sum, at the smaller of the two exponents. *)
Definition dec_add_exact (a b : dec) : dec :=
  let m := Z.min (dexp a) (dexp b) in
  Dec (dcoef a * 10 ^ (dexp a - m) + dcoef b * 10 ^ (dexp b - m)) m.

(** [Decimal._fix]: round to the context precision, half to even. *)
Definition dec_fix (a : dec) : result dec :=
  let c := dcoef a in
  let e := dexp a in
  if c =? 0 then Ok (Dec 0 (Z.min (Z.max e Etiny) Emax))
  else
    let exp_min0 := ndigits (Z.abs c) + e - prec in
    if exp_min0 >? Etop then Raise DecimalOverflow
    else
      let exp_min := Z.max exp_min0 Etiny in
      if e <? exp_min then
        let k := exp_min - e in
        let q := Z.abs c / 10 ^ k in
        let r := Z.abs c mod 10 ^ k in
        let up := (2 * r >? 10 ^ k) || ((2 * r =? 10 ^ k) && Z.odd q) in
        let q1 := if up then q + 1 else q in
        let q2 := if q1 >=? 10 ^ prec then q1 / 10 else q1 in
        let e2 := if q1 >=? 10 ^ prec then exp_min + 1 else exp_min in
        if e2 >? Etop then Raise DecimalOverflow
        else Ok (Dec (Z.sgn c * q2) e2)
      else Ok a.

(** [a + b] and [a - b] on decimals: the exact result, then [_fix]. *)
Definition dec_add (a b : dec) : result dec := dec_fix (dec_add_exact a b).
Definition dec_sub (a b : dec) : result dec := dec_add a (dec_neg b).

(** [a > 0] for a decimal [a]. *)
Definition dec_pos (a : dec) : bool := 0 <? dcoef a.

(** The rational a decimal denotes. *)
Definition dec_val (a : dec) : Q := inject_Z (dcoef a) * Qpower (inject_Z 10) (dexp a).

(** ** Aware datetimes

    [wall] is the local wall-clock reading and [utcoff] the UTC offset of the
    attached time zone, both in microseconds.  Aware datetimes compare by
    instant. *)
Record datetime : Type := DT { wall : Z; utcoff : Z }.

Definition instant (t : datetime) : Z := wall t - utcoff t.
Definition dt_lt (a b : datetime) : bool := instant a <? instant b.
Definition dt_le (a b : datetime) : bool := instant a <=? instant b.

Definition usec_per_min : Z := 60 * 1000000.
Definition usec_per_day : Z := 24 * 60 * usec_per_min.

(** [timedelta(hours=h, minutes=m)] in microseconds. *)
Definition timedelta (h m : Z) : Z := (h * 60 + m) * usec_per_min.

(** [t - delta]: wall-clock arithmetic, the time zone is kept. *)
Definition dt_minus (t : datetime) (delta : Z) : datetime :=
  DT (wall t - delta) (utcoff t).

(** [t.replace(hour=h, minute=m, second=0, microsecond=0)]. *)
Definition dt_replace_hm (t : datetime) (h m : Z) : datetime :=
  DT (wall t - wall t mod usec_per_day + timedelta h m) (utcoff t).

(** Local time of day, microseconds since local midnight. *)
Definition time_of_day (t : datetime) : Z := wall t mod usec_per_day.

(** ** Broker vocabulary (the part of the SDK the bot touches) *)

Inductive OrderAction : Type := BUY | SELL.
Inductive PriceEffect : Type := DEBIT | CREDIT.
Inductive OrderTimeInForce : Type := DAY | GTC.
Inductive OrderType : Type := LIMIT | MARKET | STOP | STOP_LIMIT.
Inductive OrderStatus : Type := RECEIVED | LIVE | FILLED | CANCELLED | REJECTED.
Inductive InstrumentType : Type := FUTURE | FUTURE_OPTION | EQUITY | EQUITY_OPTION.

Definition OrderAction_eqb (a b : OrderAction) : bool :=
  match a, b with
  | BUY, BUY | SELL, SELL => true
  | _, _ => false
  end.

(** What [Future.get_future] returns: only the symbol is used. *)
Record Future : Type := { fut_symbol : string }.

Record Leg : Type := {
  leg_instrument_type : InstrumentType;
  leg_symbol : string;
  leg_quantity : dec;
  leg_action : OrderAction
}.

(** [future.build_leg(quantity, action)]. *)
Definition build_leg (f : Future) (quantity : dec) (action : OrderAction) : Leg :=
  {| leg_instrument_type := FUTURE;
     leg_symbol := fut_symbol f;
     leg_quantity := quantity;
     leg_action := action |}.

Record NewOrder : Type := {
  time_in_force : OrderTimeInForce;
  order_type : OrderType;
  legs : list Leg;
  price : option dec;
  stop_trigger : option dec;
  price_effect : PriceEffect
}.

Record NewComplexOrder : Type := {
  trigger_order : NewOrder;
  orders : list NewOrder
}.

(** An entry of [account.get_positions]. *)
Record CurrentPosition : Type := {
  pos_symbol : string;
  pos_underlying_symbol : string;
  pos_quantity_direction : string;
  pos_instrument_type : InstrumentType;
  pos_quantity : dec
}.

(** An entry of [account.get_live_orders]. *)
Record PlacedOrder : Type := {
  po_id : Z;
  po_order_type : OrderType;
  po_status : OrderStatus
}.

(** ** Bot state *)

(** The integer and string settings [load_config] reads. *)
Record Config : Type := {
  PAYLOAD_TOKEN : string;
  NARROW_NQ : Z; MEDIUM_NQ : Z; WIDE_NQ : Z;
  NARROW_ES : Z; MEDIUM_ES : Z; WIDE_ES : Z;
  SIZE_ES : Z; SIZE_NQ : Z;
  TICKER_ES : string; TICKER_NQ : string;
  PUSHOVER_TOKEN : string; PUSHOVER_USER : string
}.

(** [config[key]] for the integer settings; [None] is a missing key. *)
Definition config_int (c : Config) (key : string) : option Z :=
  if String.eqb key "NARROW_NQ" then Some (NARROW_NQ c)
  else if String.eqb key "MEDIUM_NQ" then Some (MEDIUM_NQ c)
  else if String.eqb key "WIDE_NQ" then Some (WIDE_NQ c)
  else if String.eqb key "NARROW_ES" then Some (NARROW_ES c)
  else if String.eqb key "MEDIUM_ES" then Some (MEDIUM_ES c)
  else if String.eqb key "WIDE_ES" then Some (WIDE_ES c)
  else if String.eqb key "SIZE_ES" then Some (SIZE_ES c)
  else if String.eqb key "SIZE_NQ" then Some (SIZE_NQ c)
  else None.

(** [config[key]] for the ticker names. *)
Definition config_str (c : Config) (key : string) : option string :=
  if String.eqb key "TICKER_ES" then Some (TICKER_ES c)
  else if String.eqb key "TICKER_NQ" then Some (TICKER_NQ c)
  else None.

(** The dictionary appended to [in_position]. *)
Record Position : Type := {
  ticker : string;
  symbol_ticker : string;
  current_price : dec;
  stop_size : Z;
  profit_size : Z;
  order_action : OrderAction;
  size : Z
}.

(** The module globals.  [timestamps] always has exactly the keys "ES" and
    "NQ", so it is kept as two fields; a lookup of any other key is a
    [KeyError] (see [timestamps_get]). *)
Record Bot : Type := {
  timestamps_ES : list datetime;
  timestamps_NQ : list datetime;
  in_position : list Position;
  is_live : bool;
  is_bullish : bool;
  symbol_ES : string;
  symbol_NQ : string
}.

Definition set_timestamps (b : Bot) (es nq : list datetime) : Bot :=
  {| timestamps_ES := es; timestamps_NQ := nq;
     in_position := in_position b; is_live := is_live b;
     is_bullish := is_bullish b;
     symbol_ES := symbol_ES b; symbol_NQ := symbol_NQ b |}.

Definition set_in_position (b : Bot) (p : list Position) : Bot :=
  {| timestamps_ES := timestamps_ES b; timestamps_NQ := timestamps_NQ b;
     in_position := p; is_live := is_live b;
     is_bullish := is_bullish b;
     symbol_ES := symbol_ES b; symbol_NQ := symbol_NQ b |}.

Definition set_is_live (b : Bot) (v : bool) : Bot :=
  {| timestamps_ES := timestamps_ES b; timestamps_NQ := timestamps_NQ b;
     in_position := in_position b; is_live := v;
     is_bullish := is_bullish b;
     symbol_ES := symbol_ES b; symbol_NQ := symbol_NQ b |}.

Definition set_is_bullish (b : Bot) (v : bool) : Bot :=
  {| timestamps_ES := timestamps_ES b; timestamps_NQ := timestamps_NQ b;
     in_position := in_position b; is_live := is_live b;
     is_bullish := v;
     symbol_ES := symbol_ES b; symbol_NQ := symbol_NQ b |}.

(** [timestamps[key]]. *)
Definition timestamps_get (b : Bot) (key : jval) : option (list datetime) :=
  if jeq_str key "ES" then Some (timestamps_ES b)
  else if jeq_str key "NQ" then Some (timestamps_NQ b)
  else None.

(** [timestamps[key] = l]; only used on a key that is present. *)
Definition timestamps_set (b : Bot) (key : jval) (l : list datetime) : Bot :=
  if jeq_str key "ES" then set_timestamps b l (timestamps_NQ b)
  else if jeq_str key "NQ" then set_timestamps b (timestamps_ES b) l
  else b.

(** [globals()[name]] for the two contract symbols. *)
Definition globals_symbol (b : Bot) (name : string) : option string :=
  if String.eqb name "symbol_ES" then Some (symbol_ES b)
  else if String.eqb name "symbol_NQ" then Some (symbol_NQ b)
  else None.

(** ** Messages, calls and the effect trace *)

(** The texts the bot logs or pushes, by template and arguments. *)
Inductive Text : Type :=
| TEntering (action : OrderAction) (ticker_name : string) (price : dec)
            (size stop_size profit_size : Z)
| TErrorOpening (e : exn)
| TClosing (direction : string) (underlying : string) (price : dec) (quantity : dec)
| TErrorClosing (e : exn)
| TCancelled (id : Z)
| TPushoverFailed
| TPushoverNoCredentials.

(** Calls to the outside world. *)
Inductive Call : Type :=
| CNow
| CGetFuture (symbol : string)
| CPlaceComplexOrder (o : NewComplexOrder)
| CPlaceOrder (o : NewOrder)
| CGetPositions
| CGetLiveOrders
| CDeleteOrder (id : Z)
| CPushover (m : Text).

(** What a run leaves behind besides the bot state: the calls made, the
    log lines written and the delays slept, in order. *)
Inductive Effect : Type :=
| Called (c : Call)
| LogError (m : Text)
| LogInfo (m : Text)
| Sleep (seconds : Z).

(** ** The outside world

    The broker account, the clock and the notification service.  Each
    operation reads and updates an opaque state and gives its answer; the
    theorems below hold for every such world. *)
Class External : Type := {
  ext_state : Type;
  now_nyc : ext_state -> datetime * ext_state;
  get_future : string -> ext_state -> result Future * ext_state;
  place_complex_order : NewComplexOrder -> ext_state -> result unit * ext_state;
  place_order : NewOrder -> ext_state -> result unit * ext_state;
  get_positions : ext_state -> result (list CurrentPosition) * ext_state;
  get_live_orders : ext_state -> result (list PlacedOrder) * ext_state;
  delete_order : Z -> ext_state -> result unit * ext_state;
  pushover_post : Text -> ext_state -> result Z * ext_state
}.

(** ** Requests and responses *)

(** The fields [handle_webhook] and the toggles read with [data.get].
    [price_decimal] is the outcome of [Decimal(data.get('price'))]: the
    decimal, or the exception the conversion raises. *)
Record Payload : Type := {
  payload_token : jval;
  payload_ticker : jval;
  payload_alert_type : jval;
  payload_stop_type : jval;
  price_decimal : result dec;
  payload_bypass : jval
}.

(** What [await request.json()] meets: a body that is not JSON, JSON that is
    not an object, or an object. *)
Inductive Request : Type :=
| BadJson
| NonObject
| Object (data : Payload).

Record Response : Type := { status : Z; text : string }.

(** [web.Response(text=t)] has status 200. *)
Definition response_text (t : string) : Response := {| status := 200; text := t |}.

(** ** String helpers *)

Definition upper_ascii (c : ascii) : ascii :=
  let n := nat_of_ascii c in
  if ((97 <=? n) && (n <=? 122))%nat then ascii_of_nat (n - 32) else c.

(** [s.upper()] on ASCII text. *)
Fixpoint upper (s : string) : string :=
  match s with
  | EmptyString => EmptyString
  | String c r => String (upper_ascii c) (upper r)
  end.

(** [stop_type in ["Narrow", "Medium", "Wide"]]. *)
Definition stop_type_known (v : jval) : bool :=
  jeq_str v "Narrow" || jeq_str v "Medium" || jeq_str v "Wide".

(** [profit_multipliers[stop_type]]. *)
Definition profit_multipliers (v : jval) : option Z :=
  if jeq_str v "Narrow" then Some 3
  else if jeq_str v "Medium" then Some 5
  else if jeq_str v "Wide" then Some 7
  else None.

(** [stop_type.upper()]; only a [str] has the method. *)
Definition jupper (v : jval) : option string :=
  match v with
  | JStr s => Some (upper s)
  | _ => None
  end.

(** Truth value of a list. *)
Definition nonempty {A : Type} (l : list A) : bool :=
  match l with
  | [] => false
  | _ :: _ => true
  end.

(** How a loop body ends: fall through to the next iteration, or [return]
    from the enclosing function. *)
Inductive flow : Type := Continue | Return.

(** ** The engine *)

Section Engine.

Context {X : External}.
Variable config : Config.

(** Everything a handler can read or change. *)
Record World : Type := {
  bot : Bot;
  ext : ext_state;
  trace : list Effect
}.

(** State and exceptions: a computation maps a world to a result and the
    world it leaves; an exception keeps the changes made before it. *)
Definition M (A : Type) : Type := World -> result A * World.

Definition ret {A : Type} (a : A) : M A := fun w => (Ok a, w).

Definition raise {A : Type} (e : exn) : M A := fun w => (Raise e, w).

Definition bind {A B : Type} (m : M A) (k : A -> M B) : M B :=
  fun w =>
    match m w with
    | (Ok a, w') => k a w'
    | (Raise e, w') => (Raise e, w')
    end.

(** [try: m  except Exception as e: h e]. *)
Definition try_except {A : Type} (m : M A) (h : exn -> M A) : M A :=
  fun w =>
    match m w with
    | (Ok a, w') => (Ok a, w')
    | (Raise e, w') => h e w'
    end.

Notation "x <- m ;; k" := (bind m (fun x => k))
  (at level 61, m at next level, right associativity).
Notation "m ;;; k" := (bind m (fun _ => k))
  (at level 61, right associativity).

Definition get_bot : M Bot := fun w => (Ok (bot w), w).

Definition modify_bot (f : Bot -> Bot) : M unit :=
  fun w => (Ok tt, {| bot := f (bot w); ext := ext w; trace := trace w |}).

Definition emit (e : Effect) : M unit :=
  fun w => (Ok tt, {| bot := bot w; ext := ext w; trace := (trace w ++ [e])%list |}).

(** A call to the outside world, recorded in the trace. *)
Definition call {A : Type} (c : Call) (op : ext_state -> result A * ext_state) : M A :=
  fun w =>
    let (r, x') := op (ext w) in
    (r, {| bot := bot w; ext := x'; trace := (trace w ++ [Called c])%list |}).

(** A dictionary lookup: a missing key raises [e]. *)
Definition lookup {A : Type} (o : option A) (e : exn) : M A :=
  match o with
  | Some a => ret a
  | None => raise e
  end.

Definition lift {A : Type} (r : result A) : M A :=
  match r with
  | Ok a => ret a
  | Raise e => raise e
  end.

(** [await asyncio.sleep(s)]. *)
Definition sleep (s : Z) : M unit := emit (Sleep s).

(** [for x in l: body x], where the body may [return]. *)
Fixpoint for_each {A : Type} (l : list A) (body : A -> M flow) : M flow :=
  match l with
  | [] => ret Continue
  | x :: r =>
      f <- body x ;;
      match f with
      | Continue => for_each r body
      | Return => ret Return
      end
  end.

(** *** Notifications *)

(** [requests.post] is called with no [try] around it: when it raises, the
    exception leaves [send_pushover_message]. *)
Definition send_pushover_message (message : Text) : M unit :=
  if negb (String.eqb (PUSHOVER_TOKEN config) "")
     && negb (String.eqb (PUSHOVER_USER config) "")
  then
    code <- call (CPushover message) (pushover_post message) ;;
    if negb (code =? 200) then emit (LogError TPushoverFailed) else ret tt
  else emit (LogError TPushoverNoCredentials).

(** *** Alert timestamps *)

Definition clean_old_timestamps (current_time : datetime) : M unit :=
  let time_threshold := dt_minus current_time (timedelta 1 30) in
  modify_bot (fun b =>
    set_timestamps b
      (filter (fun t => dt_lt time_threshold t) (timestamps_ES b))
      (filter (fun t => dt_lt time_threshold t) (timestamps_NQ b))).

Definition clear_timestamps : M unit :=
  modify_bot (fun b => set_timestamps b [] []).

(** [timestamps[ticker].append(current_time)]: the subscript raises
    [TypeError] for an unhashable key and [KeyError] for a missing one. *)
Definition append_timestamp (ticker : jval) (current_time : datetime) : M unit :=
  b <- get_bot ;;
  l <- (if hashable ticker then lookup (timestamps_get b ticker) KeyError
        else raise TypeError) ;;
  modify_bot (fun b => timestamps_set b ticker (l ++ [current_time])%list).

(** *** Working orders *)

Definition cancel_live_orders : M unit :=
  b <- get_bot ;;
  if is_live b then
    working_orders <- call CGetLiveOrders get_live_orders ;;
    _ <- for_each working_orders (fun working_order =>
      if (match po_order_type working_order with
          | STOP | LIMIT => true
          | _ => false
          end)
         && (match po_status working_order with LIVE => true | _ => false end)
      then
        call (CDeleteOrder (po_id working_order)) (delete_order (po_id working_order)) ;;;
        emit (LogInfo (TCancelled (po_id working_order))) ;;;
        ret Continue
      else ret Continue) ;;
    ret tt
  else ret tt.

(** *** Entry *)

Definition opposite (a : OrderAction) : OrderAction :=
  if OrderAction_eqb a BUY then SELL else BUY.

(** [Decimal(current_price + profit_size if BUY else current_price - profit_size)]. *)
Definition take_profit (current_price : dec) (profit_size : Z)
    (order_action : OrderAction) : result dec :=
  if OrderAction_eqb order_action BUY
  then dec_add current_price (dec_of_int profit_size)
  else dec_sub current_price (dec_of_int profit_size).

(** [Decimal(current_price - stop_size if BUY else current_price + stop_size)]. *)
Definition stop_loss (current_price : dec) (stop_size : Z)
    (order_action : OrderAction) : result dec :=
  if OrderAction_eqb order_action BUY
  then dec_sub current_price (dec_of_int stop_size)
  else dec_add current_price (dec_of_int stop_size).

(** The order objects of [process_trade]: a market entry that triggers a
    limit exit and a stop exit. *)
Definition otoco (symbol : Future) (size : Z) (order_action : OrderAction)
    (take_profit_price stop_loss_price : dec) : NewComplexOrder :=
  let opening_leg := build_leg symbol (dec_of_int size) order_action in
  let closing_leg := build_leg symbol (dec_of_int size) (opposite order_action) in
  let main_order :=
    {| time_in_force := DAY; order_type := MARKET; legs := [opening_leg];
       price := None; stop_trigger := None;
       price_effect := if OrderAction_eqb order_action BUY then DEBIT else CREDIT |} in
  let profit_order :=
    {| time_in_force := GTC; order_type := LIMIT; legs := [closing_leg];
       price := Some take_profit_price; stop_trigger := None;
       price_effect := if OrderAction_eqb order_action BUY then CREDIT else DEBIT |} in
  let stop_order :=
    {| time_in_force := GTC; order_type := STOP; legs := [closing_leg];
       price := None; stop_trigger := Some stop_loss_price;
       price_effect := if OrderAction_eqb order_action BUY then CREDIT else DEBIT |} in
  {| trigger_order := main_order; orders := [profit_order; stop_order] |}.

(** The body of the [try] of [process_trade]: submit, notify, settle, then
    clear the alert logs and record the position. *)
Definition submit_entry (ticker : string) (current_price : dec)
    (order_action : OrderAction) (size stop_size profit_size : Z)
    (otoco_order : NewComplexOrder) : M unit :=
  call (CPlaceComplexOrder otoco_order) (place_complex_order otoco_order) ;;;
  ticker_name <- lookup (config_str config ("TICKER_" ++ ticker)) KeyError ;;
  send_pushover_message
    (TEntering order_action ticker_name current_price size stop_size profit_size) ;;;
  b <- get_bot ;;
  symbol_now <- lookup (globals_symbol b ("symbol_" ++ ticker)) KeyError ;;
  let position_object :=
    {| ticker := ticker; symbol_ticker := symbol_now;
       current_price := current_price; stop_size := stop_size;
       profit_size := profit_size; order_action := order_action;
       size := size |} in
  sleep 1 ;;;
  clear_timestamps ;;;
  modify_bot (fun b => set_in_position b (in_position b ++ [position_object])%list).

Definition process_trade (ticker : string) (stop_type : jval)
    (current_price : dec) (order_action : OrderAction) : M unit :=
  b <- get_bot ;;
  if negb (nonempty (in_position b)) && is_live b then
    if negb (stop_type_known stop_type) then raise ValueError
    else
      stop_key <- lookup (jupper stop_type) AttributeError ;;
      stop_size <- lookup (config_int config (stop_key ++ "_" ++ ticker)) KeyError ;;
      multiplier <- lookup (profit_multipliers stop_type) KeyError ;;
      let profit_size := stop_size * multiplier in
      size <- lookup (config_int config ("SIZE_" ++ ticker)) KeyError ;;
      symbol_name <- lookup (globals_symbol b ("symbol_" ++ ticker)) KeyError ;;
      symbol <- call (CGetFuture symbol_name) (get_future symbol_name) ;;
      take_profit_price <- lift (take_profit current_price profit_size order_action) ;;
      stop_loss_price <- lift (stop_loss current_price stop_size order_action) ;;
      let otoco_order :=
        otoco symbol size order_action take_profit_price stop_loss_price in
      try_except
        (submit_entry ticker current_price order_action size stop_size profit_size
           otoco_order)
        (fun e =>
           emit (LogError (TErrorOpening e)) ;;;
           send_pushover_message (TErrorOpening e))
  else ret tt.

(** *** Close *)

(** The filter of [close_positions] on a broker position. *)
Definition closable (direction : string) (pos : CurrentPosition) : bool :=
  String.eqb (pos_quantity_direction pos) direction
  && (match pos_instrument_type pos with FUTURE => true | _ => false end)
  && dec_pos (pos_quantity pos).

Definition close_positions (direction : string) (current_price : dec) : M unit :=
  b <- get_bot ;;
  if is_live b then
    positions <- call CGetPositions get_positions ;;
    f <- for_each positions (fun pos =>
      if closable direction pos then
        cancel_live_orders ;;;
        future <- call (CGetFuture (pos_symbol pos)) (get_future (pos_symbol pos)) ;;
        let closing_leg :=
          build_leg future (pos_quantity pos)
            (if String.eqb direction "Long" then SELL else BUY) in
        let closing_order :=
          {| time_in_force := DAY; order_type := MARKET; legs := [closing_leg];
             price := None; stop_trigger := None;
             price_effect := if String.eqb direction "Long" then CREDIT else DEBIT |} in
        try_except
          (call (CPlaceOrder closing_order) (place_order closing_order) ;;;
           send_pushover_message
             (TClosing direction (pos_underlying_symbol pos) current_price
                (pos_quantity pos)) ;;;
           ret Continue)
          (fun e =>
             emit (LogError (TErrorClosing e)) ;;;
             send_pushover_message (TErrorClosing e) ;;;
             ret Return)
      else ret Continue) ;;
    match f with
    | Return => ret tt
    | Continue =>
        sleep 1 ;;;
        modify_bot (fun b => set_in_position b [])
    end
  else ret tt.

(** *** The correlation gate *)

(** [forbidden_start <= current_time <= forbidden_end]. *)
Definition in_window (current_time forbidden_start forbidden_end : datetime) : bool :=
  dt_le forbidden_start current_time && dt_le current_time forbidden_end.

Definition handle_bullish_alert (ticker alert_type stop_type : jval)
    (current_price : dec) (current_time forbidden_start forbidden_end : datetime)
    (bypass : jval) : M unit :=
  if jeq_str alert_type "Long" then
    append_timestamp ticker current_time ;;;
    clean_old_timestamps current_time ;;;
    b <- get_bot ;;
    if jeq_str ticker "ES"
       && ((nonempty (timestamps_NQ b)
            && negb (in_window current_time forbidden_start forbidden_end))
           || truthy bypass)
    then process_trade "ES" stop_type current_price BUY
    else if jeq_str ticker "NQ"
       && ((nonempty (timestamps_ES b)
            && negb (in_window current_time forbidden_start forbidden_end))
           || truthy bypass)
    then process_trade "NQ" stop_type current_price BUY
    else ret tt
  else
    b <- get_bot ;;
    if jeq_str alert_type "Short" && nonempty (in_position b)
    then close_positions "Long" current_price
    else ret tt.

Definition handle_bearish_alert (ticker alert_type stop_type : jval)
    (current_price : dec) (current_time forbidden_start forbidden_end : datetime)
    (bypass : jval) : M unit :=
  if jeq_str alert_type "Short" then
    append_timestamp ticker current_time ;;;
    clean_old_timestamps current_time ;;;
    b <- get_bot ;;
    if jeq_str ticker "ES"
       && ((nonempty (timestamps_NQ b)
            && negb (in_window current_time forbidden_start forbidden_end))
           || truthy bypass)
    then process_trade "ES" stop_type current_price SELL
    else if jeq_str ticker "NQ"
       && ((nonempty (timestamps_ES b)
            && negb (in_window current_time forbidden_start forbidden_end))
           || truthy bypass)
    then process_trade "NQ" stop_type current_price SELL
    else ret tt
  else
    b <- get_bot ;;
    if jeq_str alert_type "Long" && nonempty (in_position b)
    then close_positions "Short" current_price
    else ret tt.

(** *** HTTP handlers *)

(** [data = await request.json()], then the first [data.get]. *)
Definition request_json (request : Request) : M Payload :=
  match request with
  | BadJson => raise JSONDecodeError
  | NonObject => raise AttributeError
  | Object data => ret data
  end.

Definition handle_webhook (request : Request) : M Response :=
  data <- request_json request ;;
  b <- get_bot ;;
  (if jeq_str (payload_token data) (PAYLOAD_TOKEN config) && is_live b then
     let ticker := payload_ticker data in
     current_price <- lift (price_decimal data) ;;
     let alert_type := payload_alert_type data in
     let stop_type := payload_stop_type data in
     current_time <- call CNow (fun x => let (t, x') := now_nyc x in (Ok t, x')) ;;
     let bypass := payload_bypass data in
     let forbidden_start := dt_replace_hm current_time 8 30 in
     let forbidden_end := dt_replace_hm current_time 8 35 in
     if is_bullish b
     then handle_bullish_alert ticker alert_type stop_type current_price
            current_time forbidden_start forbidden_end bypass
     else handle_bearish_alert ticker alert_type stop_type current_price
            current_time forbidden_start forbidden_end bypass
   else ret tt) ;;;
  ret (response_text "").

Definition handle_switch_bias (request : Request) : M Response :=
  data <- request_json request ;;
  if jeq_str (payload_token data) (PAYLOAD_TOKEN config) then
    b <- get_bot ;;
    close_positions (if is_bullish b then "Long" else "Short") (dec_of_int 0) ;;;
    clear_timestamps ;;;
    modify_bot (fun b => set_is_bullish b (negb (is_bullish b))) ;;;
    b' <- get_bot ;;
    let new_status := if is_bullish b' then "Bullish" else "Bearish" in
    ret (response_text ("Bot has been switched to " ++ new_status))
  else ret {| status := 403; text := "Forbidden" |}.

Definition handle_switch_live_status (request : Request) : M Response :=
  data <- request_json request ;;
  if jeq_str (payload_token data) (PAYLOAD_TOKEN config) then
    modify_bot (fun b => set_is_live b (negb (is_live b))) ;;;
    b' <- get_bot ;;
    let new_status := if is_live b' then "True" else "False" in
    ret (response_text ("Bot 'Is Live' status has been switched to " ++ new_status))
  else ret {| status := 403; text := "Forbidden" |}.

(** *** Reconciliation *)

(** One turn of the inner loop of [main]. *)
Definition reconcile_pass : M unit :=
  b <- get_bot ;;
  (if nonempty (in_position b) && is_live b then
     positions <- call CGetPositions get_positions ;;
     if negb (nonempty positions) then
       cancel_live_orders ;;;
       sleep 1 ;;;
       modify_bot (fun b => set_in_position b [])
     else ret tt
   else ret tt) ;;;
  sleep 15.

(** [n] turns of the inner loop. *)
Fixpoint reconcile_loop (n : nat) : M unit :=
  match n with
  | O => ret tt
  | S k => reconcile_pass ;;; reconcile_loop k
  end.

(** *** Runs *)

(** What can happen to the running bot, one at a time. *)
Inductive Event : Type :=
| Webhook (request : Request)
| SwitchBias (request : Request)
| SwitchLiveStatus (request : Request)
| Reconcile.

(** The world an event leaves, whether its handler returned or raised. *)
Definition step (ev : Event) (w : World) : World :=
  match ev with
  | Webhook r => snd (handle_webhook r w)
  | SwitchBias r => snd (handle_switch_bias r w)
  | SwitchLiveStatus r => snd (handle_switch_live_status r w)
  | Reconcile => snd (reconcile_pass w)
  end.

Definition run (evs : list Event) (w : World) : World :=
  fold_left (fun w ev => step ev w) evs w.

(** The world [main] starts serving in: no alert seen, no position. *)
Definition initial_world (live bullish : bool) (sym_es sym_nq : string)
    (x : ext_state) : World :=
  {| bot := {| timestamps_ES := []; timestamps_NQ := []; in_position := [];
               is_live := live; is_bullish := bullish;
               symbol_ES := sym_es; symbol_NQ := sym_nq |};
     ext := x;
     trace := [] |}.

End Engine.

Arguments World {X}.
Arguments M {X} A.

Notation "x <- m ;; k" := (bind m (fun x => k))
  (at level 61, m at next level, right associativity).
Notation "m ;;; k" := (bind m (fun _ => k))
  (at level 61, right associativity).

(** ** A scripted outside world

    A small broker double used to run the handlers on concrete inputs: the
    clock reads the next scripted time, the account holds a list of positions
    and of working orders, and order placement is either accepted or refused
    altogether. *)
Record Sim : Type := {
  sim_times : list datetime;
  sim_positions : list CurrentPosition;
  sim_orders : list PlacedOrder;
  sim_refuse : bool
}.

Definition sim_now (s : Sim) : datetime * Sim :=
  match sim_times s with
  | [] => (DT 0 0, s)
  | t :: r =>
      (t, {| sim_times := r; sim_positions := sim_positions s;
             sim_orders := sim_orders s; sim_refuse := sim_refuse s |})
  end.

Definition sim_place {A : Type} (_ : A) (s : Sim) : result unit * Sim :=
  if sim_refuse s then (Raise (ExternalError "refused"), s) else (Ok tt, s).

Definition sim_delete_order (id : Z) (s : Sim) : result unit * Sim :=
  (Ok tt,
   {| sim_times := sim_times s; sim_positions := sim_positions s;
      sim_orders := filter (fun o => negb (po_id o =? id)) (sim_orders s);
      sim_refuse := sim_refuse s |}).

#[export] Instance SimExternal : External := {|
  ext_state := Sim;
  now_nyc := sim_now;
  get_future := fun symbol s => (Ok {| fut_symbol := symbol |}, s);
  place_complex_order := sim_place (A := NewComplexOrder);
  place_order := sim_place (A := NewOrder);
  get_positions := fun s => (Ok (sim_positions s), s);
  get_live_orders := fun s => (Ok (sim_orders s), s);
  delete_order := sim_delete_order;
  pushover_post := fun _ s => (Ok 200, s)
|}.

(** Settings used in the examples. *)
Definition sample_config : Config :=
  {| PAYLOAD_TOKEN := "secret";
     NARROW_NQ := 20; MEDIUM_NQ := 40; WIDE_NQ := 60;
     NARROW_ES := 5; MEDIUM_ES := 10; WIDE_ES := 15;
     SIZE_ES := 1; SIZE_NQ := 2;
     TICKER_ES := "/ES"; TICKER_NQ := "/NQ";
     PUSHOVER_TOKEN := "tok"; PUSHOVER_USER := "usr" |}.

(** 2024-01-02 is day 19724 of the epoch; New York is at UTC-5. *)
Definition sample_time (h m s : Z) : datetime :=
  DT (19724 * usec_per_day + ((h * 60 + m) * 60 + s) * 1000000)
     (- 5 * 60 * usec_per_min).

Definition sample_world (times : list datetime) (positions : list CurrentPosition)
    (working : list PlacedOrder) (refuse : bool) : World (X := SimExternal) :=
  initial_world true true "/ESH4" "/NQH4"
    {| sim_times := times; sim_positions := positions;
       sim_orders := working; sim_refuse := refuse |}.

(** A webhook body with the configured token. *)
Definition alert (tk kind stop : string) (p : dec) (bypass : jval) : Request :=
  Object {| payload_token := JStr "secret"; payload_ticker := JStr tk;
            payload_alert_type := JStr kind; payload_stop_type := JStr stop;
            price_decimal := Ok p; payload_bypass := bypass |}.

(** * Vocabulary of the properties *)

Section Vocabulary.

Context {X : External}.
Variable config : Config.

(** [keeps g m]: running [m] never changes the view [g] of the bot state,
    whether [m] returns or raises. *)
Definition keeps {T A : Type} (g : Bot -> T) (m : M A) : Prop :=
  forall w, g (bot (snd (m w))) = g (bot w).

(** [emits P m]: running [m] only appends to the trace, and every effect it
    appends satisfies [P]. *)
Definition emits {A : Type} (P : Effect -> Prop) (m : M A) : Prop :=
  forall w, exists t, trace (snd (m w)) = (trace w ++ t)%list /\ Forall P t.

(** The tracked positions of a world. *)
Definition slot (w : World) : list Position := in_position (bot w).

(** A change of the slot that only empties it. *)
Definition only_empties (old new : list Position) : Prop :=
  new = old \/ new = [].

(** A change of the slot that records an entry, from empty to one. *)
Definition records_entry (old new : list Position) : Prop :=
  old = [] /\ exists p, new = [p].

(** An effect other than the error line of a failed closing order. *)
Definition no_close_error (e : Effect) : Prop :=
  match e with
  | LogError (TErrorClosing _) => False
  | _ => True
  end.

(** An effect other than the error line of a failed opening order. *)
Definition no_open_error (e : Effect) : Prop :=
  match e with
  | LogError (TErrorOpening _) => False
  | _ => True
  end.

(** Any change an event may make to the slot: none, emptying it, or
    recording an entry into the empty slot. *)
Definition slot_change (old new : list Position) : Prop :=
  new = old \/ new = [] \/ records_entry old new.

(** [changes R m]: the slot before and after [m] are related by [R]. *)
Definition changes {A : Type} (R : list Position -> list Position -> Prop)
    (m : M A) : Prop :=
  forall w, R (slot w) (slot (snd (m w))).

(** The alert log of the other tracked instrument. *)
Definition other_log (b : Bot) (tk : string) : list datetime :=
  if String.eqb tk "ES" then timestamps_NQ b else timestamps_ES b.

(** The alert log of the instrument itself. *)
Definition own_log (b : Bot) (tk : string) : list datetime :=
  if String.eqb tk "ES" then timestamps_ES b else timestamps_NQ b.

(** [t] is less than 90 minutes before [now]. *)
Definition younger_than_90min (now t : datetime) : Prop :=
  instant now - instant t < timedelta 1 30.

(** The other instrument has an alert on record younger than 90 minutes. *)
Definition corroborated (b : Bot) (tk : string) (now : datetime) : Prop :=
  exists t, In t (other_log b tk) /\ younger_than_90min now t.

(** Local time of day within 08:30:00 and 08:35:00, both included. *)
Definition blackout (now : datetime) : Prop :=
  timedelta 8 30 <= time_of_day now <= timedelta 8 35.

(** The rule of the gate, in words. *)
Definition actionable (b : Bot) (tk : string) (now : datetime) (bypass : jval) : Prop :=
  truthy bypass = true \/ (corroborated b tk now /\ ~ blackout now).

(** The purge keeps the timestamps younger than 90 minutes. *)
Definition purge (now : datetime) (l : list datetime) : list datetime :=
  filter (fun t => dt_lt (dt_minus now (timedelta 1 30)) t) l.

(** The bot state at the moment of the decision: the alert's own timestamp
    appended to its log, then both logs purged. *)
Definition recorded (b : Bot) (tk : string) (now : datetime) : Bot :=
  if String.eqb tk "ES"
  then set_timestamps b (purge now (timestamps_ES b ++ [now])%list)
                        (purge now (timestamps_NQ b))
  else set_timestamps b (purge now (timestamps_ES b))
                        (purge now (timestamps_NQ b ++ [now])%list).

(** The world [w] with its bot state replaced by [b]. *)
Definition with_bot (w : World) (b : Bot) : World :=
  {| bot := b; ext := ext w; trace := trace w |}.

(** What the two alert handlers do with an alert in the direction of the
    bias: record it, then hand over to [process_trade] or stop. *)
Definition gate_then_trade (tk : string) (st : jval) (p : dec)
    (now fs fe : datetime) (bypass : jval) (a : OrderAction) : M unit :=
  fun w =>
    let w1 := with_bot w (recorded (bot w) tk now) in
    if nonempty (other_log (bot w1) tk) && negb (in_window now fs fe)
       || truthy bypass
    then process_trade config tk st p a w1
    else (Ok tt, w1).

(** The world a successful entry leaves: notified, settled for one second,
    logs cleared, the position recorded. *)
Definition entered (w : World) (x2 : ext_state) (o : NewComplexOrder)
    (sym : string) (msg : Text) (pos : Position) : World :=
  let w2 := {| bot := bot w; ext := x2;
               trace := (trace w ++ [Called (CGetFuture sym);
                                     Called (CPlaceComplexOrder o)])%list |} in
  let w3 := snd (send_pushover_message config msg w2) in
  {| bot := set_in_position (set_timestamps (bot w) [] []) [pos];
     ext := ext w3;
     trace := (trace w3 ++ [Sleep 1])%list |}.

(** The filter of [cancel_live_orders]: a stop or limit order that is live. *)
Definition working (o : PlacedOrder) : bool :=
  match po_order_type o with
  | STOP | LIMIT => true
  | _ => false
  end
  && match po_status o with LIVE => true | _ => false end.

(** What cancelling the orders [os] leaves in the trace. *)
Definition cancellations (os : list PlacedOrder) : list Effect :=
  flat_map (fun o => [Called (CDeleteOrder (po_id o)); LogInfo (TCancelled (po_id o))])
    (filter working os).

(** The broker state after the deletions of the working orders among [os]. *)
Definition after_cancellations (os : list PlacedOrder) (x : ext_state) : ext_state :=
  fold_left (fun x o => snd (delete_order (po_id o) x)) (filter working os) x.

(** The alert handler [handle_webhook] dispatches to, by the bias. *)
Definition dispatch (b : Bot) (data : Payload) (p : dec) (now : datetime) : M unit :=
  if is_bullish b
  then handle_bullish_alert config (payload_ticker data) (payload_alert_type data)
         (payload_stop_type data) p now (dt_replace_hm now 8 30)
         (dt_replace_hm now 8 35) (payload_bypass data)
  else handle_bearish_alert config (payload_ticker data) (payload_alert_type data)
         (payload_stop_type data) p now (dt_replace_hm now 8 30)
         (dt_replace_hm now 8 35) (payload_bypass data).

End Vocabulary.

(** A decimal that the context can hold as it is: at most [prec] digits,
    exponent between [Etiny] and 0. *)
Definition fits (a : dec) : Prop :=
  Z.abs (dcoef a) < 10 ^ prec /\ Etiny <= dexp a <= 0.


(** ** Sample worlds *)

Definition es_price : dec := Dec 450025 (-2).
Definition nq_price : dec := Dec 1700000 (-2).

(** Live, bullish, flat, with an NQ Long alert on record at 10:00:00. *)
Definition corroborated_world : World :=
  step sample_config (Webhook (alert "NQ" "Long" "Medium" nq_price JNull))
    (sample_world [sample_time 10 0 0; sample_time 10 0 5] [] [] false).

Definition es_position : Position :=
  {| ticker := "ES"; symbol_ticker := "/ESH4"; current_price := es_price;
     stop_size := 10; profit_size := 50; order_action := BUY; size := 1 |}.

(** A world that tracks [es_position], over the given broker account. *)
Definition tracked_world (positions : list CurrentPosition)
    (working : list PlacedOrder) (refuse : bool) : World :=
  with_bot (sample_world [] positions working refuse)
    (set_in_position (bot (sample_world [] positions working refuse)) [es_position]).

Definition sample_orders : list PlacedOrder :=
  [ {| po_id := 11; po_order_type := LIMIT; po_status := LIVE |};
    {| po_id := 12; po_order_type := STOP; po_status := LIVE |};
    {| po_id := 13; po_order_type := MARKET; po_status := FILLED |} ].

Definition long_es : CurrentPosition :=
  {| pos_symbol := "/ESH4"; pos_underlying_symbol := "/ES";
     pos_quantity_direction := "Long"; pos_instrument_type := FUTURE;
     pos_quantity := Dec 1 0 |}.

Definition short_nq : CurrentPosition :=
  {| pos_symbol := "/NQH4"; pos_underlying_symbol := "/NQ";
     pos_quantity_direction := "Short"; pos_instrument_type := FUTURE;
     pos_quantity := Dec 2 0 |}.

(** Live, bullish, flat, no alert on record; the clock reads 10:00:00 twice. *)
Definition fresh_world : World :=
  sample_world [sample_time 10 0 0; sample_time 10 0 0] [] [] false.


Definition toggle_body : Payload :=
  {| payload_token := JStr "secret"; payload_ticker := JNull;
     payload_alert_type := JNull; payload_stop_type := JNull;
     price_decimal := Raise TypeError; payload_bypass := JNull |}.

(** ** Vocabulary of the further properties *)

Section Outcomes.

Context {X : External}.

(** The request an event carries, if any. *)
Definition request_of (ev : Event) : option Request :=
  match ev with
  | Webhook r | SwitchBias r | SwitchLiveStatus r => Some r
  | Reconcile => None
  end.

(** An effect that is not a call to the outside world. *)
Definition no_call (e : Effect) : Prop :=
  match e with
  | Called _ => False
  | _ => True
  end.

(** What an alert against the bias may do to a world. *)
Definition closes_at_most (w w' : World) : Prop :=
  timestamps_ES (bot w') = timestamps_ES (bot w)
  /\ timestamps_NQ (bot w') = timestamps_NQ (bot w)
  /\ is_bullish (bot w') = is_bullish (bot w)
  /\ is_live (bot w') = is_live (bot w)
  /\ only_empties (slot w) (slot w').

(** An effect of [cancel_live_orders] on the orders [os]: a deletion is of
    a live stop or limit order of [os], and no other call is made. *)
Definition cancels_among (os : list PlacedOrder) (e : Effect) : Prop :=
  match e with
  | Called (CDeleteOrder id) =>
      exists o, In o os /\ po_id o = id /\ working o = true
  | Called _ => False
  | _ => True
  end.

(** The order [close_positions] builds for a position of quantity [q]. *)
Definition closing_order (direction : string) (f : Future) (q : dec) : NewOrder :=
  {| time_in_force := DAY; order_type := MARKET;
     legs := [build_leg f q (if String.eqb direction "Long" then SELL else BUY)];
     price := None; stop_trigger := None;
     price_effect := if String.eqb direction "Long" then CREDIT else DEBIT |}.

(** An effect of [close_positions]: every order it places is the market
    order above for a positive quantity, and it never places a bracket. *)
Definition closes_only (direction : string) (e : Effect) : Prop :=
  match e with
  | Called (CPlaceOrder o) =>
      exists f q, dec_pos q = true /\ o = closing_order direction f q
  | Called (CPlaceComplexOrder _) => False
  | _ => True
  end.

(** An effect that is not the submission of an order. *)
Definition no_order (e : Effect) : Prop :=
  match e with
  | Called (CPlaceComplexOrder _) | Called (CPlaceOrder _) => False
  | _ => True
  end.

(** An effect that is no call to the broker account at all. *)
Definition no_account_call (e : Effect) : Prop :=
  match e with
  | Called (CPushover _) | Called CNow => True
  | Called _ => False
  | _ => True
  end.

(** The post of a notice never raises. *)
Definition notifier_returns : Prop :=
  forall m x, exists code x', pushover_post m x = (Ok code, x').

End Outcomes.

(** ** Start-up: the settings and the contract symbols *)

Definition lower_ascii (c : ascii) : ascii :=
  let n := nat_of_ascii c in
  if ((65 <=? n) && (n <=? 90))%nat then ascii_of_nat (n + 32) else c.

(** [s.lower()]; only ASCII letters can lower to the letters of 'true',
    so on the bytes of [s] the test [s.lower() == 'true'] is the
    same. *)
Fixpoint lower (s : string) : string :=
  match s with
  | EmptyString => EmptyString
  | String c r => String (lower_ascii c) (lower r)
  end.

(** What [load_config] can raise, by the expression that raises it. *)
Inductive ConfigError : Type :=
| IntOfNone                        (* [int(None)]: a TypeError *)
| InvalidLiteral (value : string)  (* [int(s)], [s] no integer: a ValueError *)
| LowerOfNone                      (* [None.lower()]: an AttributeError *)
| NotSet (key : string).           (* the ValueError of the final loop *)

(** The settings [load_config] leaves in [config]: those the handlers
    read, and those only [main] reads ([setting_BULLISH] and [setting_LIVE]
    are the entries "BULLISH" and "LIVE"). *)
Record Settings : Type := {
  settings : Config;
  setting_BULLISH : bool;
  setting_LIVE : bool;
  TASTYTRADE_USERNAME : string;
  TASTYTRADE_PASSWORD : string;
  TASTYTRADE_ACCOUNT_NUMBER : string
}.

Definition int_keys : list string :=
  ["NARROW_NQ"; "MEDIUM_NQ"; "WIDE_NQ"; "NARROW_ES"; "MEDIUM_ES"; "WIDE_ES";
   "SIZE_ES"; "SIZE_NQ"].

Definition flag_keys : list string := ["BULLISH"; "LIVE"].

Definition string_keys : list string :=
  ["PAYLOAD_TOKEN"; "TICKER_ES"; "TICKER_NQ"; "PUSHOVER_TOKEN"; "PUSHOVER_USER";
   "TASTYTRADE_USERNAME"; "TASTYTRADE_PASSWORD"; "TASTYTRADE_ACCOUNT_NUMBER"].

Section LoadConfig.

(** [os.getenv], and [int] on a string ([None] where it raises). *)
Variable getenv : string -> option string.
Variable int_of : string -> option Z.

Definition cbind {A B : Type} (m : ConfigError + A) (k : A -> ConfigError + B)
    : ConfigError + B :=
  match m with
  | inl e => inl e
  | inr a => k a
  end.

(** [int(os.getenv(key))]. *)
Definition env_int (key : string) : ConfigError + Z :=
  match getenv key with
  | None => inl IntOfNone
  | Some s =>
      match int_of s with
      | Some n => inr n
      | None => inl (InvalidLiteral s)
      end
  end.

(** [os.getenv(key).lower() == 'true']. *)
Definition env_flag (key : string) : ConfigError + bool :=
  match getenv key with
  | None => inl LowerOfNone
  | Some s => inr (String.eqb (lower s) "true")
  end.

(** One turn of the final loop: [if value is None: raise ValueError]. *)
Definition required (key : string) (value : option string) : ConfigError + string :=
  match value with
  | None => inl (NotSet key)
  | Some s => inr s
  end.

(** The dictionary display is evaluated entry by entry, then the loop
    visits the entries in the same order; only the entries read with a
    bare [os.getenv] can be [None] there. *)
Definition load_config : ConfigError + Settings :=
  let payload_token := getenv "PAYLOAD_TOKEN" in
  cbind (env_int "NARROW_NQ") (fun narrow_nq =>
  cbind (env_int "MEDIUM_NQ") (fun medium_nq =>
  cbind (env_int "WIDE_NQ") (fun wide_nq =>
  cbind (env_int "NARROW_ES") (fun narrow_es =>
  cbind (env_int "MEDIUM_ES") (fun medium_es =>
  cbind (env_int "WIDE_ES") (fun wide_es =>
  cbind (env_flag "BULLISH") (fun bullish =>
  cbind (env_int "SIZE_ES") (fun size_es =>
  cbind (env_int "SIZE_NQ") (fun size_nq =>
  let ticker_es := getenv "TICKER_ES" in
  let ticker_nq := getenv "TICKER_NQ" in
  let pushover_token := getenv "PUSHOVER_TOKEN" in
  let pushover_user := getenv "PUSHOVER_USER" in
  let tastytrade_username := getenv "TASTYTRADE_USERNAME" in
  let tastytrade_password := getenv "TASTYTRADE_PASSWORD" in
  let tastytrade_account_number := getenv "TASTYTRADE_ACCOUNT_NUMBER" in
  cbind (env_flag "LIVE") (fun live =>
  cbind (required "PAYLOAD_TOKEN" payload_token) (fun payload_token =>
  cbind (required "TICKER_ES" ticker_es) (fun ticker_es =>
  cbind (required "TICKER_NQ" ticker_nq) (fun ticker_nq =>
  cbind (required "PUSHOVER_TOKEN" pushover_token) (fun pushover_token =>
  cbind (required "PUSHOVER_USER" pushover_user) (fun pushover_user =>
  cbind (required "TASTYTRADE_USERNAME" tastytrade_username) (fun tastytrade_username =>
  cbind (required "TASTYTRADE_PASSWORD" tastytrade_password) (fun tastytrade_password =>
  cbind (required "TASTYTRADE_ACCOUNT_NUMBER" tastytrade_account_number)
    (fun tastytrade_account_number =>
  inr {| settings :=
           {| PAYLOAD_TOKEN := payload_token;
              NARROW_NQ := narrow_nq; MEDIUM_NQ := medium_nq; WIDE_NQ := wide_nq;
              NARROW_ES := narrow_es; MEDIUM_ES := medium_es; WIDE_ES := wide_es;
              SIZE_ES := size_es; SIZE_NQ := size_nq;
              TICKER_ES := ticker_es; TICKER_NQ := ticker_nq;
              PUSHOVER_TOKEN := pushover_token; PUSHOVER_USER := pushover_user |};
         setting_BULLISH := bullish; setting_LIVE := live;
         TASTYTRADE_USERNAME := tastytrade_username;
         TASTYTRADE_PASSWORD := tastytrade_password;
         TASTYTRADE_ACCOUNT_NUMBER := tastytrade_account_number |}
  )))))))))))))))))).

(** Every variable is set, and the integer ones read as integers. *)
Definition complete : Prop :=
  (forall k, In k int_keys -> exists v n, getenv k = Some v /\ int_of v = Some n)
  /\ (forall k, In k (flag_keys ++ string_keys)%list -> getenv k <> None).

(** The ten computed entries of a run that reaches the final loop. *)
Definition numbers_read : Prop :=
  (forall k, In k int_keys -> exists v n, getenv k = Some v /\ int_of v = Some n)
  /\ (forall k, In k flag_keys -> getenv k <> None).

End LoadConfig.

(** A row of [Future.get_futures]. *)
Record FutureRow : Type := {
  row_symbol : string;
  active_month : bool
}.

Fixpoint lstrip (c : ascii) (s : string) : string :=
  match s with
  | EmptyString => EmptyString
  | String a r => if Ascii.eqb a c then lstrip c r else s
  end.

Fixpoint string_rev (s : string) : string :=
  match s with
  | EmptyString => EmptyString
  | String a r => (string_rev r ++ String a EmptyString)%string
  end.

(** [s.strip(c)] for a single character [c]. *)
Definition strip (c : ascii) (s : string) : string :=
  string_rev (lstrip c (string_rev (lstrip c s))).

Section Symbols.

(** The broker session, and [Future.get_futures] for one product code. *)
Variable session : Type.
Variable get_futures : string -> session -> result (list FutureRow) * session.

(** The loop of [get_active_symbol]. *)
Fixpoint first_active (symbols : list FutureRow) : string :=
  match symbols with
  | [] => ""
  | symbol :: rest =>
      if active_month symbol then row_symbol symbol else first_active rest
  end.

Definition get_active_symbol (product_code : string) (s : session)
    : result string * session :=
  match get_futures (strip "/" product_code) s with
  | (Ok symbols, s') => (Ok (first_active symbols), s')
  | (Raise e, s') => (Raise e, s')
  end.

End Symbols.

(** A sample environment, and a reader of unsigned decimal literals. *)
Definition sample_env : list (string * string) :=
  [("PAYLOAD_TOKEN", "secret"); ("NARROW_NQ", "20"); ("MEDIUM_NQ", "40");
   ("WIDE_NQ", "60"); ("NARROW_ES", "5"); ("MEDIUM_ES", "10"); ("WIDE_ES", "15");
   ("BULLISH", "True"); ("SIZE_ES", "1"); ("SIZE_NQ", "2");
   ("TICKER_ES", "/ES"); ("TICKER_NQ", "/NQ");
   ("PUSHOVER_TOKEN", "tok"); ("PUSHOVER_USER", "usr");
   ("TASTYTRADE_USERNAME", "trader"); ("TASTYTRADE_PASSWORD", "password");
   ("TASTYTRADE_ACCOUNT_NUMBER", "5WX00000"); ("LIVE", "false")].

Fixpoint env_lookup (env : list (string * string)) (key : string) : option string :=
  match env with
  | [] => None
  | (k, v) :: rest => if String.eqb k key then Some v else env_lookup rest key
  end.

Fixpoint digits_value (s : string) (acc : Z) : option Z :=
  match s with
  | EmptyString => Some acc
  | String c r =>
      let n := Z.of_nat (nat_of_ascii c) in
      if (48 <=? n) && (n <=? 57) then digits_value r (acc * 10 + (n - 48)) else None
  end.

Definition sample_int (s : string) : option Z :=
  match s with
  | EmptyString => None
  | _ => digits_value s 0
  end.

(** What [sample_env] loads to. *)
Definition sample_settings : Settings :=
  {| settings := sample_config;
     setting_BULLISH := true; setting_LIVE := false;
     TASTYTRADE_USERNAME := "trader"; TASTYTRADE_PASSWORD := "password";
     TASTYTRADE_ACCOUNT_NUMBER := "5WX00000" |}.

(** Tracking [es_position] with live mode off. *)
Definition paper_world : World :=
  with_bot (tracked_world [long_es] sample_orders false)
    (set_is_live (bot (tracked_world [long_es] sample_orders false)) false).

(** A body with a token that is not the configured one. *)
Definition forged_body : Payload :=
  {| payload_token := JStr "guess"; payload_ticker := JStr "ES";
     payload_alert_type := JStr "Long"; payload_stop_type := JStr "Medium";
     price_decimal := Ok es_price; payload_bypass := JBool true |}.

(** A broker that is down: every call to the account raises. *)
Definition DownExternal : External := {|
  ext_state := unit;
  now_nyc := fun x => (sample_time 10 0 0, x);
  get_future := fun _ x => (Raise (ExternalError "down"), x);
  place_complex_order := fun _ x => (Raise (ExternalError "down"), x);
  place_order := fun _ x => (Raise (ExternalError "down"), x);
  get_positions := fun x => (Raise (ExternalError "down"), x);
  get_live_orders := fun x => (Raise (ExternalError "down"), x);
  delete_order := fun _ x => (Raise (ExternalError "down"), x);
  pushover_post := fun _ x => (Ok 200, x)
|}.

(** A broker that accepts every order and reports no open position, but
    whose cancellations fail, with a notifier that cannot be reached. *)
Definition FlakyExternal : External := {|
  ext_state := unit;
  now_nyc := fun x => (sample_time 10 0 5, x);
  get_future := fun symbol x => (Ok {| fut_symbol := symbol |}, x);
  place_complex_order := fun _ x => (Ok tt, x);
  place_order := fun _ x => (Ok tt, x);
  get_positions := fun x => (Ok [], x);
  get_live_orders := fun x => (Ok sample_orders, x);
  delete_order := fun _ x => (Raise (ExternalError "cancel failed"), x);
  pushover_post := fun _ x => (Raise (ExternalError "ConnectionError"), x)
|}.


(** Live and tracking [es_position], over that broker. *)
Definition flaky_tracked_world : World (X := FlakyExternal) :=
  @Build_World FlakyExternal
    {| timestamps_ES := []; timestamps_NQ := [];
       in_position := [es_position];
       is_live := true; is_bullish := true;
       symbol_ES := "/ESH4"; symbol_NQ := "/NQH4" |}
    tt [].

(** Live and tracking [es_position], over the broker that is down. *)
Definition down_world : World (X := DownExternal) :=
  @Build_World DownExternal
    {| timestamps_ES := []; timestamps_NQ := [];
       in_position := [es_position];
       is_live := true; is_bullish := true;
       symbol_ES := "/ESH4"; symbol_NQ := "/NQH4" |}
    tt [].

(** * Properties *)

(** ** Frame lemmas: what a computation leaves alone *)

Section Frames.

Context {X : External}.
Variable config : Config.

Lemma keeps_ret {T A} (g : Bot -> T) (a : A) : keeps g (ret a).
Proof. intro w; reflexivity. Qed.

Lemma keeps_raise {T A} (g : Bot -> T) (e : exn) : keeps g (raise (A := A) e).
Proof. intro w; reflexivity. Qed.

Lemma keeps_get_bot {T} (g : Bot -> T) : keeps g get_bot.
Proof. intro w; reflexivity. Qed.

Lemma keeps_emit {T} (g : Bot -> T) (e : Effect) : keeps g (emit e).
Proof. intro w; reflexivity. Qed.

Lemma keeps_sleep {T} (g : Bot -> T) (s : Z) : keeps g (sleep s).
Proof. intro w; reflexivity. Qed.

Lemma keeps_call {T A} (g : Bot -> T) (c : Call)
    (op : ext_state -> result A * ext_state) : keeps g (call c op).
Proof. intro w; unfold call; destruct (op (ext w)); reflexivity. Qed.

Lemma keeps_lookup {T A} (g : Bot -> T) (o : option A) (e : exn) :
  keeps g (lookup o e).
Proof. intro w; destruct o; reflexivity. Qed.

Lemma keeps_lift {T A} (g : Bot -> T) (r : result A) : keeps g (lift r).
Proof. intro w; destruct r; reflexivity. Qed.

Lemma keeps_modify {T} (g : Bot -> T) (f : Bot -> Bot) :
  (forall b, g (f b) = g b) -> keeps g (modify_bot f).
Proof. intros H w; simpl; apply H. Qed.

Lemma keeps_bind {T A B} (g : Bot -> T) (m : M A) (k : A -> M B) :
  keeps g m -> (forall a, keeps g (k a)) -> keeps g (bind m k).
Proof.
  intros Hm Hk w. unfold bind. specialize (Hm w).
  destruct (m w) as [[a | e] w']; simpl in *.
  - rewrite Hk. exact Hm.
  - exact Hm.
Qed.

Lemma keeps_try {T A} (g : Bot -> T) (m : M A) (h : exn -> M A) :
  keeps g m -> (forall e, keeps g (h e)) -> keeps g (try_except m h).
Proof.
  intros Hm Hh w. unfold try_except. specialize (Hm w).
  destruct (m w) as [[a | e] w']; simpl in *.
  - exact Hm.
  - rewrite Hh. exact Hm.
Qed.

Lemma keeps_for_each {T A} (g : Bot -> T) (l : list A) (body : A -> M flow) :
  (forall a, keeps g (body a)) -> keeps g (for_each l body).
Proof.
  intros Hb. induction l as [| a l IH]; simpl.
  - apply keeps_ret.
  - apply keeps_bind; [apply Hb |].
    intros [|]; [exact IH | apply keeps_ret].
Qed.

Lemma keeps_if {T A} (g : Bot -> T) (c : bool) (m1 m2 : M A) :
  keeps g m1 -> keeps g m2 -> keeps g (if c then m1 else m2).
Proof. destruct c; auto. Qed.

End Frames.

Create HintDb frame.
#[export] Hint Resolve keeps_ret keeps_raise keeps_get_bot keeps_emit keeps_sleep
  keeps_call keeps_lookup keeps_lift keeps_if : frame.

(** Steps through a computation, closing the frame goal of each part. *)
Ltac frame :=
  repeat first
    [ progress intros
    | apply keeps_bind
    | apply keeps_try
    | apply keeps_for_each
    | apply keeps_if
    | solve [auto with frame]
    | solve [apply keeps_modify; intros; reflexivity] ].

Section FrameCalls.

Context {X : External}.
Variable config : Config.

Lemma keeps_send_pushover_message {T} (g : Bot -> T) (m : Text) :
  keeps g (send_pushover_message config m).
Proof. unfold send_pushover_message. frame. Qed.

Lemma keeps_cancel_live_orders {T} (g : Bot -> T) : keeps g cancel_live_orders.
Proof. unfold cancel_live_orders. frame. Qed.

End FrameCalls.

(** ** Effect lemmas: what a computation adds to the trace *)

Section Emits.

Context {X : External}.

Lemma emits_nothing {A} (P : Effect -> Prop) (m : M A) :
  (forall w, trace (snd (m w)) = trace w) -> emits P m.
Proof.
  intros H w. exists []. rewrite H, app_nil_r. split; [reflexivity | constructor].
Qed.

Lemma emits_ret {A} P (a : A) : emits P (ret a).
Proof. apply emits_nothing; reflexivity. Qed.

Lemma emits_raise {A} P (e : exn) : emits P (raise (A := A) e).
Proof. apply emits_nothing; reflexivity. Qed.

Lemma emits_get_bot P : emits P get_bot.
Proof. apply emits_nothing; reflexivity. Qed.

Lemma emits_modify P (f : Bot -> Bot) : emits P (modify_bot f).
Proof. apply emits_nothing; reflexivity. Qed.

Lemma emits_lookup {A} P (o : option A) (e : exn) : emits P (lookup o e).
Proof. apply emits_nothing; destruct o; reflexivity. Qed.

Lemma emits_lift {A} P (r : result A) : emits P (lift r).
Proof. apply emits_nothing; destruct r; reflexivity. Qed.

Lemma emits_emit (P : Effect -> Prop) (e : Effect) : P e -> emits P (emit e).
Proof.
  intros H w. exists [e]. split; [reflexivity | repeat constructor; exact H].
Qed.

Lemma emits_call {A} (P : Effect -> Prop) (c : Call)
    (op : ext_state -> result A * ext_state) :
  P (Called c) -> emits P (call c op).
Proof.
  intros H w. exists [Called c]. unfold call. destruct (op (ext w)).
  split; [reflexivity | repeat constructor; exact H].
Qed.

Lemma emits_bind {A B} P (m : M A) (k : A -> M B) :
  emits P m -> (forall a, emits P (k a)) -> emits P (bind m k).
Proof.
  intros Hm Hk w. unfold bind. destruct (Hm w) as [t1 [E1 F1]].
  destruct (m w) as [[a | e] w1]; simpl in *.
  - destruct (Hk a w1) as [t2 [E2 F2]]. exists (t1 ++ t2)%list.
    rewrite E2, E1, app_assoc. split; [reflexivity | apply Forall_app; auto].
  - exists t1. auto.
Qed.

Lemma emits_try {A} P (m : M A) (h : exn -> M A) :
  emits P m -> (forall e, emits P (h e)) -> emits P (try_except m h).
Proof.
  intros Hm Hh w. unfold try_except. destruct (Hm w) as [t1 [E1 F1]].
  destruct (m w) as [[a | e] w1]; simpl in *.
  - exists t1. auto.
  - destruct (Hh e w1) as [t2 [E2 F2]]. exists (t1 ++ t2)%list.
    rewrite E2, E1, app_assoc. split; [reflexivity | apply Forall_app; auto].
Qed.

Lemma emits_for_each {A} P (l : list A) (body : A -> M flow) :
  (forall a, emits P (body a)) -> emits P (for_each l body).
Proof.
  intros Hb. induction l as [| a l IH]; simpl.
  - apply emits_ret.
  - apply emits_bind; [apply Hb |].
    intros [|]; [exact IH | apply emits_ret].
Qed.

Lemma emits_if {A} P (c : bool) (m1 m2 : M A) :
  emits P m1 -> emits P m2 -> emits P (if c then m1 else m2).
Proof. destruct c; auto. Qed.

End Emits.

#[export] Hint Resolve emits_ret emits_raise emits_get_bot emits_modify
  emits_lookup emits_lift emits_if : frame.

(** Steps through a computation, leaving the side condition of each effect
    it meets. *)
Ltac effects :=
  repeat first
    [ progress intros
    | apply emits_bind
    | apply emits_try
    | apply emits_for_each
    | apply emits_if
    | solve [auto with frame]
    | apply emits_emit
    | apply emits_call
    | progress unfold sleep ].

(** ** The position slot *)

(** Splits on the scrutinee of the first [match] or [if] of the goal. *)
Ltac split_match :=
  match goal with
  | |- context [match ?x with _ => _ end] => destruct x eqn:?
  end.

Section Slot.

Context {X : External}.
Variable config : Config.

Lemma nonempty_false {A} (l : list A) : nonempty l = false -> l = [].
Proof. destruct l; [reflexivity | discriminate]. Qed.

Lemma call_spec {A} (c : Call) (op : ext_state -> result A * ext_state)
    (w : World) :
  match call c op w with
  | (r, w') =>
      bot w' = bot w /\ trace w' = (trace w ++ [Called c])%list /\
      (r, ext w') = op (ext w)
  end.
Proof. unfold call. destruct (op (ext w)). simpl. auto. Qed.

(** The notification returns when the post does. *)
Lemma send_pushover_message_ok m (w : World) c x' :
  pushover_post m (ext w) = (Ok c, x') ->
  fst (send_pushover_message config m w) = Ok tt.
Proof.
  intro H. unfold send_pushover_message.
  destruct (_ && _); [| reflexivity].
  unfold bind, call. rewrite H.
  destruct (negb (c =? 200)); reflexivity.
Qed.

Lemma emits_send_pushover_message (P : Effect -> Prop) m :
  P (Called (CPushover m)) -> P (LogError TPushoverFailed) ->
  P (LogError TPushoverNoCredentials) ->
  emits P (send_pushover_message config m).
Proof. intros. unfold send_pushover_message. effects; assumption. Qed.

Lemma emits_cancel_live_orders (P : Effect -> Prop) :
  P (Called CGetLiveOrders) ->
  (forall id, P (Called (CDeleteOrder id))) ->
  (forall id, P (LogInfo (TCancelled id))) ->
  emits P cancel_live_orders.
Proof. intros. unfold cancel_live_orders. effects; auto. Qed.

(** The [try] body of [process_trade] raises with the bot state untouched,
    or returns with the logs cleared and one position appended. *)
Lemma submit_entry_bot tk p a sz ss ps o (w : World) :
  match submit_entry config tk p a sz ss ps o w with
  | (Raise _, w') => bot w' = bot w
  | (Ok _, w') =>
      exists sym,
        globals_symbol (bot w) ("symbol_" ++ tk) = Some sym /\
        bot w' =
          set_in_position (set_timestamps (bot w) [] [])
            (in_position (bot w)
             ++ [ {| ticker := tk; symbol_ticker := sym; current_price := p;
                     stop_size := ss; profit_size := ps; order_action := a;
                     size := sz |} ])%list
  end.
Proof.
  unfold submit_entry.
  unfold bind at 1.
  pose proof (keeps_call (fun b => b) (CPlaceComplexOrder o)
                (place_complex_order o) w) as K1.
  destruct (call _ _ w) as [[[] | e] w1]; simpl in K1; [| exact K1].
  unfold bind at 1.
  destruct (config_str config _) as [name |]; simpl; [| exact K1].
  unfold bind at 1.
  match goal with
  | |- context [send_pushover_message _ ?m w1] =>
      pose proof (keeps_send_pushover_message config (fun b => b) m w1) as K2;
      destruct (send_pushover_message config m w1) as [[[] | e] w2]
  end; simpl in K2; [| simpl; congruence].
  unfold bind at 1; simpl.
  destruct (globals_symbol (bot w2) _) as [sym |] eqn:Hs; simpl;
    [| congruence].
  exists sym. rewrite K2, K1 in *. split; [exact Hs | reflexivity].
Qed.

Lemma emits_submit_entry tk p a sz ss ps o :
  emits no_open_error (submit_entry config tk p a sz ss ps o).
Proof.
  unfold submit_entry, clear_timestamps. effects; exact I.
Qed.

(** [process_trade] leaves the bot state as it is, or, from an empty slot in
    live mode, returns with the logs cleared and one position recorded,
    having logged no failed opening order. *)
Lemma process_trade_bot tk st p a (w : World) :
  match process_trade config tk st p a w with
  | (r, w') =>
      exists t, trace w' = (trace w ++ t)%list /\
        (bot w' = bot w
         \/ (in_position (bot w) = [] /\ is_live (bot w) = true /\ r = Ok tt /\
             Forall no_open_error t /\
             exists pos,
               bot w' = set_in_position (set_timestamps (bot w) [] []) [pos]))
  end.
Proof.
  unfold process_trade.
  unfold bind at 1; simpl.
  destruct (nonempty (in_position (bot w))) eqn:Hne; simpl;
    [exists []; rewrite app_nil_r; auto |].
  apply nonempty_false in Hne.
  destruct (is_live (bot w)) eqn:Hlive; simpl;
    [| exists []; rewrite app_nil_r; auto].
  destruct (stop_type_known st); simpl; [| exists []; rewrite app_nil_r; auto].
  unfold bind at 1. destruct (jupper st); simpl;
    [| exists []; rewrite app_nil_r; auto].
  unfold bind at 1. destruct (config_int config _); simpl;
    [| exists []; rewrite app_nil_r; auto].
  unfold bind at 1. destruct (profit_multipliers st); simpl;
    [| exists []; rewrite app_nil_r; auto].
  unfold bind at 1. destruct (config_int config _); simpl;
    [| exists []; rewrite app_nil_r; auto].
  unfold bind at 1. destruct (globals_symbol _ _); simpl;
    [| exists []; rewrite app_nil_r; auto].
  unfold bind at 1.
  match goal with
  | |- context [call ?c ?op w] =>
      pose proof (call_spec c op w) as K1;
      destruct (call c op w) as [[f | e] w1]
  end; destruct K1 as (K1 & T1 & _); [| eexists; split; [exact T1 | auto]].
  unfold bind at 1. destruct (take_profit _ _ _); simpl;
    [| eexists; split; [exact T1 | auto]].
  unfold bind at 1. destruct (stop_loss _ _ _); simpl;
    [| eexists; split; [exact T1 | auto]].
  unfold try_except.
  match goal with
  | |- context [submit_entry config ?a1 ?a2 ?a3 ?a4 ?a5 ?a6 ?a7 w1] =>
      pose proof (submit_entry_bot a1 a2 a3 a4 a5 a6 a7 w1) as K2;
      destruct (emits_submit_entry a1 a2 a3 a4 a5 a6 a7 w1) as (t2 & T2 & F2);
      destruct (submit_entry config a1 a2 a3 a4 a5 a6 a7 w1) as [[[] | e] w2]
  end; simpl in T2.
  - destruct K2 as [sym [_ K2]].
    eexists. split; [rewrite T2, T1, <- app_assoc; reflexivity |].
    right. repeat split; try assumption.
    + constructor; [exact I | exact F2].
    + rewrite K2, K1, Hne. eexists; reflexivity.
  - match goal with
    | |- context [bind ?m ?k w2] =>
        assert (K3 : keeps (fun b => b) (bind m k)) by
          (frame; apply keeps_send_pushover_message);
        assert (E3 : emits (fun _ => True) (bind m k)) by
          (effects; exact I);
        specialize (K3 w2); destruct (E3 w2) as (t3 & T3 & _);
        destruct (bind m k w2) as [r3 w3]
    end.
    simpl in K3, T3.
    eexists. split; [rewrite T3, T2, T1, <- !app_assoc; reflexivity |].
    left. congruence.
Qed.

(** [process_trade] leaves the slot as it is, or fills an empty slot with
    one position. *)
Lemma process_trade_slot tk st p a (w : World) :
  slot (snd (process_trade config tk st p a w)) = slot w
  \/ records_entry (slot w) (slot (snd (process_trade config tk st p a w))).
Proof.
  pose proof (process_trade_bot tk st p a w) as H.
  unfold slot, records_entry.
  destruct (process_trade config tk st p a w) as [r w']; simpl.
  destruct H as (t & _ & [H | (H0 & _ & _ & _ & pos & H)]).
  - left. rewrite H. reflexivity.
  - right. split; [exact H0 |]. exists pos. rewrite H. reflexivity.
Qed.

(** One closing attempt: the [try] of [close_positions] with its handler.
    It goes on to the next position only when no closing error was
    logged. *)
Lemma close_attempt_spec o msg (w : World) :
  match try_except
          (call (CPlaceOrder o) (place_order o) ;;;
           send_pushover_message config msg ;;;
           ret Continue)
          (fun e =>
             emit (LogError (TErrorClosing e)) ;;;
             send_pushover_message config (TErrorClosing e) ;;;
             ret Return) w with
  | (r, w') =>
      exists t, trace w' = (trace w ++ t)%list /\
                (r = Ok Continue -> Forall no_close_error t)
  end.
Proof.
  unfold try_except.
  match goal with
  | |- context [bind ?m ?k w] =>
      assert (E : emits no_close_error (bind m k)) by (effects; exact I);
      destruct (E w) as (t1 & E1 & F1);
      destruct (bind m k w) as [[f | e] w1]
  end; cbn [snd] in E1.
  - exists t1. split; [exact E1 | intros _; exact F1].
  - match goal with
    | |- context [bind ?m ?k w1] =>
        assert (E2 : emits (fun _ => True) (bind m k)) by (effects; exact I);
        destruct (E2 w1) as (t2 & E2' & _);
        assert (N : fst (bind m k w1) <> Ok Continue);
        [| destruct (bind m k w1) as [r2 w2]]
    end.
    { unfold bind, emit.
      match goal with
      | |- context [send_pushover_message config ?m ?w0] =>
          destruct (send_pushover_message config m w0) as [[[] | e5] w5]
      end; simpl; discriminate. }
    cbn [fst snd] in *. exists (t1 ++ t2)%list.
    rewrite E2', E1, app_assoc. split; [reflexivity |].
    intro Hr. destruct (N Hr).
Qed.

(** The loop of [close_positions] never touches the bot state, and when it
    runs to its end no closing order has failed. *)
Lemma close_loop_spec direction p body ps :
  body = (fun pos : CurrentPosition =>
    if closable direction pos then
      cancel_live_orders ;;;
      future <- call (CGetFuture (pos_symbol pos)) (get_future (pos_symbol pos)) ;;
      let closing_leg :=
        build_leg future (pos_quantity pos)
          (if String.eqb direction "Long" then SELL else BUY) in
      let closing_order :=
        {| time_in_force := DAY; order_type := MARKET; legs := [closing_leg];
           price := None; stop_trigger := None;
           price_effect := if String.eqb direction "Long" then CREDIT else DEBIT |} in
      try_except
        (call (CPlaceOrder closing_order) (place_order closing_order) ;;;
         send_pushover_message config
           (TClosing direction (pos_underlying_symbol pos) p (pos_quantity pos)) ;;;
         ret Continue)
        (fun e =>
           emit (LogError (TErrorClosing e)) ;;;
           send_pushover_message config (TErrorClosing e) ;;;
           ret Return)
    else ret Continue) ->
  forall w : World,
    match for_each ps body w with
    | (r, w') =>
        bot w' = bot w /\
        exists t, trace w' = (trace w ++ t)%list /\
                  (r = Ok Continue -> Forall no_close_error t)
    end.
Proof.
  intros Hbody.
  assert (Hk : forall pos, keeps (fun b => b) (body pos)).
  { intro pos. subst body. frame;
      first [apply keeps_cancel_live_orders | apply keeps_send_pushover_message]. }
  induction ps as [| pos ps IH]; intro w; simpl.
  - split; [reflexivity |]. exists []. rewrite app_nil_r.
    split; [reflexivity | constructor].
  - unfold bind at 1.
    pose proof (Hk pos w) as Kb. simpl in Kb.
    assert (Hb : match body pos w with
                 | (r, w1) =>
                     exists t, trace w1 = (trace w ++ t)%list /\
                               (r = Ok Continue -> Forall no_close_error t)
                 end).
    { subst body. cbv beta.
      destruct (closable direction pos).
      - unfold bind at 1.
        destruct (emits_cancel_live_orders no_close_error I (fun _ => I)
                    (fun _ => I) w) as [t1 [E1 F1]].
        destruct (cancel_live_orders w) as [[[] | e1] w1]; simpl in E1;
          [| simpl; exists t1; split; [exact E1 | discriminate]].
        unfold bind at 1.
        match goal with
        | |- context [call ?c ?op w1] =>
            destruct (emits_call no_close_error c op I w1) as [t2 [E2 F2]];
            destruct (call c op w1) as [[fu | e2] w2]
        end; simpl in E2;
          [| simpl; exists (t1 ++ t2)%list; rewrite E2, E1, app_assoc;
             split; [reflexivity | discriminate]].
        cbv zeta.
        match goal with
        | |- context [try_except ?m0 ?h0 w2] =>
            match m0 with
            | bind (call (CPlaceOrder ?o) _) (fun _ => bind (send_pushover_message _ ?msg) _) =>
                pose proof (close_attempt_spec o msg w2) as A3
            end;
            destruct (try_except m0 h0 w2) as [r3 w3]
        end.
        destruct A3 as (t3 & E3 & F3).
        exists (t1 ++ t2 ++ t3)%list.
        rewrite E3, E2, E1, <- !app_assoc.
        split; [reflexivity |]. intro Hr. rewrite !Forall_app.
        repeat split; [assumption | assumption | exact (F3 Hr)].
      - exists []. simpl. rewrite app_nil_r. split; [reflexivity | constructor]. }
    destruct (body pos w) as [[[|] | e] w1]; destruct Hb as [t1 [E1 F1]];
      simpl in *.
    + specialize (IH w1). destruct (for_each ps body w1) as [r w2].
      destruct IH as [Kl [t2 [E2 F2]]]. split; [congruence |].
      exists (t1 ++ t2)%list. rewrite E2, E1, app_assoc.
      split; [reflexivity |]. intro Hr. apply Forall_app; auto.
    + split; [exact Kb |]. exists t1. split; [exact E1 | discriminate].
    + split; [exact Kb |]. exists t1. split; [exact E1 | discriminate].
Qed.

(** [close_positions] either leaves the bot state as it is, or returns with
    the slot emptied and no failed closing order on the way. *)
Lemma close_positions_spec direction p (w : World) :
  match close_positions config direction p w with
  | (r, w') =>
      exists t, trace w' = (trace w ++ t)%list /\
        (bot w' = bot w
         \/ (r = Ok tt /\ is_live (bot w) = true /\
             bot w' = set_in_position (bot w) [] /\
             Forall no_close_error t))
  end.
Proof.
  unfold close_positions.
  unfold bind at 1. simpl.
  destruct (is_live (bot w)) eqn:Hlive;
    [| simpl; exists []; rewrite app_nil_r; auto].
  unfold bind at 1.
  pose proof (call_spec CGetPositions get_positions w) as C1.
  destruct (call CGetPositions get_positions w) as [[ps | e] w1];
    destruct C1 as (B1 & T1 & _);
    [| exists [Called CGetPositions]; auto].
  unfold bind at 1.
  match goal with
  | |- context [for_each ps ?body w1] =>
      pose proof (@close_loop_spec direction p body ps eq_refl w1) as L;
      destruct (for_each ps body w1) as [[[|] | e] w2]
  end; destruct L as (B2 & t2 & T2 & F2); simpl.
  - exists ([Called CGetPositions] ++ t2 ++ [Sleep 1])%list.
    rewrite T2, T1, <- !app_assoc. split; [reflexivity |].
    right. repeat split; try reflexivity.
    + rewrite B2, B1. reflexivity.
    + rewrite !Forall_app. repeat split; auto; repeat constructor.
  - exists ([Called CGetPositions] ++ t2)%list.
    rewrite T2, T1, <- !app_assoc. split; [reflexivity |].
    left. congruence.
  - exists ([Called CGetPositions] ++ t2)%list.
    rewrite T2, T1, <- !app_assoc. split; [reflexivity |].
    left. congruence.
Qed.

Lemma close_positions_slot direction p (w : World) :
  only_empties (slot w) (slot (snd (close_positions config direction p w))).
Proof.
  pose proof (close_positions_spec direction p w) as H.
  unfold only_empties, slot.
  destruct (close_positions config direction p w) as [r w']; simpl.
  destruct H as (t & _ & [H | (_ & _ & H & _)]); rewrite H; auto.
Qed.

Lemma reconcile_pass_bot (w : World) :
  match reconcile_pass w with
  | (r, w') => bot w' = bot w \/ bot w' = set_in_position (bot w) []
  end.
Proof.
  unfold reconcile_pass.
  unfold bind at 1. simpl. unfold bind at 1.
  destruct (nonempty (in_position (bot w)) && is_live (bot w)); simpl; auto.
  unfold bind at 1.
  pose proof (call_spec CGetPositions get_positions w) as C1.
  destruct (call CGetPositions get_positions w) as [[ps | e] w1];
    destruct C1 as (B1 & _ & _); simpl; [| left; congruence].
  destruct (nonempty ps); simpl; [left; congruence |].
  unfold bind at 1.
  pose proof (keeps_cancel_live_orders (fun b => b) w1) as B2.
  destruct (cancel_live_orders w1) as [[[] | e] w2]; simpl in *.
  - right. congruence.
  - left. congruence.
Qed.

Lemma reconcile_pass_slot (w : World) :
  only_empties (slot w) (slot (snd (reconcile_pass w))).
Proof.
  pose proof (reconcile_pass_bot w) as H.
  unfold only_empties, slot.
  destruct (reconcile_pass w) as [r w']; simpl.
  destruct H as [H | H]; rewrite H; auto.
Qed.

Lemma changes_keeps {A} (R : list Position -> list Position -> Prop) (m : M A) :
  (forall l, R l l) -> keeps in_position m -> changes R m.
Proof. intros HR K w. unfold slot. rewrite K. apply HR. Qed.

Lemma changes_after_keeps {A B} R (m : M A) (k : A -> M B) :
  (forall l, R l l) ->
  keeps in_position m -> (forall a, changes R (k a)) -> changes R (bind m k).
Proof.
  intros HR K Hk w. unfold bind. specialize (K w).
  destruct (m w) as [[a | e] w1]; simpl in K.
  - specialize (Hk a w1). unfold slot in *. rewrite K in Hk. exact Hk.
  - unfold slot. simpl. rewrite K. apply HR.
Qed.

Lemma changes_before_keeps {A B} R (m : M A) (k : A -> M B) :
  changes R m -> (forall a, keeps in_position (k a)) -> changes R (bind m k).
Proof.
  intros Hm K w. unfold bind. specialize (Hm w).
  destruct (m w) as [[a | e] w1]; simpl in Hm.
  - unfold slot in *. rewrite K. exact Hm.
  - exact Hm.
Qed.

Lemma changes_weaken {A} (R R' : list Position -> list Position -> Prop)
    (m : M A) :
  (forall l l', R l l' -> R' l l') -> changes R m -> changes R' m.
Proof. intros H Hm w. apply H, Hm. Qed.

Lemma slot_change_refl l : slot_change l l.
Proof. left; reflexivity. Qed.

Lemma only_empties_refl l : only_empties l l.
Proof. left; reflexivity. Qed.

Lemma changes_process_trade tk st p a :
  changes slot_change (process_trade config tk st p a).
Proof.
  intro w. destruct (process_trade_slot tk st p a w) as [H | H].
  - left; exact H.
  - right; right; exact H.
Qed.

Lemma changes_close_positions direction p :
  changes slot_change (close_positions config direction p).
Proof.
  intro w. destruct (close_positions_slot direction p w) as [H | H].
  - left; exact H.
  - right; left; exact H.
Qed.

Lemma keeps_append_timestamp tk t : keeps in_position (append_timestamp tk t).
Proof.
  unfold append_timestamp. frame.
  apply keeps_modify. intro b. unfold timestamps_set.
  destruct (jeq_str tk "ES"); [reflexivity |].
  destruct (jeq_str tk "NQ"); reflexivity.
Qed.

Lemma keeps_clean_old_timestamps t : keeps in_position (clean_old_timestamps t).
Proof. unfold clean_old_timestamps. apply keeps_modify. reflexivity. Qed.

Lemma keeps_clear_timestamps : keeps in_position clear_timestamps.
Proof. unfold clear_timestamps. apply keeps_modify. reflexivity. Qed.

Lemma changes_handle_bullish_alert tk kind st p now fs fe bypass :
  changes slot_change (handle_bullish_alert config tk kind st p now fs fe bypass).
Proof.
  unfold handle_bullish_alert.
  destruct (jeq_str kind "Long").
  - apply changes_after_keeps;
      [apply slot_change_refl | apply keeps_append_timestamp | intros _].
    apply changes_after_keeps;
      [apply slot_change_refl | apply keeps_clean_old_timestamps | intros _].
    apply changes_after_keeps;
      [apply slot_change_refl | apply keeps_get_bot | intros b].
    repeat match goal with
           | |- changes _ (if ?c then _ else _) => destruct c
           end;
      first [apply changes_process_trade
            | apply changes_keeps; [apply slot_change_refl | apply keeps_ret]].
  - apply changes_after_keeps;
      [apply slot_change_refl | apply keeps_get_bot | intros b].
    destruct (_ && _);
      first [apply changes_close_positions
            | apply changes_keeps; [apply slot_change_refl | apply keeps_ret]].
Qed.

Lemma changes_handle_bearish_alert tk kind st p now fs fe bypass :
  changes slot_change (handle_bearish_alert config tk kind st p now fs fe bypass).
Proof.
  unfold handle_bearish_alert.
  destruct (jeq_str kind "Short").
  - apply changes_after_keeps;
      [apply slot_change_refl | apply keeps_append_timestamp | intros _].
    apply changes_after_keeps;
      [apply slot_change_refl | apply keeps_clean_old_timestamps | intros _].
    apply changes_after_keeps;
      [apply slot_change_refl | apply keeps_get_bot | intros b].
    repeat match goal with
           | |- changes _ (if ?c then _ else _) => destruct c
           end;
      first [apply changes_process_trade
            | apply changes_keeps; [apply slot_change_refl | apply keeps_ret]].
  - apply changes_after_keeps;
      [apply slot_change_refl | apply keeps_get_bot | intros b].
    destruct (_ && _);
      first [apply changes_close_positions
            | apply changes_keeps; [apply slot_change_refl | apply keeps_ret]].
Qed.

Lemma keeps_request_json {T} (g : Bot -> T) r : keeps g (request_json r).
Proof. destruct r; simpl; auto with frame. Qed.

Lemma changes_handle_webhook r : changes slot_change (handle_webhook config r).
Proof.
  unfold handle_webhook.
  apply changes_after_keeps;
    [apply slot_change_refl | apply keeps_request_json | intros data].
  apply changes_after_keeps;
    [apply slot_change_refl | apply keeps_get_bot | intros b].
  apply changes_before_keeps; [| intros; apply keeps_ret].
  destruct (_ && _);
    [| apply changes_keeps; [apply slot_change_refl | apply keeps_ret]].
  apply changes_after_keeps;
    [apply slot_change_refl | apply keeps_lift | intros price].
  apply changes_after_keeps;
    [apply slot_change_refl | apply keeps_call | intros now].
  destruct (is_bullish b);
    [apply changes_handle_bullish_alert | apply changes_handle_bearish_alert].
Qed.

Lemma changes_handle_switch_bias r :
  changes only_empties (handle_switch_bias config r).
Proof.
  unfold handle_switch_bias.
  apply changes_after_keeps;
    [apply only_empties_refl | apply keeps_request_json | intros data].
  destruct (jeq_str _ _);
    [| apply changes_keeps; [apply only_empties_refl | apply keeps_ret]].
  apply changes_after_keeps;
    [apply only_empties_refl | apply keeps_get_bot | intros b].
  apply changes_before_keeps.
  - intro w. apply close_positions_slot.
  - intros _. frame.
Qed.

Lemma keeps_handle_switch_live_status r :
  keeps in_position (handle_switch_live_status config r).
Proof. unfold handle_switch_live_status. frame; apply keeps_request_json. Qed.

Lemma step_slot_change ev (w : World) :
  slot_change (slot w) (slot (step config ev w)).
Proof.
  destruct ev as [r | r | r |]; simpl.
  - apply changes_handle_webhook.
  - destruct (changes_handle_switch_bias r w) as [H | H];
      [left; exact H | right; left; exact H].
  - left. apply keeps_handle_switch_live_status.
  - destruct (reconcile_pass_slot w) as [H | H];
      [left; exact H | right; left; exact H].
Qed.

Lemma slot_change_bound old new :
  slot_change old new -> (List.length old <= 1)%nat -> (List.length new <= 1)%nat.
Proof.
  intros [H | [H | [_ [p H]]]] Hold; subst; simpl; auto.
Qed.

Lemma run_slot_bound evs (w : World) :
  (List.length (slot w) <= 1)%nat -> (List.length (slot (run config evs w)) <= 1)%nat.
Proof.
  revert w. induction evs as [| ev evs IH]; intros w Hw; simpl.
  - exact Hw.
  - apply IH. eapply slot_change_bound; [apply step_slot_change | exact Hw].
Qed.

(** C1. Whatever webhook alerts, bias and live toggles and reconciliation
    passes arrive, and whatever the broker answers, the slot [in_position]
    holds at most one position after every run from the initial world; each
    event leaves the slot as it was, empties it, or records one entry into
    the empty slot; [process_trade] only ever records into an empty slot;
    and [close_positions], a bias switch and a reconciliation pass only
    ever empty it. *)
Theorem single_position_discipline :
  (forall evs live bullish sym_es sym_nq x,
      (List.length (slot (run config evs
                       (initial_world live bullish sym_es sym_nq x))) <= 1)%nat)
  /\ (forall ev (w : World), slot_change (slot w) (slot (step config ev w)))
  /\ (forall tk st p a (w : World),
        slot (snd (process_trade config tk st p a w)) = slot w
        \/ records_entry (slot w) (slot (snd (process_trade config tk st p a w))))
  /\ (forall direction p (w : World),
        only_empties (slot w) (slot (snd (close_positions config direction p w))))
  /\ (forall r (w : World),
        only_empties (slot w) (slot (step config (SwitchBias r) w)))
  /\ (forall w : World,
        only_empties (slot w) (slot (step config Reconcile w))).
Proof.
  split; [| split; [| split; [| split; [| split]]]].
  - intros. apply run_slot_bound. simpl. auto.
  - apply step_slot_change.
  - apply process_trade_slot.
  - apply close_positions_slot.
  - intros r w. apply changes_handle_switch_bias.
  - intros w. apply reconcile_pass_slot.
Qed.

End Slot.

(** ** The correlation gate *)

Section Gate.

Context {X : External}.
Variable config : Config.

Lemma purge_In now l t : In t (purge now l) <-> In t l /\ younger_than_90min now t.
Proof.
  unfold purge. rewrite filter_In.
  unfold dt_lt, dt_minus, instant, younger_than_90min, instant; simpl.
  rewrite Z.ltb_lt. intuition lia.
Qed.

Lemma nonempty_purge now l :
  nonempty (purge now l) = true <-> exists t, In t l /\ younger_than_90min now t.
Proof.
  split.
  - destruct (purge now l) as [| t r] eqn:E; [discriminate |].
    intros _. exists t. apply purge_In. rewrite E. left; reflexivity.
  - intros [t Ht]. apply purge_In in Ht.
    destruct (purge now l); [destruct Ht | reflexivity].
Qed.

Lemma in_window_blackout now :
  in_window now (dt_replace_hm now 8 30) (dt_replace_hm now 8 35) = true
  <-> blackout now.
Proof.
  unfold in_window, dt_le, dt_replace_hm, instant, blackout, time_of_day; simpl.
  rewrite andb_true_iff, !Z.leb_le.
  set (m := wall now mod usec_per_day). lia.
Qed.

(** The boolean the handlers compute is the rule of the gate. *)
Lemma gate_decision b tk now bypass :
  (nonempty (other_log (recorded b tk now) tk)
   && negb (in_window now (dt_replace_hm now 8 30) (dt_replace_hm now 8 35))
   || truthy bypass) = true
  <-> actionable b tk now bypass.
Proof.
  unfold actionable.
  assert (Ho : other_log (recorded b tk now) tk = purge now (other_log b tk)).
  { unfold other_log, recorded. destruct (String.eqb tk "ES"); reflexivity. }
  rewrite Ho, orb_true_iff, andb_true_iff, negb_true_iff.
  rewrite nonempty_purge, <- not_true_iff_false, in_window_blackout.
  unfold corroborated. tauto.
Qed.

Lemma handle_bullish_long tk st p now fs fe bypass (w : World) :
  tk = "ES" \/ tk = "NQ" ->
  handle_bullish_alert config (JStr tk) (JStr "Long") st p now fs fe bypass w
  = gate_then_trade config tk st p now fs fe bypass BUY w.
Proof.
  intros [-> | ->]; unfold gate_then_trade; cbv zeta;
    unfold handle_bullish_alert, append_timestamp, clean_old_timestamps, bind,
      get_bot, modify_bot, lookup, timestamps_get, timestamps_set, with_bot,
      recorded, other_log, purge;
    cbn -[process_trade];
    destruct (_ || _); reflexivity.
Qed.

Lemma handle_bearish_short tk st p now fs fe bypass (w : World) :
  tk = "ES" \/ tk = "NQ" ->
  handle_bearish_alert config (JStr tk) (JStr "Short") st p now fs fe bypass w
  = gate_then_trade config tk st p now fs fe bypass SELL w.
Proof.
  intros [-> | ->]; unfold gate_then_trade; cbv zeta;
    unfold handle_bearish_alert, append_timestamp, clean_old_timestamps, bind,
      get_bot, modify_bot, lookup, timestamps_get, timestamps_set, with_bot,
      recorded, other_log, purge;
    cbn -[process_trade];
    destruct (_ || _); reflexivity.
Qed.

Lemma recorded_own_log b tk now :
  tk = "ES" \/ tk = "NQ" ->
  own_log (recorded b tk now) tk = purge now (own_log b tk ++ [now])%list.
Proof. intros [-> | ->]; reflexivity. Qed.

Lemma recorded_other_log b tk now :
  other_log (recorded b tk now) tk = purge now (other_log b tk).
Proof. unfold other_log, recorded. destruct (String.eqb tk "ES"); reflexivity. Qed.

(** The handlers on an alert in the direction of the bias: the purge, and
    the hand-over to [process_trade] exactly under the rule of the gate. *)
Lemma gate_rule tk st p now bypass (w : World) :
  tk = "ES" \/ tk = "NQ" ->
  let fs := dt_replace_hm now 8 30 in
  let fe := dt_replace_hm now 8 35 in
  let w1 := with_bot w (recorded (bot w) tk now) in
  (forall t, In t (own_log (bot w1) tk) <->
             (In t (own_log (bot w) tk) \/ t = now) /\ younger_than_90min now t)
  /\ (forall t, In t (other_log (bot w1) tk) <->
                In t (other_log (bot w) tk) /\ younger_than_90min now t)
  /\ (actionable (bot w) tk now bypass ->
        handle_bullish_alert config (JStr tk) (JStr "Long") st p now fs fe bypass w
          = process_trade config tk st p BUY w1
        /\ handle_bearish_alert config (JStr tk) (JStr "Short") st p now fs fe bypass w
          = process_trade config tk st p SELL w1)
  /\ (~ actionable (bot w) tk now bypass ->
        handle_bullish_alert config (JStr tk) (JStr "Long") st p now fs fe bypass w
          = (Ok tt, w1)
        /\ handle_bearish_alert config (JStr tk) (JStr "Short") st p now fs fe bypass w
          = (Ok tt, w1)).
Proof.
  intros Htk fs fe w1.
  split; [| split; [| split]].
  - intro t. unfold w1. simpl. rewrite (recorded_own_log _ _ Htk), purge_In, in_app_iff.
    simpl. intuition auto.
  - intro t. unfold w1. simpl. rewrite recorded_other_log, purge_In. tauto.
  - intro Ha. apply gate_decision in Ha.
    rewrite (handle_bullish_long _ _ _ _ _ _ _ Htk),
            (handle_bearish_short _ _ _ _ _ _ _ Htk).
    unfold gate_then_trade. cbv zeta. fold w1.
    change (bot w1) with (recorded (bot w) tk now).
    unfold fs, fe. rewrite Ha. split; reflexivity.
  - intro Ha. rewrite <- gate_decision, not_true_iff_false in Ha.
    rewrite (handle_bullish_long _ _ _ _ _ _ _ Htk),
            (handle_bearish_short _ _ _ _ _ _ _ Htk).
    unfold gate_then_trade. cbv zeta. fold w1.
    change (bot w1) with (recorded (bot w) tk now).
    unfold fs, fe. rewrite Ha. split; reflexivity.
Qed.

(** C2. For an alert on a tracked instrument in the direction of the bias
    (Long under the bullish handler, Short under the bearish one), both
    logs are first purged of the timestamps that are 90 minutes old or
    older; then the handler calls [process_trade] if and only if [bypass]
    is truthy, or the other instrument has a timestamp younger than 90
    minutes and the local time of day is not within 08:30 and 08:35, both
    ends included.  Otherwise it returns having made no call at all. *)
Theorem gate_actionable_iff tk st p now bypass (w : World) :
  tk = "ES" \/ tk = "NQ" ->
  let fs := dt_replace_hm now 8 30 in
  let fe := dt_replace_hm now 8 35 in
  let w1 := with_bot w (recorded (bot w) tk now) in
  (forall t, In t (own_log (bot w1) tk) <->
             (In t (own_log (bot w) tk) \/ t = now) /\ younger_than_90min now t)
  /\ (forall t, In t (other_log (bot w1) tk) <->
                In t (other_log (bot w) tk) /\ younger_than_90min now t)
  /\ (actionable (bot w) tk now bypass ->
        handle_bullish_alert config (JStr tk) (JStr "Long") st p now fs fe bypass w
          = process_trade config tk st p BUY w1
        /\ handle_bearish_alert config (JStr tk) (JStr "Short") st p now fs fe bypass w
          = process_trade config tk st p SELL w1)
  /\ (~ actionable (bot w) tk now bypass ->
        handle_bullish_alert config (JStr tk) (JStr "Long") st p now fs fe bypass w
          = (Ok tt, w1)
        /\ handle_bearish_alert config (JStr tk) (JStr "Short") st p now fs fe bypass w
          = (Ok tt, w1)).
Proof. exact (gate_rule st p now bypass w). Qed.

Lemma timedelta_90min_pos : 0 < timedelta 1 30.
Proof. reflexivity. Qed.

Lemma not_actionable_empty b tk now bypass :
  other_log b tk = [] -> truthy bypass = false -> ~ actionable b tk now bypass.
Proof.
  intros Ho Hb [H | [[t [Hin _]] _]].
  - congruence.
  - rewrite Ho in Hin. destruct Hin.
Qed.

(** C8, as the code has it.  The alert's own timestamp is in its log when
    the decision is taken, whatever the decision; the decision looks at the
    other instrument's log only.  So on an empty history the first alert is
    never actionable without bypass; but an alert on the other instrument
    that follows it, even at the same instant, finds the first timestamp on
    record and is handed to [process_trade] (outside the blackout). *)
Theorem own_timestamp_recorded_before_check tkA tkB st p now bypass (w : World) :
  (tkA = "ES" /\ tkB = "NQ") \/ (tkA = "NQ" /\ tkB = "ES") ->
  let fs := dt_replace_hm now 8 30 in
  let fe := dt_replace_hm now 8 35 in
  let w1 := with_bot w (recorded (bot w) tkA now) in
  In now (own_log (bot w1) tkA)
  /\ (forall b' : Bot,
        other_log b' tkA = other_log (bot w) tkA ->
        (actionable b' tkA now bypass <-> actionable (bot w) tkA now bypass))
  /\ (timestamps_ES (bot w) = [] -> timestamps_NQ (bot w) = [] ->
      truthy bypass = false ->
        handle_bullish_alert config (JStr tkA) (JStr "Long") st p now fs fe bypass w
          = (Ok tt, w1)
        /\ handle_bearish_alert config (JStr tkA) (JStr "Short") st p now fs fe bypass w
          = (Ok tt, w1)
        /\ forall now' st' p' bypass',
             instant now' - instant now < timedelta 1 30 ->
             ~ blackout now' ->
             let w2 := with_bot w1 (recorded (bot w1) tkB now') in
             handle_bullish_alert config (JStr tkB) (JStr "Long") st' p' now'
               (dt_replace_hm now' 8 30) (dt_replace_hm now' 8 35) bypass' w1
               = process_trade config tkB st' p' BUY w2
             /\ handle_bearish_alert config (JStr tkB) (JStr "Short") st' p' now'
               (dt_replace_hm now' 8 30) (dt_replace_hm now' 8 35) bypass' w1
               = process_trade config tkB st' p' SELL w2).
Proof.
  intros Htk fs fe w1.
  assert (HA : tkA = "ES" \/ tkA = "NQ") by (destruct Htk as [[? _] | [? _]]; auto).
  assert (HB : tkB = "ES" \/ tkB = "NQ") by (destruct Htk as [[_ ?] | [_ ?]]; auto).
  assert (Hown : In now (own_log (bot w1) tkA)).
  { apply (gate_rule st p now bypass w HA). split.
    - right; reflexivity.
    - unfold younger_than_90min. pose proof timedelta_90min_pos. lia. }
  split; [exact Hown |]. split.
  - intros b' Hb'. unfold actionable, corroborated. rewrite Hb'. tauto.
  - intros Hes Hnq Hby.
    assert (Hna : ~ actionable (bot w) tkA now bypass).
    { apply not_actionable_empty; [| exact Hby].
      unfold other_log. destruct (String.eqb tkA "ES"); assumption. }
    destruct (gate_rule st p now bypass w HA) as (_ & _ & _ & Hno).
    destruct (Hno Hna) as [E1 E2].
    split; [exact E1 |]. split; [exact E2 |].
    intros now' st' p' bypass' Hyoung Hblack w2.
    assert (Hact : actionable (bot w1) tkB now' bypass').
    { right. split; [| exact Hblack]. exists now. split; [| exact Hyoung].
      replace (other_log (bot w1) tkB) with (own_log (bot w1) tkA); [exact Hown |].
      unfold own_log, other_log.
      destruct Htk as [[-> ->] | [-> ->]]; reflexivity. }
    destruct (gate_rule st' p' now' bypass' w1 HB) as (_ & _ & Hyes & _).
    exact (Hyes Hact).
Qed.

End Gate.

(** ** Decimal arithmetic *)

Lemma ndigits_fuel_nonneg fuel n : 0 <= ndigits_fuel fuel n.
Proof.
  revert n. induction fuel as [| f IH]; intro n; cbn [ndigits_fuel].
  - lia.
  - destruct (n <? 10); [lia |]. specialize (IH (n / 10)). lia.
Qed.

Lemma ndigits_fuel_pos fuel n : 1 <= ndigits_fuel (S fuel) n.
Proof.
  cbn [ndigits_fuel]. destruct (n <? 10); [lia |].
  pose proof (ndigits_fuel_nonneg fuel (n / 10)). lia.
Qed.

(** With enough fuel the count is the length of the decimal numeral. *)
Lemma ndigits_fuel_spec fuel n :
  0 < n -> n < 2 ^ Z.of_nat fuel ->
  10 ^ (ndigits_fuel fuel n - 1) <= n < 10 ^ ndigits_fuel fuel n.
Proof.
  revert n. induction fuel as [| f IH]; intros n Hpos Hlt.
  - simpl in Hlt. lia.
  - cbn [ndigits_fuel]. destruct (Z.ltb_spec n 10) as [Hs | Hb].
    + simpl. lia.
    + assert (Hq : 0 < n / 10) by (apply Z.div_str_pos; lia).
      assert (Hf : n / 10 < 2 ^ Z.of_nat f).
      { rewrite Nat2Z.inj_succ, Z.pow_succ_r in Hlt by lia.
        apply Z.div_lt_upper_bound; lia. }
      specialize (IH (n / 10) Hq Hf).
      assert (Hd : 1 <= ndigits_fuel f (n / 10)).
      { destruct f; [simpl in Hf; lia | apply ndigits_fuel_pos]. }
      replace (1 + ndigits_fuel f (n / 10) - 1) with
        (Z.succ (ndigits_fuel f (n / 10) - 1)) by lia.
      replace (1 + ndigits_fuel f (n / 10)) with
        (Z.succ (ndigits_fuel f (n / 10))) by lia.
      rewrite !Z.pow_succ_r by lia.
      pose proof (Z.div_mod n 10 ltac:(lia)) as Hdm.
      pose proof (Z.mod_pos_bound n 10 ltac:(lia)) as Hm.
      lia.
Qed.

Lemma ndigits_spec n :
  0 < n -> 10 ^ (ndigits n - 1) <= n < 10 ^ ndigits n.
Proof.
  intro Hpos. unfold ndigits. apply ndigits_fuel_spec; [exact Hpos |].
  rewrite Nat2Z.inj_succ, Z2Nat.id by apply Z.log2_nonneg.
  apply Z.log2_spec. exact Hpos.
Qed.

Lemma ndigits_le n k : 0 < n -> n < 10 ^ k -> ndigits n <= k.
Proof.
  intros Hpos Hlt.
  destruct (Z.le_gt_cases (ndigits n) k) as [H | H]; [exact H | exfalso].
  pose proof (ndigits_spec Hpos) as [Hlo _].
  assert (0 <= k).
  { destruct (Z.le_gt_cases 0 k); [assumption |].
    rewrite Z.pow_neg_r in Hlt by lia. lia. }
  assert (10 ^ k <= 10 ^ (ndigits n - 1)) by (apply Z.pow_le_mono_r; lia).
  lia.
Qed.

Lemma dec_fix_fits a : fits a -> dec_fix a = Ok a.
Proof.
  destruct a as [c e]. unfold fits, dec_fix. cbn [dcoef dexp].
  intros [Hc [Hlo Hhi]].
  destruct (Z.eqb_spec c 0) as [-> | Hnz].
  - f_equal. f_equal. unfold Etiny, Emax, Emin, prec in *. lia.
  - assert (Hd : ndigits (Z.abs c) <= prec) by (apply ndigits_le; [lia | exact Hc]).
    assert (Hd1 : 1 <= ndigits (Z.abs c)).
    { unfold ndigits. apply ndigits_fuel_pos. }
    destruct (Z.gtb_spec (ndigits (Z.abs c) + e - prec) Etop) as [H | H].
    + unfold Etop, Emax, prec in *. lia.
    + destruct (Z.ltb_spec e (Z.max (ndigits (Z.abs c) + e - prec) Etiny)) as [H' | H'].
      * lia.
      * reflexivity.
Qed.

Lemma ten_power_val (c k e : Z) :
  0 <= k ->
  (inject_Z (c * 10 ^ k) * Qpower (inject_Z 10) e
   == inject_Z c * Qpower (inject_Z 10) (k + e))%Q.
Proof.
  intro Hk.
  rewrite inject_Z_mult, Zpower_Qpower by exact Hk.
  rewrite Qpower_plus by discriminate.
  ring.
Qed.

(** [dec_add_exact] is addition of the denoted rationals. *)
Lemma dec_val_add_exact a b :
  (dec_val (dec_add_exact a b) == dec_val a + dec_val b)%Q.
Proof.
  unfold dec_val, dec_add_exact. simpl.
  set (m := Z.min (dexp a) (dexp b)).
  rewrite inject_Z_plus, Qmult_plus_distr_l.
  rewrite !ten_power_val by lia.
  replace (dexp a - m + m) with (dexp a) by lia.
  replace (dexp b - m + m) with (dexp b) by lia.
  reflexivity.
Qed.

Lemma dec_val_of_int n : (dec_val (dec_of_int n) == inject_Z n)%Q.
Proof. unfold dec_val, dec_of_int. simpl. ring. Qed.

Lemma dec_val_neg a : (dec_val (dec_neg a) == - dec_val a)%Q.
Proof.
  unfold dec_val, dec_neg. simpl. rewrite inject_Z_opp. ring.
Qed.

(** ** Bracket prices *)

Lemma jeq_str_eq v s : jeq_str v s = true -> v = JStr s.
Proof.
  destruct v; simpl; try discriminate.
  intro H. apply String.eqb_eq in H. congruence.
Qed.

Lemma profit_multipliers_cases st m :
  profit_multipliers st = Some m ->
  (st = JStr "Narrow" /\ m = 3) \/ (st = JStr "Medium" /\ m = 5)
  \/ (st = JStr "Wide" /\ m = 7).
Proof.
  unfold profit_multipliers.
  destruct (jeq_str st "Narrow") eqn:E1;
    [intro H; left; split; [apply jeq_str_eq, E1 | congruence] |].
  destruct (jeq_str st "Medium") eqn:E2;
    [intro H; right; left; split; [apply jeq_str_eq, E2 | congruence] |].
  destruct (jeq_str st "Wide") eqn:E3;
    [intro H; right; right; split; [apply jeq_str_eq, E3 | congruence] |].
  discriminate.
Qed.



(** ** Entry, close and reconciliation *)

(** Runs the monadic plumbing of the goal as far as it is determined. *)
Ltac run_m :=
  cbn [bind ret raise lookup lift get_bot modify_bot emit sleep call try_except
       nonempty negb andb orb fst snd bot ext trace].

Section Lifecycle.

Context {X : External}.
Variable config : Config.

Lemma bind_call_ok {A B} c (op : ext_state -> result A * ext_state)
    (k : A -> M B) (w : World) a x' :
  op (ext w) = (Ok a, x') ->
  bind (call c op) k w
  = k a {| bot := bot w; ext := x'; trace := (trace w ++ [Called c])%list |}.
Proof. intro H. unfold bind, call. rewrite H. reflexivity. Qed.

Lemma bind_ret {A B} (a : A) (k : A -> M B) (w : World) :
  bind (ret a) k w = k a w.
Proof. reflexivity. Qed.

Lemma bind_call_raise {A B} c (op : ext_state -> result A * ext_state)
    (k : A -> M B) (w : World) e x' :
  op (ext w) = (Raise e, x') ->
  bind (call c op) k w
  = (Raise e, {| bot := bot w; ext := x'; trace := (trace w ++ [Called c])%list |}).
Proof. intro H. unfold bind, call. rewrite H. reflexivity. Qed.

(** [process_trade] does nothing unless the slot is empty and live mode on. *)
Lemma process_trade_guard tk st p a (w : World) :
  in_position (bot w) <> [] \/ is_live (bot w) = false ->
  process_trade config tk st p a w = (Ok tt, w).
Proof.
  intros H. unfold process_trade, bind, get_bot.
  destruct H as [H | H].
  - destruct (in_position (bot w)); [congruence | reflexivity].
  - rewrite H, andb_false_r. reflexivity.
Qed.

Lemma process_trade_success tk st p a (w : World)
    key d m sz sym name f x1 tp sl x2 code x3 :
  in_position (bot w) = [] -> is_live (bot w) = true ->
  stop_type_known st = true -> jupper st = Some key ->
  config_int config (key ++ "_" ++ tk) = Some d ->
  profit_multipliers st = Some m ->
  config_int config ("SIZE_" ++ tk) = Some sz ->
  globals_symbol (bot w) ("symbol_" ++ tk) = Some sym ->
  config_str config ("TICKER_" ++ tk) = Some name ->
  get_future sym (ext w) = (Ok f, x1) ->
  take_profit p (d * m) a = Ok tp ->
  stop_loss p d a = Ok sl ->
  place_complex_order (otoco f sz a tp sl) x1 = (Ok tt, x2) ->
  pushover_post (TEntering a name p sz d (d * m)) x2 = (Ok code, x3) ->
  process_trade config tk st p a w
  = (Ok tt,
     entered config w x2 (otoco f sz a tp sl) sym (TEntering a name p sz d (d * m))
       {| ticker := tk; symbol_ticker := sym; current_price := p;
          stop_size := d; profit_size := d * m; order_action := a;
          size := sz |}).
Proof.
  intros Hslot Hlive Hknown Hkey Hd Hm Hsz Hsym Hname Hf Htp Hsl Hplace Hpush.
  unfold process_trade, entered.
  run_m. rewrite Hslot, Hlive, Hknown. run_m.
  rewrite Hkey. run_m. rewrite Hd. run_m. rewrite Hm. run_m.
  rewrite Hsz. run_m. rewrite Hsym. run_m.
  erewrite bind_call_ok by (cbn [ext]; exact Hf). run_m.
  rewrite Htp. run_m. rewrite Hsl. run_m.
  unfold try_except, submit_entry.
  erewrite bind_call_ok by (cbn [ext]; exact Hplace). run_m. rewrite Hname. run_m.
  unfold bind at 1. rewrite <- app_assoc. cbn [app].
  match goal with
  | |- context [send_pushover_message config ?msg ?w2] =>
      pose proof (@send_pushover_message_ok _ config msg w2 code x3 Hpush) as Hok;
      pose proof (keeps_send_pushover_message config (fun b => b) msg w2) as Hk;
      destruct (send_pushover_message config msg w2) as [r3 w3]
  end.
  cbn [fst snd bot] in Hok, Hk. subst r3. run_m.
  rewrite Hk, Hsym. run_m. unfold clear_timestamps. run_m.
  rewrite Hk. unfold set_in_position, set_timestamps. cbn.
  rewrite Hslot. reflexivity.
Qed.

(** A refused entry order: the error is logged and pushed, nothing else. *)
Lemma process_trade_refused tk st p a (w : World)
    key d m sz sym f x1 tp sl e x2 :
  in_position (bot w) = [] -> is_live (bot w) = true ->
  stop_type_known st = true -> jupper st = Some key ->
  config_int config (key ++ "_" ++ tk) = Some d ->
  profit_multipliers st = Some m ->
  config_int config ("SIZE_" ++ tk) = Some sz ->
  globals_symbol (bot w) ("symbol_" ++ tk) = Some sym ->
  get_future sym (ext w) = (Ok f, x1) ->
  take_profit p (d * m) a = Ok tp ->
  stop_loss p d a = Ok sl ->
  place_complex_order (otoco f sz a tp sl) x1 = (Raise e, x2) ->
  process_trade config tk st p a w
  = send_pushover_message config (TErrorOpening e)
      {| bot := bot w; ext := x2;
         trace := (trace w ++ [Called (CGetFuture sym);
                               Called (CPlaceComplexOrder (otoco f sz a tp sl));
                               LogError (TErrorOpening e)])%list |}.
Proof.
  intros Hslot Hlive Hknown Hkey Hd Hm Hsz Hsym Hf Htp Hsl Hplace.
  unfold process_trade.
  run_m. rewrite Hslot, Hlive, Hknown. run_m.
  rewrite Hkey. run_m. rewrite Hd. run_m. rewrite Hm. run_m.
  rewrite Hsz. run_m. rewrite Hsym. run_m.
  erewrite bind_call_ok by (cbn [ext]; exact Hf). run_m.
  rewrite Htp. run_m. rewrite Hsl. run_m.
  unfold try_except, submit_entry.
  erewrite bind_call_raise by (cbn [ext]; exact Hplace).
  unfold bind, emit. cbn [bot ext trace].
  rewrite <- !app_assoc. reflexivity.
Qed.



(** *** Reconciliation *)

Lemma cancel_loop (os : list PlacedOrder) :
  (forall id x, fst (delete_order id x) = Ok tt) ->
  forall w : World,
    for_each os (fun working_order =>
      if (match po_order_type working_order with
          | STOP | LIMIT => true
          | _ => false
          end)
         && (match po_status working_order with LIVE => true | _ => false end)
      then
        call (CDeleteOrder (po_id working_order)) (delete_order (po_id working_order)) ;;;
        emit (LogInfo (TCancelled (po_id working_order))) ;;;
        ret Continue
      else ret Continue) w
    = (Ok Continue,
       {| bot := bot w;
          ext := after_cancellations os (ext w);
          trace := (trace w ++ cancellations os)%list |}).
Proof.
  intros Hdel. unfold cancellations, after_cancellations.
  induction os as [| o os IH]; intro w.
  - simpl. rewrite app_nil_r. destruct w; reflexivity.
  - cbn [for_each filter]. fold (working o).
    destruct (working o) eqn:Hw.
    + specialize (Hdel (po_id o) (ext w)).
      destruct (delete_order (po_id o) (ext w)) as [r x'] eqn:Hd.
      cbn [fst] in Hdel. subst r.
      unfold bind at 1. erewrite bind_call_ok by exact Hd.
      unfold bind at 1, emit at 1, ret at 1. cbn [bot ext trace].
      rewrite IH. cbn [bot ext trace flat_map fold_left].
      rewrite Hd. cbn [snd]. rewrite <- !app_assoc. reflexivity.
    + unfold bind at 1, ret at 1. rewrite IH. reflexivity.
Qed.

Lemma cancel_live_orders_spec (w : World) os x1 :
  is_live (bot w) = true ->
  get_live_orders (ext w) = (Ok os, x1) ->
  (forall id x, fst (delete_order id x) = Ok tt) ->
  cancel_live_orders w
  = (Ok tt,
     {| bot := bot w;
        ext := after_cancellations os x1;
        trace := (trace w ++ Called CGetLiveOrders :: cancellations os)%list |}).
Proof.
  intros Hlive Hget Hdel. unfold cancel_live_orders.
  run_m. rewrite Hlive.
  erewrite bind_call_ok by exact Hget.
  unfold bind at 1. rewrite (cancel_loop os Hdel).
  unfold ret. cbn [bot ext trace]. rewrite <- app_assoc. reflexivity.
Qed.

(** A pass with no tracked position does nothing but wait. *)
Lemma reconcile_pass_flat (w : World) :
  in_position (bot w) = [] ->
  reconcile_pass w
  = (Ok tt, {| bot := bot w; ext := ext w;
               trace := (trace w ++ [Sleep 15])%list |}).
Proof.
  intro H. unfold reconcile_pass. run_m. rewrite H. run_m. reflexivity.
Qed.

Lemma reconcile_loop_flat n (w : World) :
  in_position (bot w) = [] ->
  reconcile_loop n w
  = (Ok tt, {| bot := bot w; ext := ext w;
               trace := (trace w ++ repeat (Sleep 15) n)%list |}).
Proof.
  revert w. induction n as [| n IH]; intros w H.
  - simpl. rewrite app_nil_r. destruct w; reflexivity.
  - cbn [reconcile_loop]. unfold bind. rewrite (reconcile_pass_flat w H).
    rewrite IH by exact H. cbn [bot ext trace repeat].
    rewrite <- app_assoc. reflexivity.
Qed.

(** C7, as the code has it.  In a reconciliation pass with a tracked
    position, live mode on and a broker that reports no open position,
    when the query of the working orders and every cancellation succeed,
    every live stop or limit order is cancelled, in the order the broker
    lists them, and the slot is emptied.  Passes that follow then only
    wait: they make no call and change nothing. *)
Theorem reconcile_clears_once (w : World) x1 os x2 :
  in_position (bot w) <> [] ->
  is_live (bot w) = true ->
  get_positions (ext w) = (Ok [], x1) ->
  get_live_orders x1 = (Ok os, x2) ->
  (forall id x, fst (delete_order id x) = Ok tt) ->
  let w' := {| bot := set_in_position (bot w) [];
               ext := after_cancellations os x2;
               trace := (trace w ++ [Called CGetPositions; Called CGetLiveOrders]
                         ++ cancellations os ++ [Sleep 1; Sleep 15])%list |} in
  reconcile_pass w = (Ok tt, w')
  /\ in_position (bot w') = []
  /\ (forall n,
        reconcile_loop n w'
        = (Ok tt, {| bot := bot w'; ext := ext w';
                     trace := (trace w' ++ repeat (Sleep 15) n)%list |})).
Proof.
  intros Hslot Hlive Hpos Hord Hdel w'.
  split; [| split; [reflexivity | intro n; apply reconcile_loop_flat; reflexivity]].
  unfold reconcile_pass. run_m.
  destruct (in_position (bot w)) as [| q l] eqn:Hs; [congruence |].
  rewrite Hlive. run_m.
  unfold bind at 1.
  erewrite bind_call_ok by exact Hpos. run_m.
  unfold bind at 1.
  erewrite cancel_live_orders_spec; [| exact Hlive | exact Hord | exact Hdel].
  unfold w', sleep, emit, bind, modify_bot. cbn [bot ext trace].
  rewrite <- !app_assoc. reflexivity.
Qed.

(** *** Close with nothing to close *)

Lemma for_each_skip {A} (l : list A) (body : A -> M flow) (w : World) :
  (forall a, In a l -> body a w = (Ok Continue, w)) ->
  for_each l body w = (Ok Continue, w).
Proof.
  induction l as [| a l IH]; intro H; simpl.
  - reflexivity.
  - unfold bind. rewrite (H a) by (left; reflexivity).
    apply IH. intros a' Ha'. apply H. right; exact Ha'.
Qed.

(** C10. With live mode on, when no position of the broker's list matches
    the direction as a future of positive quantity, [close_positions]
    still empties the slot: it queries the positions, sleeps one second and
    clears [in_position], without cancelling or submitting any order. *)
Theorem close_without_match_clears direction p (w : World) ps x1 :
  is_live (bot w) = true ->
  get_positions (ext w) = (Ok ps, x1) ->
  (forall pos, In pos ps -> closable direction pos = false) ->
  close_positions config direction p w
  = (Ok tt, {| bot := set_in_position (bot w) [];
               ext := x1;
               trace := (trace w ++ [Called CGetPositions; Sleep 1])%list |}).
Proof.
  intros Hlive Hpos Hnone. unfold close_positions.
  run_m. rewrite Hlive.
  erewrite bind_call_ok by exact Hpos.
  unfold bind at 1. rewrite for_each_skip.
  - unfold bind, sleep, emit, modify_bot. cbn [bot ext trace].
    rewrite <- app_assoc. reflexivity.
  - intros pos Hin. rewrite (Hnone pos Hin). reflexivity.
Qed.

(** *** The live toggle *)

Lemma set_is_live_twice b : set_is_live (set_is_live b (negb (is_live b))) (is_live b) = b.
Proof. destruct b; reflexivity. Qed.

(** C9. With the configured token, [handle_switch_live_status] answers 200
    and only negates [is_live]: the position slot, the alert logs, the bias,
    the broker and the trace are untouched, and a second toggle restores the
    world exactly. *)
Theorem live_toggle_twice_restores data (w : World) :
  jeq_str (payload_token data) (PAYLOAD_TOKEN config) = true ->
  let r1 := handle_switch_live_status config (Object data) w in
  let r2 := handle_switch_live_status config (Object data) (snd r1) in
  snd r2 = w
  /\ bot (snd r1) = set_is_live (bot w) (negb (is_live (bot w)))
  /\ is_live (bot (snd r1)) = negb (is_live (bot w))
  /\ in_position (bot (snd r1)) = in_position (bot w)
  /\ timestamps_ES (bot (snd r1)) = timestamps_ES (bot w)
  /\ timestamps_NQ (bot (snd r1)) = timestamps_NQ (bot w)
  /\ is_bullish (bot (snd r1)) = is_bullish (bot w)
  /\ ext (snd r1) = ext w
  /\ trace (snd r1) = trace w
  /\ (exists t1, fst r1 = Ok (response_text t1))
  /\ (exists t2, fst r2 = Ok (response_text t2)).
Proof.
  intros Htok r1 r2.
  assert (H1 : forall w0 : World,
             handle_switch_live_status config (Object data) w0
             = (Ok (response_text
                      ("Bot 'Is Live' status has been switched to "
                       ++ (if negb (is_live (bot w0)) then "True" else "False"))),
                {| bot := set_is_live (bot w0) (negb (is_live (bot w0)));
                   ext := ext w0; trace := trace w0 |})).
  { intro w0. unfold handle_switch_live_status. cbn [request_json].
    run_m. rewrite Htok. run_m. reflexivity. }
  unfold r2, r1. rewrite !H1. cbn [fst snd bot ext trace].
  repeat split; try (eexists; reflexivity).
  cbn [is_live set_is_live]. rewrite negb_involutive.
  destruct w as [b x t]. cbn [bot ext trace]. f_equal.
  destruct b; reflexivity.
Qed.

(** *** What the webhook answers *)

Lemma handle_webhook_suppressed data (w : World) :
  jeq_str (payload_token data) (PAYLOAD_TOKEN config) = false
  \/ is_live (bot w) = false ->
  handle_webhook config (Object data) w = (Ok (response_text ""), w).
Proof.
  intros H. unfold handle_webhook. cbn [request_json]. run_m.
  destruct H as [H | H]; rewrite H; [| rewrite andb_false_r]; reflexivity.
Qed.

Lemma handle_webhook_dispatch data (w : World) p now x0 :
  jeq_str (payload_token data) (PAYLOAD_TOKEN config) = true ->
  is_live (bot w) = true ->
  price_decimal data = Ok p ->
  now_nyc (ext w) = (now, x0) ->
  let inner :=
    dispatch config (bot w) data p now
      {| bot := bot w; ext := x0; trace := (trace w ++ [Called CNow])%list |} in
  handle_webhook config (Object data) w
  = (match fst inner with
     | Ok _ => Ok (response_text "")
     | Raise e => Raise e
     end, snd inner).
Proof.
  intros Htok Hlive Hp Hnow inner. unfold handle_webhook. cbn [request_json].
  run_m. rewrite Htok, Hlive, Hp. run_m.
  unfold bind at 1. rewrite bind_ret.
  erewrite bind_call_ok by (cbv beta; rewrite Hnow; reflexivity).
  fold (dispatch config (bot w) data p now). fold inner.
  destruct inner as [[[] | e] w']; reflexivity.
Qed.

(** Whatever [handle_webhook] returns is the empty 200 response. *)
Lemma handle_webhook_answer r (w : World) :
  match fst (handle_webhook config r w) with
  | Ok response => response = response_text ""
  | Raise _ => True
  end.
Proof.
  unfold handle_webhook.
  destruct r as [| | data]; cbn [request_json]; [exact I | exact I |].
  run_m. unfold bind at 1.
  match goal with
  | |- context [?m w] => destruct (m w) as [[[] | e] w']
  end; [reflexivity | exact I].
Qed.

(** The gate's bookkeeping leaves the slot, the live flag and the contract
    symbols alone. *)
Lemma recorded_frame b tk now :
  in_position (recorded b tk now) = in_position b
  /\ is_live (recorded b tk now) = is_live b
  /\ forall name, globals_symbol (recorded b tk now) name = globals_symbol b name.
Proof.
  unfold recorded. destruct (String.eqb tk "ES"); repeat split.
Qed.

(** A webhook alert in the direction of the bias on a tracked ticker: the
    answer follows the gate and then [process_trade]. *)
Lemma handle_webhook_with_bias data (w : World) p now x0 tk :
  jeq_str (payload_token data) (PAYLOAD_TOKEN config) = true ->
  is_live (bot w) = true ->
  price_decimal data = Ok p ->
  now_nyc (ext w) = (now, x0) ->
  payload_ticker data = JStr tk -> tk = "ES" \/ tk = "NQ" ->
  payload_alert_type data
    = JStr (if is_bullish (bot w) then "Long" else "Short") ->
  let w1 := {| bot := recorded (bot w) tk now; ext := x0;
               trace := (trace w ++ [Called CNow])%list |} in
  let a := if is_bullish (bot w) then BUY else SELL in
  (~ actionable (bot w) tk now (payload_bypass data) ->
     handle_webhook config (Object data) w = (Ok (response_text ""), w1))
  /\ (actionable (bot w) tk now (payload_bypass data) ->
        handle_webhook config (Object data) w
        = (match fst (process_trade config tk (payload_stop_type data) p a w1) with
           | Ok _ => Ok (response_text "")
           | Raise e => Raise e
           end,
           snd (process_trade config tk (payload_stop_type data) p a w1))).
Proof.
  intros Htok Hlive Hp Hnow Htk Hes Hkind w1 a.
  rewrite (handle_webhook_dispatch data w Htok Hlive Hp Hnow).
  unfold dispatch. rewrite Htk, Hkind.
  set (w0 := {| bot := bot w; ext := x0; trace := (trace w ++ [Called CNow])%list |}).
  destruct (gate_rule config (payload_stop_type data) p now (payload_bypass data)
              w0 Hes) as (_ & _ & Hyes & Hno).
  change (with_bot w0 (recorded (bot w0) tk now)) with w1 in Hyes, Hno.
  change (bot w0) with (bot w) in Hyes, Hno.
  unfold a. split; intro H.
  - destruct (Hno H) as [Hb Hs].
    destruct (is_bullish (bot w)); [rewrite Hb | rewrite Hs]; reflexivity.
  - destruct (Hyes H) as [Hb Hs].
    destruct (is_bullish (bot w)); [rewrite Hb | rewrite Hs]; reflexivity.
Qed.

(** With a notifier whose post returns, an entry attempt whose contract
    look-up and prices succeed returns normally, whether the broker
    accepts or refuses the bracket order. *)
Lemma process_trade_settled tk st p a (w : World)
    key d m sz sym name f x1 tp sl :
  notifier_returns ->
  in_position (bot w) = [] -> is_live (bot w) = true ->
  stop_type_known st = true -> jupper st = Some key ->
  config_int config (key ++ "_" ++ tk) = Some d ->
  profit_multipliers st = Some m ->
  config_int config ("SIZE_" ++ tk) = Some sz ->
  globals_symbol (bot w) ("symbol_" ++ tk) = Some sym ->
  config_str config ("TICKER_" ++ tk) = Some name ->
  get_future sym (ext w) = (Ok f, x1) ->
  take_profit p (d * m) a = Ok tp ->
  stop_loss p d a = Ok sl ->
  fst (process_trade config tk st p a w) = Ok tt.
Proof.
  intros Hnot Hslot Hlive Hknown Hkey Hd Hm Hsz Hsym Hname Hf Htp Hsl.
  destruct (place_complex_order (otoco f sz a tp sl) x1) as [[[] | e] x2] eqn:Hplace.
  - destruct (Hnot (TEntering a name p sz d (d * m)) x2) as (code & x3 & Hpush).
    erewrite process_trade_success by eassumption. reflexivity.
  - destruct (Hnot (TErrorOpening e) x2) as (code & x3 & Hpush).
    erewrite process_trade_refused by eassumption.
    eapply send_pushover_message_ok. cbn [ext]. exact Hpush.
Qed.

(** C6, as the code has it.  Whenever [handle_webhook] returns, it returns
    the 200 response with an empty body.  It returns when the token does
    not match or live mode is off; when the gate suppresses an alert in the
    direction of the bias on a tracked ticker; when such an alert passes
    the gate while a position is tracked; and, with a notifier whose post
    returns, when it passes the gate with a known stop type, a contract
    that is found and prices that compute, whether the broker accepts or
    refuses the bracket order (the refusal is caught inside).  An
    exception raised while the body or the price is read, or one that
    leaves the alert handler, is not caught: the handler raises it and
    returns no response; so it is with the [ValueError] for a stop type
    that is not known, on an alert that passes the gate in a flat state. *)
Theorem webhook_answers_200_unless_raised r (w : World) :
  match fst (handle_webhook config r w) with
  | Ok response => status response = 200 /\ text response = ""
  | Raise _ => True
  end
  /\ (forall data,
        r = Object data ->
        jeq_str (payload_token data) (PAYLOAD_TOKEN config) = false
        \/ is_live (bot w) = false ->
        handle_webhook config r w = (Ok (response_text ""), w))
  /\ (forall data p now x0,
        r = Object data ->
        jeq_str (payload_token data) (PAYLOAD_TOKEN config) = true ->
        is_live (bot w) = true ->
        price_decimal data = Ok p ->
        now_nyc (ext w) = (now, x0) ->
        let inner :=
          dispatch config (bot w) data p now
            {| bot := bot w; ext := x0; trace := (trace w ++ [Called CNow])%list |} in
        handle_webhook config r w
        = (match fst inner with
           | Ok _ => Ok (response_text "")
           | Raise e => Raise e
           end, snd inner))
  /\ (r = BadJson -> handle_webhook config r w = (Raise JSONDecodeError, w))
  /\ (r = NonObject -> handle_webhook config r w = (Raise AttributeError, w))
  /\ (forall data e,
        r = Object data ->
        jeq_str (payload_token data) (PAYLOAD_TOKEN config) = true ->
        is_live (bot w) = true ->
        price_decimal data = Raise e ->
        handle_webhook config r w = (Raise e, w))
  /\ (forall data p now x0 tk,
        r = Object data ->
        jeq_str (payload_token data) (PAYLOAD_TOKEN config) = true ->
        is_live (bot w) = true ->
        price_decimal data = Ok p ->
        now_nyc (ext w) = (now, x0) ->
        payload_ticker data = JStr tk -> tk = "ES" \/ tk = "NQ" ->
        payload_alert_type data
          = JStr (if is_bullish (bot w) then "Long" else "Short") ->
        let w1 := {| bot := recorded (bot w) tk now; ext := x0;
                     trace := (trace w ++ [Called CNow])%list |} in
        (~ actionable (bot w) tk now (payload_bypass data) ->
           handle_webhook config r w = (Ok (response_text ""), w1))
        /\ (actionable (bot w) tk now (payload_bypass data) ->
            in_position (bot w) <> [] ->
            handle_webhook config r w = (Ok (response_text ""), w1))
        /\ (forall key d m sz sym name f x1 tp sl,
              actionable (bot w) tk now (payload_bypass data) ->
              in_position (bot w) = [] ->
              notifier_returns ->
              stop_type_known (payload_stop_type data) = true ->
              jupper (payload_stop_type data) = Some key ->
              config_int config (key ++ "_" ++ tk) = Some d ->
              profit_multipliers (payload_stop_type data) = Some m ->
              config_int config ("SIZE_" ++ tk) = Some sz ->
              globals_symbol (bot w) ("symbol_" ++ tk) = Some sym ->
              config_str config ("TICKER_" ++ tk) = Some name ->
              get_future sym x0 = (Ok f, x1) ->
              take_profit p (d * m) (if is_bullish (bot w) then BUY else SELL)
                = Ok tp ->
              stop_loss p d (if is_bullish (bot w) then BUY else SELL) = Ok sl ->
              fst (handle_webhook config r w) = Ok (response_text ""))
        /\ (actionable (bot w) tk now (payload_bypass data) ->
            in_position (bot w) = [] ->
            stop_type_known (payload_stop_type data) = false ->
            handle_webhook config r w = (Raise ValueError, w1))).
Proof.
  split; [| split; [| split; [| split; [| split; [| split]]]]].
  - pose proof (handle_webhook_answer r w) as H.
    destruct (fst (handle_webhook config r w)); [| exact I].
    subst a. split; reflexivity.
  - intros data -> H. apply handle_webhook_suppressed. exact H.
  - intros data p now x0 -> Htok Hlive Hp Hnow.
    apply handle_webhook_dispatch; assumption.
  - intros ->. reflexivity.
  - intros ->. reflexivity.
  - intros data e -> Htok Hlive Hp.
    unfold handle_webhook. cbn [request_json]. run_m.
    rewrite Htok, Hlive, Hp. reflexivity.
  - intros data p now x0 tk -> Htok Hlive Hp Hnow Htk Hes Hkind w1.
    destruct (handle_webhook_with_bias data w Htok Hlive Hp Hnow Htk Hes Hkind)
      as [Hno Hyes].
    fold w1 in Hno, Hyes.
    destruct (recorded_frame (bot w) tk now) as (Fslot & Flive & Fsym).
    split; [exact Hno |]. split; [| split].
    + intros Hact Hslot. rewrite (Hyes Hact).
      rewrite process_trade_guard; [reflexivity |].
      left. unfold w1. cbn [bot]. rewrite Fslot. exact Hslot.
    + intros key d m sz sym name f x1 tp sl
        Hact Hslot Hnot Hknown Hkey Hd Hm Hsz Hsym Hname Hf Htp Hsl.
      rewrite (Hyes Hact). cbn [fst].
      erewrite process_trade_settled; try eassumption; try reflexivity;
        unfold w1; cbn [bot ext]; rewrite ?Fslot, ?Flive, ?Fsym; assumption.
    + intros Hact Hslot Hknown. rewrite (Hyes Hact).
      assert (E : process_trade config tk (payload_stop_type data) p
                    (if is_bullish (bot w) then BUY else SELL) w1
                  = (Raise ValueError, w1)).
      { unfold process_trade. run_m.
        replace (in_position (bot w1)) with (@nil Position)
          by (unfold w1; cbn [bot]; rewrite Fslot, Hslot; reflexivity).
        replace (is_live (bot w1)) with true
          by (unfold w1; cbn [bot]; rewrite Flive, Hlive; reflexivity).
        run_m. rewrite Hknown. reflexivity. }
      rewrite E. reflexivity.
Qed.

End Lifecycle.

(** * Runs on the scripted world *)

(** The scenario of the specification: NQ Long with no ES alert on record
    gives no entry; ES Long five seconds later enters ES long. *)
Example scenario_nq_then_es :
  in_position (bot corroborated_world) = []
  /\ in_position
       (bot (step sample_config
               (Webhook (alert "ES" "Long" "Medium" es_price JNull))
               corroborated_world))
     = [es_position].
Proof. split; vm_compute; reflexivity. Qed.

Lemma gate_actionable_iff_witness :
  ("ES" = "ES" \/ "ES" = "NQ")
  /\ handle_bullish_alert sample_config (JStr "ES") (JStr "Long") (JStr "Medium")
       es_price (sample_time 10 0 5)
       (dt_replace_hm (sample_time 10 0 5) 8 30)
       (dt_replace_hm (sample_time 10 0 5) 8 35) JNull corroborated_world
     = process_trade sample_config "ES" (JStr "Medium") es_price BUY
         (with_bot corroborated_world
            (recorded (bot corroborated_world) "ES" (sample_time 10 0 5))).
Proof.
  split; [left; reflexivity |].
  destruct (gate_actionable_iff sample_config (JStr "Medium") es_price
              (sample_time 10 0 5) JNull corroborated_world
              (or_introl eq_refl)) as (_ & _ & H & _).
  apply H. right. split.
  - exists (sample_time 10 0 0). split; [left; reflexivity | reflexivity].
  - intros [_ H2]. apply H2. reflexivity.
Defined.


Lemma own_timestamp_recorded_before_check_witness :
  (("ES" = "ES" /\ "NQ" = "NQ") \/ ("ES" = "NQ" /\ "NQ" = "ES"))
  /\ handle_bullish_alert sample_config (JStr "ES") (JStr "Long") (JStr "Medium")
       es_price (sample_time 10 0 0)
       (dt_replace_hm (sample_time 10 0 0) 8 30)
       (dt_replace_hm (sample_time 10 0 0) 8 35) JNull fresh_world
     = (Ok tt, with_bot fresh_world
                 (recorded (bot fresh_world) "ES" (sample_time 10 0 0)))
  /\ handle_bullish_alert sample_config (JStr "NQ") (JStr "Long") (JStr "Medium")
       nq_price (sample_time 10 0 0)
       (dt_replace_hm (sample_time 10 0 0) 8 30)
       (dt_replace_hm (sample_time 10 0 0) 8 35) JNull
       (with_bot fresh_world (recorded (bot fresh_world) "ES" (sample_time 10 0 0)))
     = process_trade sample_config "NQ" (JStr "Medium") nq_price BUY
         (with_bot
            (with_bot fresh_world
               (recorded (bot fresh_world) "ES" (sample_time 10 0 0)))
            (recorded
               (bot (with_bot fresh_world
                       (recorded (bot fresh_world) "ES" (sample_time 10 0 0))))
               "NQ" (sample_time 10 0 0))).
Proof.
  split; [left; split; reflexivity |].
  destruct (own_timestamp_recorded_before_check sample_config
              (tkA := "ES") (tkB := "NQ") (JStr "Medium") es_price
              (sample_time 10 0 0) JNull fresh_world
              (or_introl (conj eq_refl eq_refl))) as (_ & _ & H).
  destruct (H eq_refl eq_refl eq_refl) as (H1 & _ & H3).
  split; [exact H1 |].
  apply (H3 (sample_time 10 0 0) (JStr "Medium") nq_price JNull).
  - reflexivity.
  - intros [_ H2]. apply H2. reflexivity.
Defined.

(** C8 fails as stated: ES and NQ alert at the same instant on an empty
    history; the first call trades nothing, but the second one, finding the
    first timestamp on record, submits a bracket order and records an NQ
    position. *)
Lemma simultaneous_second_alert_trades :
  in_position
    (bot (run sample_config
            [Webhook (alert "ES" "Long" "Medium" es_price JNull)] fresh_world))
  = []
  /\ in_position
       (bot (run sample_config
               [Webhook (alert "ES" "Long" "Medium" es_price JNull);
                Webhook (alert "NQ" "Long" "Medium" nq_price JNull)] fresh_world))
     = [ {| ticker := "NQ"; symbol_ticker := "/NQH4"; current_price := nq_price;
            stop_size := 40; profit_size := 200; order_action := BUY;
            size := 2 |} ]
  /\ In (Called (CPlaceComplexOrder
                   (otoco {| fut_symbol := "/NQH4" |} 2 BUY
                      (Dec 1720000 (-2)) (Dec 1696000 (-2)))))
        (trace (run sample_config
                  [Webhook (alert "ES" "Long" "Medium" es_price JNull);
                   Webhook (alert "NQ" "Long" "Medium" nq_price JNull)]
                  fresh_world)).
Proof.
  split; [vm_compute; reflexivity |].
  split; [vm_compute; reflexivity |].
  vm_compute. right. right. right. left. reflexivity.
Qed.

(** C6 fails as stated: an alert that passes the gate with a stop type
    outside the three known ones makes [handle_webhook] raise [ValueError];
    it returns no response. *)
Lemma webhook_unknown_stop_type_raises :
  fst (handle_webhook sample_config
         (alert "ES" "Long" "Huge" es_price (JBool true)) fresh_world)
  = Raise ValueError
  /\ ~ (exists response,
          fst (handle_webhook sample_config
                 (alert "ES" "Long" "Huge" es_price (JBool true)) fresh_world)
          = Ok response).
Proof.
  assert (H : fst (handle_webhook sample_config
                     (alert "ES" "Long" "Huge" es_price (JBool true)) fresh_world)
              = Raise ValueError) by (vm_compute; reflexivity).
  split; [exact H |]. intros [response Hr]. rewrite H in Hr. discriminate.
Qed.



Lemma reconcile_clears_once_witness :
  (in_position (bot (tracked_world [] sample_orders false)) <> []
   /\ is_live (bot (tracked_world [] sample_orders false)) = true)
  /\ in_position
       (bot (snd (reconcile_pass (tracked_world [] sample_orders false)))) = []
  /\ sim_orders (ext (snd (reconcile_pass (tracked_world [] sample_orders false))))
     = [ {| po_id := 13; po_order_type := MARKET; po_status := FILLED |} ]
  /\ trace (snd (reconcile_pass (tracked_world [] sample_orders false)))
     = [Called CGetPositions; Called CGetLiveOrders;
        Called (CDeleteOrder 11); LogInfo (TCancelled 11);
        Called (CDeleteOrder 12); LogInfo (TCancelled 12);
        Sleep 1; Sleep 15].
Proof.
  split; [split; [discriminate | reflexivity] |].
  destruct (@reconcile_clears_once SimExternal
              (tracked_world [] sample_orders false)
              (ext (tracked_world [] sample_orders false)) sample_orders
              (ext (tracked_world [] sample_orders false))
              ltac:(discriminate) eq_refl eq_refl eq_refl
              (fun _ _ => eq_refl)) as (E & _ & _).
  rewrite E. repeat split.
Defined.

Lemma close_without_match_clears_witness :
  (is_live (bot (tracked_world [short_nq] sample_orders false)) = true
   /\ closable "Long" short_nq = false)
  /\ close_positions sample_config "Long" es_price
       (tracked_world [short_nq] sample_orders false)
     = (Ok tt,
        {| bot := set_in_position
                    (bot (tracked_world [short_nq] sample_orders false)) [];
           ext := ext (tracked_world [short_nq] sample_orders false);
           trace := [Called CGetPositions; Sleep 1] |}).
Proof.
  split; [split; reflexivity |].
  apply (close_without_match_clears sample_config "Long" es_price
           (tracked_world [short_nq] sample_orders false)
           (ps := [short_nq]) eq_refl eq_refl).
  intros pos [<- | []]. reflexivity.
Defined.

Lemma live_toggle_twice_restores_witness :
  jeq_str (payload_token toggle_body) (PAYLOAD_TOKEN sample_config) = true
  /\ snd (handle_switch_live_status sample_config (Object toggle_body)
            (snd (handle_switch_live_status sample_config (Object toggle_body)
                    (tracked_world [long_es] sample_orders false))))
     = tracked_world [long_es] sample_orders false.
Proof.
  split; [reflexivity |].
  destruct (live_toggle_twice_restores sample_config toggle_body
              (tracked_world [long_es] sample_orders false) eq_refl)
    as (H & _).
  exact H.
Defined.


(** C7 fails as stated: a position is tracked, live mode is on and the
    broker reports no open position, but the first cancellation raises;
    the pass raises with the position still tracked and the second working
    order not cancelled, and the loop of passes ends there. *)
Lemma failed_cancellation_keeps_position :
  get_positions (External := FlakyExternal) tt = (Ok [], tt)
  /\ reconcile_pass flaky_tracked_world
     = (Raise (ExternalError "cancel failed"),
        @Build_World FlakyExternal (bot flaky_tracked_world) tt
          [Called CGetPositions; Called CGetLiveOrders; Called (CDeleteOrder 11)])
  /\ in_position (bot (snd (reconcile_pass flaky_tracked_world))) = [es_position]
  /\ reconcile_loop 5 flaky_tracked_world = reconcile_pass flaky_tracked_world.
Proof. repeat split. Qed.

(** * Further properties of the handlers *)

Section Toggles.

Context {X : External}.
Variable config : Config.

(** With live mode off [close_positions] returns at once. *)
Lemma close_positions_not_live direction p (w : World) :
  is_live (bot w) = false ->
  close_positions config direction p w = (Ok tt, w).
Proof.
  intro H. unfold close_positions. run_m. rewrite H. reflexivity.
Qed.

Lemma close_positions_result direction p (w : World) :
  match close_positions config direction p w with
  | (Ok _, w') => bot w' = bot w \/ bot w' = set_in_position (bot w) []
  | (Raise _, w') => bot w' = bot w
  end.
Proof.
  pose proof (close_positions_spec config direction p w) as H.
  destruct (close_positions config direction p w) as [[[] | e] w'];
    destruct H as (t & _ & [H | (H1 & _ & H2 & _)]); auto; discriminate.
Qed.

(** A bias switch with the configured token: when the close it starts with
    returns, even after a refused closing order, the handler answers 200,
    names the new bias, has negated [is_bullish] and emptied both alert
    logs, keeps [is_live] and the contract symbols, and has left the slot
    as it was or emptied it; when the close raises, the handler raises the
    same exception and the bot state is untouched: the bias is not
    switched and the logs are kept. *)
Theorem switch_bias_outcome data (w : World) :
  jeq_str (payload_token data) (PAYLOAD_TOKEN config) = true ->
  match handle_switch_bias config (Object data) w with
  | (Ok response, w') =>
      response = response_text ("Bot has been switched to "
                   ++ (if is_bullish (bot w) then "Bearish" else "Bullish"))
      /\ is_bullish (bot w') = negb (is_bullish (bot w))
      /\ timestamps_ES (bot w') = [] /\ timestamps_NQ (bot w') = []
      /\ is_live (bot w') = is_live (bot w)
      /\ symbol_ES (bot w') = symbol_ES (bot w)
      /\ symbol_NQ (bot w') = symbol_NQ (bot w)
      /\ only_empties (slot w) (slot w')
  | (Raise e, w') =>
      bot w' = bot w
      /\ fst (close_positions config
                (if is_bullish (bot w) then "Long" else "Short") (dec_of_int 0) w)
         = Raise e
  end.
Proof.
  intro Htok. unfold handle_switch_bias. cbn [request_json]. run_m.
  rewrite Htok. run_m. unfold bind at 1.
  pose proof (close_positions_result
                (if is_bullish (bot w) then "Long" else "Short") (dec_of_int 0) w)
    as H.
  destruct (close_positions config _ _ w) as [[[] | e] w1].
  - unfold clear_timestamps, bind, modify_bot, get_bot, ret.
    cbn [bot ext trace fst snd]. unfold slot, only_empties. cbn [bot].
    destruct H as [H | H]; rewrite H; cbn;
      destruct (is_bullish (bot w)); cbn; repeat split; auto.
  - split; [exact H | reflexivity].
Qed.

Lemma handle_switch_bias_quiet data (w : World) :
  jeq_str (payload_token data) (PAYLOAD_TOKEN config) = true ->
  is_live (bot w) = false ->
  snd (handle_switch_bias config (Object data) w)
  = {| bot := set_is_bullish (set_timestamps (bot w) [] [])
                (negb (is_bullish (bot w)));
       ext := ext w; trace := trace w |}.
Proof.
  intros Htok H0. unfold handle_switch_bias. cbn [request_json]. run_m.
  rewrite Htok. run_m. unfold bind at 1.
  rewrite close_positions_not_live by exact H0.
  reflexivity.
Qed.

Lemma handle_switch_bias_forbidden data (w : World) :
  jeq_str (payload_token data) (PAYLOAD_TOKEN config) = false ->
  handle_switch_bias config (Object data) w
  = (Ok {| status := 403; text := "Forbidden" |}, w).
Proof.
  intro Htok. unfold handle_switch_bias. cbn [request_json]. run_m.
  rewrite Htok. reflexivity.
Qed.

(** With live mode off a bias switch calls nobody: it empties the logs and
    negates the bias, and the tracked position stays in the slot.  A second
    switch gives the bias back; the logs stay empty. *)
Theorem switch_bias_not_live data (w : World) :
  jeq_str (payload_token data) (PAYLOAD_TOKEN config) = true ->
  is_live (bot w) = false ->
  let w1 := {| bot := set_is_bullish (set_timestamps (bot w) [] [])
                        (negb (is_bullish (bot w)));
               ext := ext w; trace := trace w |} in
  snd (handle_switch_bias config (Object data) w) = w1
  /\ in_position (bot w1) = in_position (bot w)
  /\ snd (handle_switch_bias config (Object data) w1)
     = {| bot := set_timestamps (bot w) [] []; ext := ext w; trace := trace w |}.
Proof.
  intros Htok Hlive w1.
  split; [apply handle_switch_bias_quiet; assumption |]. split; [reflexivity |].
  rewrite handle_switch_bias_quiet by assumption. unfold w1. cbn [bot ext trace]. f_equal.
  unfold set_is_bullish, set_timestamps. cbn. rewrite negb_involutive.
  reflexivity.
Qed.

(** A request whose token is not the configured one changes nothing,
    whichever endpoint it is sent to: the world after the event is the
    world before it.  The two toggles answer 403, the webhook 200. *)
Theorem unauthenticated_request_is_inert ev data (w : World) :
  request_of ev = Some (Object data) ->
  jeq_str (payload_token data) (PAYLOAD_TOKEN config) = false ->
  step config ev w = w
  /\ handle_switch_bias config (Object data) w
     = (Ok {| status := 403; text := "Forbidden" |}, w)
  /\ handle_switch_live_status config (Object data) w
     = (Ok {| status := 403; text := "Forbidden" |}, w)
  /\ handle_webhook config (Object data) w = (Ok (response_text ""), w).
Proof.
  intros Hev Htok.
  pose proof (handle_switch_bias_forbidden data w Htok) as Hb.
  assert (Hl : handle_switch_live_status config (Object data) w
               = (Ok {| status := 403; text := "Forbidden" |}, w)).
  { unfold handle_switch_live_status. cbn [request_json]. run_m. rewrite Htok.
    reflexivity. }
  assert (Hw : handle_webhook config (Object data) w = (Ok (response_text ""), w)).
  { apply handle_webhook_suppressed. left. exact Htok. }
  split; [| auto].
  destruct ev as [r | r | r |]; simpl in Hev; inversion Hev; subst r; simpl.
  - rewrite Hw. reflexivity.
  - rewrite Hb. reflexivity.
  - rewrite Hl. reflexivity.
Qed.

(** While live mode is off no event reaches the broker, the clock or the
    notifier: whatever the event, the outside world is left as it was, the
    trace gains no call, and the slot keeps what it tracks. *)
Theorem paper_mode_calls_nobody ev (w : World) :
  is_live (bot w) = false ->
  ext (step config ev w) = ext w
  /\ in_position (bot (step config ev w)) = in_position (bot w)
  /\ exists t, trace (step config ev w) = (trace w ++ t)%list /\ Forall no_call t.
Proof.
  intro Hlive.
  assert (Hsame : forall w' : World, w' = w ->
            ext w' = ext w /\ in_position (bot w') = in_position (bot w)
            /\ exists t, trace w' = (trace w ++ t)%list /\ Forall no_call t).
  { intros w' ->. repeat split. exists []. rewrite app_nil_r. auto. }
  destruct ev as [r | r | r |]; simpl.
  - apply Hsame. destruct r as [| | data]; try reflexivity.
    rewrite handle_webhook_suppressed by (right; exact Hlive). reflexivity.
  - destruct r as [| | data]; try (apply Hsame; reflexivity).
    destruct (jeq_str (payload_token data) (PAYLOAD_TOKEN config)) eqn:Htok.
    + rewrite (handle_switch_bias_quiet data w Htok Hlive).
      cbn [ext bot trace]. repeat split.
      exists []. rewrite app_nil_r. auto.
    + rewrite (handle_switch_bias_forbidden data w Htok).
      apply Hsame. reflexivity.
  - destruct r as [| | data]; try (apply Hsame; reflexivity).
    unfold handle_switch_live_status. cbn [request_json]. run_m.
    destruct (jeq_str (payload_token data) (PAYLOAD_TOKEN config));
      cbn; repeat split; exists []; rewrite app_nil_r; auto.
  - unfold reconcile_pass. run_m. rewrite Hlive, andb_false_r.
    cbn. repeat split. exists [Sleep 15]. split; [reflexivity |].
    repeat constructor.
Qed.

End Toggles.

Section Alerts.

Context {X : External}.
Variable config : Config.

Lemma timestamps_get_none b tk :
  jeq_str tk "ES" = false -> jeq_str tk "NQ" = false ->
  timestamps_get b tk = None.
Proof. intros H1 H2. unfold timestamps_get. rewrite H1, H2. reflexivity. Qed.

(** An alert in the direction of the bias on a ticker other than "ES" and
    "NQ" raises at the subscript [timestamps[ticker]], bypass or not:
    [KeyError] for a ticker that can be a key (a string, a number, a
    boolean, null), [TypeError] for a JSON array or object, which is
    unhashable.  No timestamp is recorded and nothing is called; and
    [handle_webhook] lets the exception through after only reading the
    clock. *)
Theorem untracked_ticker_raises tk st p now fs fe bypass (w : World) :
  jeq_str tk "ES" = false -> jeq_str tk "NQ" = false ->
  let e := if hashable tk then KeyError else TypeError in
  handle_bullish_alert config tk (JStr "Long") st p now fs fe bypass w
    = (Raise e, w)
  /\ handle_bearish_alert config tk (JStr "Short") st p now fs fe bypass w
    = (Raise e, w)
  /\ (forall data x0,
        jeq_str (payload_token data) (PAYLOAD_TOKEN config) = true ->
        is_live (bot w) = true ->
        payload_ticker data = tk ->
        payload_alert_type data
          = JStr (if is_bullish (bot w) then "Long" else "Short") ->
        price_decimal data = Ok p ->
        now_nyc (ext w) = (now, x0) ->
        handle_webhook config (Object data) w
        = (Raise e,
           {| bot := bot w; ext := x0;
              trace := (trace w ++ [Called CNow])%list |})).
Proof.
  intros H1 H2 e.
  assert (Hb : forall now fs fe st bypass (w : World),
             handle_bullish_alert config tk (JStr "Long") st p now fs fe bypass w
             = (Raise e, w)).
  { intros. unfold handle_bullish_alert.
    change (jeq_str (JStr "Long") "Long") with true. cbv iota.
    unfold append_timestamp, bind, get_bot, e.
    rewrite timestamps_get_none by assumption.
    destruct (hashable tk); reflexivity. }
  assert (Hs : forall now fs fe st bypass (w : World),
             handle_bearish_alert config tk (JStr "Short") st p now fs fe bypass w
             = (Raise e, w)).
  { intros. unfold handle_bearish_alert.
    change (jeq_str (JStr "Short") "Short") with true. cbv iota.
    unfold append_timestamp, bind, get_bot, e.
    rewrite timestamps_get_none by assumption.
    destruct (hashable tk); reflexivity. }
  split; [apply Hb |]. split; [apply Hs |].
  intros data x0 Htok Hlive Htk Hkind Hp Hnow.
  rewrite (handle_webhook_dispatch config data w Htok Hlive Hp Hnow).
  unfold dispatch. rewrite Htk, Hkind.
  destruct (is_bullish (bot w)); [rewrite Hb | rewrite Hs]; reflexivity.
Qed.

Lemma handle_bullish_other kind tk st p now fs fe bypass (w : World) :
  jeq_str kind "Long" = false ->
  handle_bullish_alert config tk kind st p now fs fe bypass w
  = if jeq_str kind "Short" && nonempty (in_position (bot w))
    then close_positions config "Long" p w
    else (Ok tt, w).
Proof.
  intro H. unfold handle_bullish_alert. rewrite H. run_m.
  destruct (_ && _); reflexivity.
Qed.

Lemma handle_bearish_other kind tk st p now fs fe bypass (w : World) :
  jeq_str kind "Short" = false ->
  handle_bearish_alert config tk kind st p now fs fe bypass w
  = if jeq_str kind "Long" && nonempty (in_position (bot w))
    then close_positions config "Short" p w
    else (Ok tt, w).
Proof.
  intro H. unfold handle_bearish_alert. rewrite H. run_m.
  destruct (_ && _); reflexivity.
Qed.

Lemma closes_at_most_refl (w : World) : closes_at_most w w.
Proof. unfold closes_at_most, only_empties. repeat split. left; reflexivity. Qed.

Lemma close_positions_closes_at_most direction p (w : World) :
  closes_at_most w (snd (close_positions config direction p w)).
Proof.
  pose proof (close_positions_result config direction p w) as H.
  unfold closes_at_most, only_empties, slot.
  destruct (close_positions config direction p w) as [[[] | e] w']; cbn [snd].
  - destruct H as [H | H]; rewrite H; cbn; repeat split;
      first [left; reflexivity | right; reflexivity].
  - rewrite H. repeat split. left; reflexivity.
Qed.

(** An alert that is not in the direction of the bias never records a
    timestamp and never enters: on any ticker, tracked or not, it leaves
    the alert logs, the bias and the live flag as they are and can only
    empty the slot; with no position tracked it does nothing at all. *)
Theorem opposing_alert_only_closes kind tk st p now fs fe bypass (w : World) :
  (jeq_str kind "Long" = false ->
     closes_at_most w
       (snd (handle_bullish_alert config tk kind st p now fs fe bypass w))
     /\ (in_position (bot w) = [] ->
         handle_bullish_alert config tk kind st p now fs fe bypass w = (Ok tt, w)))
  /\ (jeq_str kind "Short" = false ->
        closes_at_most w
          (snd (handle_bearish_alert config tk kind st p now fs fe bypass w))
        /\ (in_position (bot w) = [] ->
            handle_bearish_alert config tk kind st p now fs fe bypass w = (Ok tt, w))).
Proof.
  split; intro H.
  - rewrite handle_bullish_other by exact H. split.
    + destruct (_ && _);
        [apply close_positions_closes_at_most | apply closes_at_most_refl].
    + intros ->. rewrite andb_false_r. reflexivity.
  - rewrite handle_bearish_other by exact H. split.
    + destruct (_ && _);
        [apply close_positions_closes_at_most | apply closes_at_most_refl].
    + intros ->. rewrite andb_false_r. reflexivity.
Qed.

Lemma recorded_in_position b tk now :
  in_position (recorded b tk now) = in_position b.
Proof. unfold recorded. destruct (String.eqb tk "ES"); reflexivity. Qed.

(** While a position is tracked, an alert in the direction of the bias on
    a tracked ticker only records its timestamp and purges the logs: no
    second entry is attempted and nothing is called, whatever the bypass
    flag and even with a stop type that would otherwise be rejected. *)
Theorem alert_with_position_only_records tk st p now fs fe bypass (w : World) :
  tk = "ES" \/ tk = "NQ" ->
  in_position (bot w) <> [] ->
  handle_bullish_alert config (JStr tk) (JStr "Long") st p now fs fe bypass w
    = (Ok tt, with_bot w (recorded (bot w) tk now))
  /\ handle_bearish_alert config (JStr tk) (JStr "Short") st p now fs fe bypass w
    = (Ok tt, with_bot w (recorded (bot w) tk now)).
Proof.
  intros Htk Hslot.
  rewrite handle_bullish_long, handle_bearish_short by exact Htk.
  unfold gate_then_trade. cbv zeta.
  assert (Hg : forall a,
             process_trade config tk st p a (with_bot w (recorded (bot w) tk now))
             = (Ok tt, with_bot w (recorded (bot w) tk now))).
  { intro a. apply process_trade_guard. left.
    cbn [with_bot bot]. rewrite recorded_in_position. exact Hslot. }
  rewrite !Hg. destruct (_ || _); split; reflexivity.
Qed.

End Alerts.

Section Housekeeping.

Context {X : External}.
Variable config : Config.

Lemma purge_purge now1 now2 l :
  instant now1 <= instant now2 ->
  purge now2 (purge now1 l) = purge now2 l.
Proof.
  intro Hle. unfold purge. induction l as [| t l IH]; [reflexivity |].
  cbn [filter].
  destruct (dt_lt (dt_minus now1 (timedelta 1 30)) t) eqn:E1.
  - cbn [filter]. rewrite IH. reflexivity.
  - rewrite IH.
    destruct (dt_lt (dt_minus now2 (timedelta 1 30)) t) eqn:E2; [| reflexivity].
    exfalso. unfold dt_lt, dt_minus, instant in *. cbn [wall utcoff] in *.
    apply Z.ltb_lt in E2. apply Z.ltb_ge in E1. lia.
Qed.

(** Purging the alert logs at a time and then again at the same or a later
    time leaves what the later purge alone leaves: [clean_old_timestamps]
    is idempotent, and an earlier purge never changes the outcome of a
    later one. *)
Theorem clean_old_timestamps_absorbs now1 now2 (w : World) :
  instant now1 <= instant now2 ->
  bind (clean_old_timestamps now1) (fun _ => clean_old_timestamps now2) w
  = clean_old_timestamps now2 w.
Proof.
  intro Hle.
  pose proof (@purge_purge now1 now2 (timestamps_ES (bot w)) Hle) as HE.
  pose proof (@purge_purge now1 now2 (timestamps_NQ (bot w)) Hle) as HN.
  unfold purge in HE, HN.
  unfold clean_old_timestamps, bind, modify_bot. cbn [bot ext trace].
  unfold set_timestamps. cbn [timestamps_ES timestamps_NQ in_position is_live
                              is_bullish symbol_ES symbol_NQ].
  rewrite HE, HN. reflexivity.
Qed.

Lemma emits_for_each_in {A} (P : Effect -> Prop) (l : list A) (body : A -> M flow) :
  (forall a, In a l -> emits P (body a)) -> emits P (for_each l body).
Proof.
  induction l as [| a l IH]; intro Hb; simpl.
  - apply emits_ret.
  - apply emits_bind; [apply Hb; left; reflexivity |].
    intros [|]; [apply IH; intros a' Ha'; apply Hb; right; exact Ha'
                | apply emits_ret].
Qed.

(** [cancel_live_orders] calls nobody when live mode is off.  When it is
    on, whatever the broker answers to the deletions, the only orders it
    deletes are orders of the list the broker returned that are live and of
    type stop or limit; and when the list cannot be fetched the exception
    is passed on with nothing deleted. *)
Theorem cancel_deletes_only_working (w : World) :
  (is_live (bot w) = false -> cancel_live_orders w = (Ok tt, w))
  /\ (forall os x1,
        is_live (bot w) = true ->
        get_live_orders (ext w) = (Ok os, x1) ->
        exists t,
          trace (snd (cancel_live_orders w))
          = (trace w ++ Called CGetLiveOrders :: t)%list
          /\ Forall (cancels_among os) t)
  /\ (forall e x1,
        is_live (bot w) = true ->
        get_live_orders (ext w) = (Raise e, x1) ->
        cancel_live_orders w
        = (Raise e, {| bot := bot w; ext := x1;
                       trace := (trace w ++ [Called CGetLiveOrders])%list |})).
Proof.
  split; [| split].
  - intro H. unfold cancel_live_orders. run_m. rewrite H. reflexivity.
  - intros os x1 Hlive Hget. unfold cancel_live_orders. run_m. rewrite Hlive.
    erewrite bind_call_ok by exact Hget.
    unfold bind at 1.
    match goal with
    | |- context [for_each os ?body ?w1] =>
        assert (E : emits (cancels_among os) (for_each os body));
        [| destruct (E w1) as (t & Ht & Ft);
           destruct (for_each os body w1) as [[f | e] w2]]
    end.
    + apply emits_for_each_in. intros o Ho.
      destruct (match po_order_type o with STOP | LIMIT => true | _ => false end
                && match po_status o with LIVE => true | _ => false end) eqn:Hw;
        [| apply emits_ret].
      effects; cbn; auto. exists o. auto.
    + cbn [snd trace ret] in *. exists t. rewrite Ht. cbn [trace].
      rewrite <- app_assoc. split; [reflexivity | exact Ft].
    + cbn [snd trace] in *. exists t. rewrite Ht. cbn [trace].
      rewrite <- app_assoc. split; [reflexivity | exact Ft].
  - intros e x1 Hlive Hget. unfold cancel_live_orders. run_m. rewrite Hlive.
    erewrite bind_call_raise by exact Hget. reflexivity.
Qed.

End Housekeeping.

Section Orders.

Context {X : External}.
Variable config : Config.

(** Whatever the broker holds and answers, every order [close_positions]
    submits is a single-leg DAY MARKET order on a future, for a positive
    quantity, selling for credit when closing "Long" and buying for debit
    otherwise; it never submits a bracket order. *)
Theorem close_places_only_market_orders direction p :
  emits (closes_only direction) (close_positions config direction p).
Proof.
  unfold close_positions.
  apply emits_bind; [apply emits_get_bot | intro b].
  apply emits_if; [| apply emits_ret].
  apply emits_bind; [apply emits_call; exact I | intro ps].
  apply emits_bind.
  - apply emits_for_each. intro pos.
    destruct (closable direction pos) eqn:Hc; [| apply emits_ret].
    apply emits_bind;
      [apply emits_cancel_live_orders; intros; exact I | intros _].
    apply emits_bind; [apply emits_call; exact I | intro f].
    cbv zeta. apply emits_try.
    + apply emits_bind.
      * apply emits_call. cbn. exists f, (pos_quantity pos). split; [| reflexivity].
        unfold closable in Hc. apply andb_true_iff in Hc. apply Hc.
      * intros _. apply emits_bind; [| intros; apply emits_ret].
        apply emits_send_pushover_message; exact I.
    + intro e. apply emits_bind; [apply emits_emit; exact I | intros _].
      apply emits_bind; [| intros; apply emits_ret].
      apply emits_send_pushover_message; exact I.
  - intros [|]; [| apply emits_ret].
    effects; exact I.
Qed.

(** One call of [process_trade] submits at most one order, and that order
    is the bracket built by [otoco] for the requested direction: either it
    calls the account not at all or only looks the contract up, or its
    calls to the account are one contract look-up followed by the
    submission of one bracket order. *)
Theorem process_trade_submits_at_most_once tk st p a (w : World) :
  exists t,
    trace (snd (process_trade config tk st p a w)) = (trace w ++ t)%list
    /\ (Forall no_order t
        \/ exists sym f sz tp sl t2,
             t = (Called (CGetFuture sym)
                  :: Called (CPlaceComplexOrder (otoco f sz a tp sl)) :: t2)%list
             /\ Forall no_account_call t2).
Proof.
  unfold process_trade.
  unfold bind at 1; simpl.
  assert (Hnil : exists t, trace w = (trace w ++ t)%list /\
              (Forall no_order t \/
               exists sym f sz tp sl t2,
                 t = (Called (CGetFuture sym)
                      :: Called (CPlaceComplexOrder (otoco f sz a tp sl)) :: t2)%list
                 /\ Forall no_account_call t2)).
  { exists []. rewrite app_nil_r. split; [reflexivity | left; constructor]. }
  destruct (negb (nonempty (in_position (bot w))) && is_live (bot w));
    [| simpl; exact Hnil].
  destruct (stop_type_known st); simpl; [| simpl; exact Hnil].
  unfold bind at 1. destruct (jupper st); simpl; [| simpl; exact Hnil].
  unfold bind at 1. destruct (config_int config _); simpl; [| simpl; exact Hnil].
  unfold bind at 1. destruct (profit_multipliers st); simpl; [| simpl; exact Hnil].
  unfold bind at 1. destruct (config_int config _) as [sz |]; simpl; [| simpl; exact Hnil].
  unfold bind at 1. destruct (globals_symbol _ _) as [sym |]; simpl; [| simpl; exact Hnil].
  unfold bind at 1.
  match goal with
  | |- context [call ?c ?op w] =>
      pose proof (call_spec c op w) as K1;
      destruct (call c op w) as [[f | e] w1]
  end; destruct K1 as (_ & T1 & _);
    [| cbn [snd]; eexists; split; [exact T1 | left; repeat constructor]].
  unfold bind at 1. destruct (take_profit _ _ _) as [tp |]; simpl;
    [| eexists; split; [exact T1 | left; repeat constructor]].
  unfold bind at 1. destruct (stop_loss _ _ _) as [sl |]; simpl;
    [| eexists; split; [exact T1 | left; repeat constructor]].
  unfold try_except, submit_entry. unfold bind at 1.
  match goal with
  | |- context [call ?c ?op w1] =>
      pose proof (call_spec c op w1) as K2;
      destruct (call c op w1) as [[[] | e] w2]
  end; destruct K2 as (_ & T2 & _).
  - match goal with
    | |- context [bind ?m ?k w2] =>
        assert (E3 : emits no_account_call (bind m k)) by
          (unfold clear_timestamps; effects; exact I);
        destruct (E3 w2) as (t3 & T3 & F3);
        destruct (bind m k w2) as [[[] | e3] w3]
    end; cbn [snd] in *.
    + eexists. split; [rewrite T3, T2, T1, <- !app_assoc; reflexivity |].
      right. do 6 eexists. split; [reflexivity | exact F3].
    + match goal with
      | |- context [bind ?m ?k w3] =>
          assert (E4 : emits no_account_call (bind m k)) by (effects; exact I);
          destruct (E4 w3) as (t4 & T4 & F4);
          destruct (bind m k w3) as [r4 w4]
      end; cbn [snd] in *.
      eexists. split; [rewrite T4, T3, T2, T1, <- !app_assoc; reflexivity |].
      right. do 6 eexists. split; [reflexivity |].
      apply Forall_app. split; assumption.
  - match goal with
    | |- context [bind ?m ?k w2] =>
        assert (E4 : emits no_account_call (bind m k)) by (effects; exact I);
        destruct (E4 w2) as (t4 & T4 & F4);
        destruct (bind m k w2) as [r4 w4]
    end; cbn [snd] in *.
    eexists. split; [rewrite T4, T2, T1, <- !app_assoc; reflexivity |].
    right. do 6 eexists. split; [reflexivity | exact F4].
Qed.

End Orders.

Section Reconciliation.

Context {X : External}.
Variable config : Config.

(** While the broker reports any open position at all, a reconciliation
    pass leaves the tracked position and the working orders alone: it asks
    for the positions, then waits 15 seconds.  The positions the broker
    reports are not compared with the tracked one. *)
Theorem reconcile_waits_while_broker_holds (w : World) ps x1 :
  in_position (bot w) <> [] ->
  is_live (bot w) = true ->
  get_positions (ext w) = (Ok ps, x1) ->
  ps <> [] ->
  reconcile_pass w
  = (Ok tt, {| bot := bot w; ext := x1;
               trace := (trace w ++ [Called CGetPositions; Sleep 15])%list |}).
Proof.
  intros Hslot Hlive Hpos Hps. unfold reconcile_pass. run_m.
  destruct (in_position (bot w)) as [| q l]; [congruence |].
  rewrite Hlive. run_m.
  unfold bind at 1.
  erewrite bind_call_ok by exact Hpos.
  destruct ps as [| p0 ps]; [congruence |]. run_m.
  unfold bind, ret, sleep, emit. cbn [bot ext trace].
  rewrite <- app_assoc. reflexivity.
Qed.

(** An error of the broker's position query is not caught by the
    reconciliation loop: the pass raises it before its 15 second wait, the
    loop of passes stops there, and the tracked position stays as it was. *)
Theorem reconcile_query_error_stops_loop (w : World) e x1 n :
  in_position (bot w) <> [] ->
  is_live (bot w) = true ->
  get_positions (ext w) = (Raise e, x1) ->
  reconcile_loop (S n) w
  = (Raise e, {| bot := bot w; ext := x1;
                 trace := (trace w ++ [Called CGetPositions])%list |}).
Proof.
  intros Hslot Hlive Hpos. cbn [reconcile_loop].
  unfold bind at 1. unfold reconcile_pass. run_m.
  destruct (in_position (bot w)) as [| q l]; [congruence |].
  rewrite Hlive. run_m.
  unfold bind at 1.
  erewrite bind_call_raise by exact Hpos. reflexivity.
Qed.

(** A request whose body is not a JSON object never reaches the state: the
    three POST handlers raise (the decoding error for a body that is no
    JSON, [AttributeError] for JSON that is no object) and leave the world
    as it was.  So does a webhook with the right token in live mode whose
    price does not convert to a decimal: it raises before the clock is
    read. *)
Theorem malformed_request_raises_untouched (w : World) :
  (forall h, In h [handle_webhook config; handle_switch_bias config;
                   handle_switch_live_status config] ->
     h BadJson w = (Raise JSONDecodeError, w)
     /\ h NonObject w = (Raise AttributeError, w))
  /\ (forall data e,
        jeq_str (payload_token data) (PAYLOAD_TOKEN config) = true ->
        is_live (bot w) = true ->
        price_decimal data = Raise e ->
        handle_webhook config (Object data) w = (Raise e, w)).
Proof.
  split.
  - intros h [<- | [<- | [<- | []]]]; split; reflexivity.
  - intros data e Htok Hlive Hprice.
    unfold handle_webhook. run_m. cbn [request_json]. run_m.
    rewrite Htok, Hlive. cbn [andb]. rewrite Hprice. reflexivity.
Qed.

End Reconciliation.

(** With a positive stop distance and prices the decimal context holds
    exactly, the bracket straddles the reference price: a long entry has
    its stop below and its target above the price, a short entry the
    reverse.  The sign of the configured distance is not checked: a
    negative distance puts the stop of a long entry above the price and
    its target below. *)
Theorem bracket_straddles_price st m d p :
  profit_multipliers st = Some m ->
  fits (dec_add_exact p (dec_of_int (d * m))) ->
  fits (dec_add_exact p (dec_neg (dec_of_int (d * m)))) ->
  fits (dec_add_exact p (dec_of_int d)) ->
  fits (dec_add_exact p (dec_neg (dec_of_int d))) ->
  exists long_profit long_stop short_profit short_stop,
    take_profit p (d * m) BUY = Ok long_profit
    /\ stop_loss p d BUY = Ok long_stop
    /\ take_profit p (d * m) SELL = Ok short_profit
    /\ stop_loss p d SELL = Ok short_stop
    /\ (0 < d ->
        (dec_val long_stop < dec_val p)%Q /\ (dec_val p < dec_val long_profit)%Q
        /\ (dec_val short_profit < dec_val p)%Q /\ (dec_val p < dec_val short_stop)%Q)
    /\ (d < 0 ->
        (dec_val p < dec_val long_stop)%Q /\ (dec_val long_profit < dec_val p)%Q).
Proof.
  intros Hm F1 F2 F3 F4.
  assert (Hpos : 0 < m).
  { destruct (profit_multipliers_cases st Hm) as [[_ ->] | [[_ ->] | [_ ->]]]; lia. }
  do 4 eexists.
  split; [exact (dec_fix_fits F1) |].
  split; [exact (dec_fix_fits F4) |].
  split; [exact (dec_fix_fits F2) |].
  split; [exact (dec_fix_fits F3) |].
  assert (Hq : forall z, 0 < z -> (0 < inject_Z z)%Q).
  { intros z Hz. unfold Qlt. simpl. lia. }
  split; intro Hd.
  - assert (H1 := Hq d Hd). assert (H2 := Hq (d * m) ltac:(nia)).
    repeat split;
      rewrite ?dec_val_add_exact, ?dec_val_neg, ?dec_val_of_int; lra.
  - assert (H1 := Hq (- d) ltac:(lia)). assert (H2 := Hq (- (d * m)) ltac:(nia)).
    rewrite !inject_Z_opp in *.
    repeat split;
      rewrite ?dec_val_add_exact, ?dec_val_neg, ?dec_val_of_int; lra.
Qed.

(** ** Start-up *)

Section Startup.

Variable getenv : string -> option string.
Variable int_of : string -> option Z.

Lemma cbind_inr {A B} (m : ConfigError + A) (k : A -> ConfigError + B) b :
  cbind m k = inr b -> exists a, m = inr a /\ k a = inr b.
Proof. destruct m as [e | a]; simpl; [discriminate | eauto]. Qed.

Lemma env_int_inr key n :
  env_int getenv int_of key = inr n ->
  exists v, getenv key = Some v /\ int_of v = Some n.
Proof.
  unfold env_int. destruct (getenv key) as [v |]; [| discriminate].
  destruct (int_of v) as [z |] eqn:E; [| discriminate].
  intro H. injection H as <-. eauto.
Qed.

Lemma env_flag_inr key f :
  env_flag getenv key = inr f ->
  exists v, getenv key = Some v /\ f = String.eqb (lower v) "true".
Proof.
  unfold env_flag. destruct (getenv key) as [v |]; [| discriminate].
  intro H. injection H as <-. eauto.
Qed.

Lemma required_inr key o s : required key o = inr s -> o = Some s.
Proof. destruct o; simpl; [congruence | discriminate]. Qed.

Lemma cbind_not_set {A B} (m : ConfigError + A) (k : A -> ConfigError + B) key :
  (forall key', m <> inl (NotSet key')) ->
  cbind m k = inl (NotSet key) -> exists a, m = inr a /\ k a = inl (NotSet key).
Proof.
  intros Hm. destruct m as [e | a]; simpl; [| eauto].
  intro H. injection H as ->. destruct (Hm key); reflexivity.
Qed.

Lemma env_int_not_set key key' :
  env_int getenv int_of key <> inl (NotSet key').
Proof.
  unfold env_int. destruct (getenv key) as [v |]; [| discriminate].
  destruct (int_of v); discriminate.
Qed.

Lemma env_flag_not_set key key' : env_flag getenv key <> inl (NotSet key').
Proof. unfold env_flag. destruct (getenv key); discriminate. Qed.

Lemma cbind_required {B} key o (k : string -> ConfigError + B) key' :
  cbind (required key o) k = inl (NotSet key') ->
  (o = None /\ key' = key) \/ exists s, o = Some s /\ k s = inl (NotSet key').
Proof.
  destruct o as [s |]; simpl.
  - intro H. right. eauto.
  - intro H. injection H as <-. left. auto.
Qed.

Ltac open_int H :=
  let a := fresh "n" in let Ha := fresh "Hn" in let v := fresh "v" in
  let Hv := fresh "Hv" in let Hi := fresh "Hi" in
  apply cbind_inr in H; destruct H as (a & Ha & H);
  apply env_int_inr in Ha; destruct Ha as (v & Hv & Hi).

Ltac open_flag H :=
  let a := fresh "f" in let Ha := fresh "Hf" in let v := fresh "v" in
  let Hv := fresh "Hv" in let Hi := fresh "Hb" in
  apply cbind_inr in H; destruct H as (a & Ha & H);
  apply env_flag_inr in Ha; destruct Ha as (v & Hv & Hi).

Ltac open_required H :=
  let a := fresh "s" in let Ha := fresh "Hs" in
  apply cbind_inr in H; destruct H as (a & Ha & H);
  apply required_inr in Ha.

Ltac each_key :=
  repeat match goal with
         | H : _ \/ _ |- _ => destruct H as [<- | H]
         | H : In _ [] |- _ => destruct H
         | H : False |- _ => destruct H
         end.

Lemma load_config_loaded s :
  load_config getenv int_of = inr s ->
  (forall k, In k int_keys ->
     exists v, getenv k = Some v /\ int_of v = config_int (settings s) k)
  /\ (forall k, In k ["TICKER_ES"; "TICKER_NQ"] ->
        getenv k = config_str (settings s) k)
  /\ getenv "PAYLOAD_TOKEN" = Some (PAYLOAD_TOKEN (settings s))
  /\ getenv "PUSHOVER_TOKEN" = Some (PUSHOVER_TOKEN (settings s))
  /\ getenv "PUSHOVER_USER" = Some (PUSHOVER_USER (settings s))
  /\ getenv "TASTYTRADE_USERNAME" = Some (TASTYTRADE_USERNAME s)
  /\ getenv "TASTYTRADE_PASSWORD" = Some (TASTYTRADE_PASSWORD s)
  /\ getenv "TASTYTRADE_ACCOUNT_NUMBER" = Some (TASTYTRADE_ACCOUNT_NUMBER s)
  /\ (exists v, getenv "BULLISH" = Some v
                /\ setting_BULLISH s = String.eqb (lower v) "true")
  /\ (exists v, getenv "LIVE" = Some v
                /\ setting_LIVE s = String.eqb (lower v) "true").
Proof.
  unfold load_config. intro H. cbv zeta in H.
  do 6 open_int H. open_flag H. do 2 open_int H. open_flag H.
  do 8 open_required H.
  injection H as <-. cbn [settings setting_BULLISH setting_LIVE TASTYTRADE_USERNAME
    TASTYTRADE_PASSWORD TASTYTRADE_ACCOUNT_NUMBER PAYLOAD_TOKEN PUSHOVER_TOKEN
    PUSHOVER_USER].
  repeat split; try assumption; try (eexists; split; eassumption).
  - intros k Hk. unfold int_keys in Hk. simpl in Hk. each_key;
      eexists; (split; [eassumption |]); cbn; assumption.
  - intros k Hk. simpl in Hk. each_key; cbn; assumption.
Qed.

Lemma load_config_complete :
  complete getenv int_of -> exists s, load_config getenv int_of = inr s.
Proof.
  intros [Hi Hs]. unfold load_config, env_int, env_flag.
  repeat match goal with
  | |- context [int_of ?v] =>
      is_var v; fail 1
  | |- context [getenv ?k] =>
      first
        [ let v := fresh "v" in let n := fresh "n" in
          let E1 := fresh "E" in let E2 := fresh "E" in
          destruct (Hi k) as (v & n & E1 & E2);
          [unfold int_keys; simpl; tauto |]; rewrite ?E1; rewrite ?E2
        | let E := fresh "E" in
          destruct (getenv k) eqn:E;
          [| exfalso; apply (Hs k); [simpl; tauto | exact E]] ]
  end.
  simpl. eexists. reflexivity.
Qed.

Lemma load_config_not_set key :
  load_config getenv int_of = inl (NotSet key) ->
  In key string_keys /\ getenv key = None /\ numbers_read getenv int_of.
Proof.
  unfold load_config. intro H. cbv zeta in H.
  repeat match type of H with
  | cbind (env_int _ _ ?k) _ = _ =>
      let a := fresh "n" in let Ha := fresh "Hn" in
      apply cbind_not_set in H; [| intro; apply env_int_not_set];
      destruct H as (a & Ha & H); apply env_int_inr in Ha;
      destruct Ha as (? & ? & ?)
  | cbind (env_flag _ ?k) _ = _ =>
      let a := fresh "f" in let Ha := fresh "Hf" in
      apply cbind_not_set in H; [| intro; apply env_flag_not_set];
      destruct H as (a & Ha & H); apply env_flag_inr in Ha;
      destruct Ha as (? & ? & ?)
  end.
  assert (Hnum : numbers_read getenv int_of).
  { split.
    - intros k Hk. unfold int_keys in Hk. simpl in Hk. each_key;
        do 2 eexists; split; eassumption.
    - intros k Hk. simpl in Hk. each_key; congruence. }
  repeat match type of H with
  | cbind (required _ _) _ = _ =>
      apply cbind_required in H;
      destruct H as [[H ->] | (? & ? & H)];
      [split; [simpl; tauto | split; [exact H | exact Hnum]] |]
  end.
  discriminate.
Qed.

(** [load_config] succeeds exactly when all eighteen variables are set and
    the eight integer ones read as integers. *)
Theorem load_config_loads_iff_complete :
  (exists s, load_config getenv int_of = inr s) <-> complete getenv int_of.
Proof.
  split; [| apply load_config_complete].
  intros [s H]. apply load_config_loaded in H.
  destruct H as (Hi & Ht & Hp & Hpt & Hpu & Hu & Hw & Ha & (vb & Hb & _) & (vl & Hl & _)).
  split.
  - intros k Hk. destruct (Hi k Hk) as (v & Hv & Hn).
    exists v. unfold int_keys in Hk. simpl in Hk.
    each_key; cbn in Hn; eauto.
  - intros k Hk. simpl in Hk.
    destruct Hk as [<- | [<- | Hk]]; [congruence | congruence |].
    destruct Hk as [<- | Hk]; [congruence |].
    destruct Hk as [<- | Hk]; [rewrite (Ht "TICKER_ES"); [discriminate | simpl; tauto] |].
    destruct Hk as [<- | Hk]; [rewrite (Ht "TICKER_NQ"); [discriminate | simpl; tauto] |].
    each_key; congruence.
Qed.

(** What a successful [load_config] leaves is what the environment holds:
    each integer setting the handlers look up is [int] of its variable,
    each ticker name and token is its variable, and the bias and the live
    flag are true exactly when their variables read 'true' in any letter
    case. *)
Theorem load_config_reads_environment s :
  load_config getenv int_of = inr s ->
  (forall k, In k int_keys ->
     exists v, getenv k = Some v /\ int_of v = config_int (settings s) k)
  /\ (forall k, In k ["TICKER_ES"; "TICKER_NQ"] ->
        getenv k = config_str (settings s) k)
  /\ getenv "PAYLOAD_TOKEN" = Some (PAYLOAD_TOKEN (settings s))
  /\ getenv "PUSHOVER_TOKEN" = Some (PUSHOVER_TOKEN (settings s))
  /\ getenv "PUSHOVER_USER" = Some (PUSHOVER_USER (settings s))
  /\ getenv "TASTYTRADE_USERNAME" = Some (TASTYTRADE_USERNAME s)
  /\ getenv "TASTYTRADE_PASSWORD" = Some (TASTYTRADE_PASSWORD s)
  /\ getenv "TASTYTRADE_ACCOUNT_NUMBER" = Some (TASTYTRADE_ACCOUNT_NUMBER s)
  /\ (exists v, getenv "BULLISH" = Some v
                /\ setting_BULLISH s = String.eqb (lower v) "true")
  /\ (exists v, getenv "LIVE" = Some v
                /\ setting_LIVE s = String.eqb (lower v) "true").
Proof. exact (@load_config_loaded s). Qed.

(** The "environment variable not set" error is raised only for one of the
    eight variables read as plain strings, and only once every integer and
    flag variable has been read: an unset integer or flag variable makes
    [load_config] fail with another error ([int(None)] or [None.lower()],
    or an earlier bad integer), never with that one. *)
Theorem unset_number_is_not_reported_as_unset :
  (forall key, load_config getenv int_of = inl (NotSet key) ->
     In key string_keys /\ getenv key = None /\ numbers_read getenv int_of)
  /\ (forall k, In k (int_keys ++ flag_keys)%list -> getenv k = None ->
        exists e, load_config getenv int_of = inl e
                  /\ (e = IntOfNone \/ e = LowerOfNone \/ exists v, e = InvalidLiteral v)).
Proof.
  split; [exact load_config_not_set |].
  intros k Hk Hnone.
  destruct (load_config getenv int_of) as [e | s] eqn:E.
  - exists e. split; [reflexivity |].
    destruct e as [| v | | key]; eauto.
    exfalso. apply load_config_not_set in E. destruct E as (_ & _ & [Hi Hf]).
    apply in_app_or in Hk. destruct Hk as [Hk | Hk].
    + destruct (Hi k Hk) as (v & n & Hv & _). congruence.
    + exact (Hf k Hk Hnone).
  - exfalso. apply load_config_loaded in E.
    destruct E as (Hi & _ & _ & _ & _ & _ & _ & _ & (vb & Hb & _) & (vl & Hl & _)).
    apply in_app_or in Hk. destruct Hk as [Hk | Hk].
    + destruct (Hi k Hk) as (v & Hv & _). congruence.
    + simpl in Hk. each_key; congruence.
Qed.

End Startup.

Section ActiveSymbol.

Variable session : Type.
Variable get_futures : string -> session -> result (list FutureRow) * session.

Lemma first_active_spec symbols :
  (exists before symbol rest,
     symbols = (before ++ symbol :: rest)%list
     /\ Forall (fun r => active_month r = false) before
     /\ active_month symbol = true
     /\ first_active symbols = row_symbol symbol)
  \/ (Forall (fun r => active_month r = false) symbols
      /\ first_active symbols = "").
Proof.
  induction symbols as [| r l IH]; simpl.
  - right. split; [constructor | reflexivity].
  - destruct (active_month r) eqn:Ha.
    + left. exists [], r, l. repeat split; [constructor | exact Ha].
    + destruct IH as [(before & symbol & rest & -> & Hb & Hs & Hr) | [Hall Hr]].
      * left. exists (r :: before), symbol, rest.
        repeat split; [constructor; assumption | exact Hs | exact Hr].
      * right. split; [constructor; assumption | exact Hr].
Qed.

(** [get_active_symbol] asks the broker once, for the product code
    without its leading and trailing slashes.  It answers the symbol of
    the first contract the broker lists as the active month; when none is
    listed as active, also when the list is empty, it answers the empty
    string and raises nothing.  An error of the query is passed on. *)
Theorem get_active_symbol_first_or_empty product_code (s : session) :
  match get_futures (strip "/" product_code) s with
  | (Raise e, s') => get_active_symbol get_futures product_code s = (Raise e, s')
  | (Ok symbols, s') =>
      exists name, get_active_symbol get_futures product_code s = (Ok name, s')
      /\ ((exists before symbol rest,
             symbols = (before ++ symbol :: rest)%list
             /\ Forall (fun r => active_month r = false) before
             /\ active_month symbol = true
             /\ name = row_symbol symbol)
          \/ (Forall (fun r => active_month r = false) symbols /\ name = ""))
  end.
Proof.
  unfold get_active_symbol.
  destruct (get_futures (strip "/" product_code) s) as [[symbols | e] s'];
    [| reflexivity].
  eexists. split; [reflexivity | apply first_active_spec].
Qed.

End ActiveSymbol.

Section Closing.

Context {X : External}.
Variable config : Config.

Lemma for_each_skip_prefix {A} (l1 l2 : list A) (body : A -> M flow) (w : World) :
  (forall a, In a l1 -> forall w', body a w' = (Ok Continue, w')) ->
  for_each (l1 ++ l2)%list body w = for_each l2 body w.
Proof.
  induction l1 as [| a l1 IH]; intro H; simpl; [reflexivity |].
  unfold bind. rewrite (H a) by (left; reflexivity).
  apply IH. intros a' Ha'. apply H. right; exact Ha'.
Qed.

(** The close of one matching position, with a broker that accepts and a
    notifier whose post returns: the working orders are cancelled first,
    then the contract is looked up and the market order submitted, the
    closing notice is pushed, and after one second the slot is emptied.
    The other positions of the broker's list, none of them matching, are
    passed over. *)
Theorem close_cancels_then_submits direction p (w : World)
    before pos after x1 os x2 f x3 x4 code x5 :
  is_live (bot w) = true ->
  get_positions (ext w) = (Ok (before ++ pos :: after)%list, x1) ->
  closable direction pos = true ->
  (forall q, In q (before ++ after)%list -> closable direction q = false) ->
  get_live_orders x1 = (Ok os, x2) ->
  (forall id x, fst (delete_order id x) = Ok tt) ->
  get_future (pos_symbol pos) (after_cancellations os x2) = (Ok f, x3) ->
  place_order (closing_order direction f (pos_quantity pos)) x3 = (Ok tt, x4) ->
  pushover_post
    (TClosing direction (pos_underlying_symbol pos) p (pos_quantity pos)) x4
    = (Ok code, x5) ->
  let w4 :=
    {| bot := bot w; ext := x4;
       trace := (trace w ++ [Called CGetPositions; Called CGetLiveOrders]
                 ++ cancellations os
                 ++ [Called (CGetFuture (pos_symbol pos));
                     Called (CPlaceOrder
                               (closing_order direction f (pos_quantity pos)))])%list |} in
  let w5 :=
    snd (send_pushover_message config
           (TClosing direction (pos_underlying_symbol pos) p (pos_quantity pos)) w4) in
  close_positions config direction p w
  = (Ok tt, {| bot := set_in_position (bot w) []; ext := ext w5;
               trace := (trace w5 ++ [Sleep 1])%list |}).
Proof.
  intros Hlive Hpos Hc Hothers Hord Hdel Hfut Hplace Hpush w4 w5.
  unfold close_positions. run_m. rewrite Hlive.
  erewrite bind_call_ok by exact Hpos.
  unfold bind at 1.
  rewrite for_each_skip_prefix.
  2:{ intros q Hq w'. rewrite (Hothers q); [reflexivity |].
      apply in_or_app. left. exact Hq. }
  cbn [for_each]. unfold bind at 1. rewrite Hc.
  unfold bind at 1.
  erewrite cancel_live_orders_spec;
    [| exact Hlive | cbn [ext]; exact Hord | exact Hdel].
  erewrite bind_call_ok by (cbn [ext]; exact Hfut).
  cbv zeta. unfold try_except.
  erewrite bind_call_ok by (cbn [ext]; exact Hplace).
  cbn [bot ext trace].
  match goal with
  | |- context [bind (send_pushover_message config ?m) ?k ?w0] =>
      replace w0 with w4
        by (unfold w4; rewrite <- !app_assoc; reflexivity);
      pose proof (@send_pushover_message_ok _ config m w4 code x5 Hpush) as Hok;
      pose proof (keeps_send_pushover_message config (fun b => b) m w4) as Hk;
      unfold bind at 1;
      fold w5 in Hk;
      destruct (send_pushover_message config m w4) as [r w5'] eqn:E
  end.
  cbn [fst] in Hok. subst r. cbn [snd] in w5. subst w5. cbn [bot] in Hk.
  unfold ret at 1.
  rewrite for_each_skip.
  2:{ intros q Hq. rewrite (Hothers q); [reflexivity |].
      apply in_or_app. right. exact Hq. }
  unfold bind, sleep, emit, modify_bot. cbn [bot ext trace].
  rewrite Hk. reflexivity.
Qed.

(** An alert that passes the gate by its bypass flag with a stop type
    other than the three known ones is refused with [ValueError] before
    any call is made, but its timestamp is on record by then: the handler
    raises and leaves the logs as an accepted alert would have left them
    at the moment of the decision. *)
Theorem rejected_stop_type_still_records_alert tk st p now fs fe bypass (w : World) :
  tk = "ES" \/ tk = "NQ" ->
  in_position (bot w) = [] ->
  is_live (bot w) = true ->
  truthy bypass = true ->
  stop_type_known st = false ->
  handle_bullish_alert config (JStr tk) (JStr "Long") st p now fs fe bypass w
    = (Raise ValueError, with_bot w (recorded (bot w) tk now))
  /\ handle_bearish_alert config (JStr tk) (JStr "Short") st p now fs fe bypass w
    = (Raise ValueError, with_bot w (recorded (bot w) tk now)).
Proof.
  intros Htk Hslot Hlive Hby Hst.
  rewrite (handle_bullish_long config st p now fs fe bypass w Htk).
  rewrite (handle_bearish_short config st p now fs fe bypass w Htk).
  unfold gate_then_trade. rewrite Hby, orb_true_r.
  assert (Hs : in_position (recorded (bot w) tk now) = []).
  { unfold recorded. destruct (String.eqb tk "ES"); exact Hslot. }
  assert (Hl : is_live (recorded (bot w) tk now) = true).
  { unfold recorded. destruct (String.eqb tk "ES"); exact Hlive. }
  split; unfold process_trade; run_m; unfold with_bot; cbn [bot];
    rewrite Hs, Hl; run_m; rewrite Hst; reflexivity.
Qed.

End Closing.

(** * Further runs on the scripted world *)

Lemma switch_bias_outcome_witness :
  jeq_str (payload_token toggle_body) (PAYLOAD_TOKEN sample_config) = true
  /\ match handle_switch_bias sample_config (Object toggle_body)
             (tracked_world [long_es] sample_orders false) with
     | (Ok response, w') =>
         text response = "Bot has been switched to Bearish"
         /\ is_bullish (bot w') = false
         /\ timestamps_ES (bot w') = [] /\ timestamps_NQ (bot w') = []
     | (Raise _, w') => bot w' = bot (tracked_world [long_es] sample_orders false)
     end.
Proof.
  split; [reflexivity |].
  pose proof (switch_bias_outcome sample_config toggle_body
                (tracked_world [long_es] sample_orders false) eq_refl) as H.
  destruct (handle_switch_bias sample_config (Object toggle_body)
              (tracked_world [long_es] sample_orders false)) as [[r | e] w'].
  - destruct H as (-> & Hb & He & Hn & _).
    repeat split; assumption.
  - apply H.
Defined.

Lemma switch_bias_not_live_witness :
  (jeq_str (payload_token toggle_body) (PAYLOAD_TOKEN sample_config) = true
   /\ is_live (bot paper_world) = false)
  /\ in_position
       (bot (snd (handle_switch_bias sample_config (Object toggle_body) paper_world)))
     = [es_position]
  /\ is_bullish
       (bot (snd (handle_switch_bias sample_config (Object toggle_body) paper_world)))
     = false.
Proof.
  split; [split; reflexivity |].
  destruct (switch_bias_not_live sample_config toggle_body paper_world
              eq_refl eq_refl) as (E & _ & _).
  rewrite E. split; reflexivity.
Defined.

Lemma unauthenticated_request_is_inert_witness :
  (request_of (SwitchBias (Object forged_body)) = Some (Object forged_body)
   /\ jeq_str (payload_token forged_body) (PAYLOAD_TOKEN sample_config) = false)
  /\ step sample_config (SwitchBias (Object forged_body))
       (tracked_world [long_es] sample_orders false)
     = tracked_world [long_es] sample_orders false
  /\ handle_webhook sample_config (Object forged_body)
       (tracked_world [long_es] sample_orders false)
     = (Ok (response_text ""), tracked_world [long_es] sample_orders false).
Proof.
  split; [split; reflexivity |].
  destruct (@unauthenticated_request_is_inert SimExternal sample_config
              (SwitchBias (Object forged_body)) forged_body
              (tracked_world [long_es] sample_orders false) eq_refl eq_refl)
    as (H1 & _ & _ & H4).
  split; [exact H1 | exact H4].
Defined.

Lemma paper_mode_calls_nobody_witness :
  is_live (bot paper_world) = false
  /\ ext (step sample_config
            (Webhook (alert "ES" "Long" "Medium" es_price (JBool true))) paper_world)
     = ext paper_world
  /\ in_position
       (bot (step sample_config (SwitchBias (Object toggle_body)) paper_world))
     = [es_position].
Proof.
  split; [reflexivity |]. split.
  - apply (paper_mode_calls_nobody sample_config
             (Webhook (alert "ES" "Long" "Medium" es_price (JBool true)))
             paper_world eq_refl).
  - destruct (paper_mode_calls_nobody sample_config
                (SwitchBias (Object toggle_body)) paper_world eq_refl)
      as (_ & H & _).
    exact H.
Defined.

Lemma untracked_ticker_raises_witness :
  (jeq_str (JStr "YM") "ES" = false /\ jeq_str (JStr "YM") "NQ" = false)
  /\ handle_bullish_alert sample_config (JStr "YM") (JStr "Long") (JStr "Medium")
       es_price (sample_time 10 0 0)
       (dt_replace_hm (sample_time 10 0 0) 8 30)
       (dt_replace_hm (sample_time 10 0 0) 8 35) (JBool true) fresh_world
     = (Raise KeyError, fresh_world)
  /\ handle_bullish_alert sample_config (JArr []) (JStr "Long") (JStr "Medium")
       es_price (sample_time 10 0 0)
       (dt_replace_hm (sample_time 10 0 0) 8 30)
       (dt_replace_hm (sample_time 10 0 0) 8 35) (JBool true) fresh_world
     = (Raise TypeError, fresh_world).
Proof.
  split; [split; reflexivity |]. split.
  - apply (untracked_ticker_raises sample_config (JStr "YM") (JStr "Medium") es_price
             (sample_time 10 0 0)
             (dt_replace_hm (sample_time 10 0 0) 8 30)
             (dt_replace_hm (sample_time 10 0 0) 8 35) (JBool true) fresh_world
             eq_refl eq_refl).
  - apply (untracked_ticker_raises sample_config (JArr []) (JStr "Medium") es_price
             (sample_time 10 0 0)
             (dt_replace_hm (sample_time 10 0 0) 8 30)
             (dt_replace_hm (sample_time 10 0 0) 8 35) (JBool true) fresh_world
             eq_refl eq_refl).
Defined.

Lemma alert_with_position_only_records_witness :
  (("ES" = "ES" \/ "ES" = "NQ")
   /\ in_position (bot (tracked_world [long_es] sample_orders false)) <> [])
  /\ handle_bullish_alert sample_config (JStr "ES") (JStr "Long") (JStr "Medium")
       es_price (sample_time 10 0 0)
       (dt_replace_hm (sample_time 10 0 0) 8 30)
       (dt_replace_hm (sample_time 10 0 0) 8 35) (JBool true)
       (tracked_world [long_es] sample_orders false)
     = (Ok tt,
        with_bot (tracked_world [long_es] sample_orders false)
          (recorded (bot (tracked_world [long_es] sample_orders false)) "ES"
             (sample_time 10 0 0))).
Proof.
  split; [split; [left; reflexivity | discriminate] |].
  apply (alert_with_position_only_records sample_config (tk := "ES")
           (JStr "Medium") es_price (sample_time 10 0 0)
           (dt_replace_hm (sample_time 10 0 0) 8 30)
           (dt_replace_hm (sample_time 10 0 0) 8 35) (JBool true)
           (tracked_world [long_es] sample_orders false)
           (or_introl eq_refl) ltac:(discriminate)).
Defined.

Lemma clean_old_timestamps_absorbs_witness :
  instant (sample_time 10 0 0) <= instant (sample_time 12 0 0)
  /\ bind (clean_old_timestamps (sample_time 10 0 0))
       (fun _ => clean_old_timestamps (sample_time 12 0 0)) corroborated_world
     = clean_old_timestamps (sample_time 12 0 0) corroborated_world.
Proof.
  split; [vm_compute; discriminate |].
  apply (@clean_old_timestamps_absorbs SimExternal (sample_time 10 0 0)
           (sample_time 12 0 0) corroborated_world).
  vm_compute; discriminate.
Defined.

Lemma reconcile_waits_while_broker_holds_witness :
  (in_position (bot (tracked_world [short_nq] sample_orders false)) <> []
   /\ is_live (bot (tracked_world [short_nq] sample_orders false)) = true
   /\ [short_nq] <> [])
  /\ reconcile_pass (tracked_world [short_nq] sample_orders false)
     = (Ok tt,
        {| bot := bot (tracked_world [short_nq] sample_orders false);
           ext := ext (tracked_world [short_nq] sample_orders false);
           trace := [Called CGetPositions; Sleep 15] |}).
Proof.
  split; [split; [discriminate | split; [reflexivity | discriminate]] |].
  apply (@reconcile_waits_while_broker_holds SimExternal
           (tracked_world [short_nq] sample_orders false) [short_nq]
           (ext (tracked_world [short_nq] sample_orders false))
           ltac:(discriminate) eq_refl eq_refl ltac:(discriminate)).
Defined.

Lemma reconcile_query_error_stops_loop_witness :
  (in_position (bot down_world) <> [] /\ is_live (bot down_world) = true)
  /\ reconcile_loop 2880 down_world
     = (Raise (ExternalError "down"),
        @Build_World DownExternal (bot down_world) tt [Called CGetPositions]).
Proof.
  split; [split; [discriminate | reflexivity] |].
  apply (@reconcile_query_error_stops_loop DownExternal down_world
           (ExternalError "down") tt 2879 ltac:(discriminate) eq_refl eq_refl).
Defined.

Lemma bracket_straddles_price_witness :
  exists long_profit long_stop,
    take_profit es_price (10 * 5) BUY = Ok long_profit
    /\ stop_loss es_price 10 BUY = Ok long_stop
    /\ (dec_val long_stop < dec_val es_price)%Q
    /\ (dec_val es_price < dec_val long_profit)%Q.
Proof.
  destruct (@bracket_straddles_price (JStr "Medium") 5 10 es_price eq_refl)
    as (lp & ls & sp & ss & H1 & H2 & _ & _ & Hpos & _);
    try (split; [reflexivity | split; discriminate]).
  exists lp, ls. destruct (Hpos eq_refl) as (A & B & _).
  repeat split; assumption.
Defined.

Lemma load_config_reads_environment_witness :
  load_config (env_lookup sample_env) sample_int = inr sample_settings
  /\ (exists v, env_lookup sample_env "MEDIUM_ES" = Some v
                /\ sample_int v = config_int sample_config "MEDIUM_ES")
  /\ env_lookup sample_env "TICKER_NQ" = config_str sample_config "TICKER_NQ".
Proof.
  split; [reflexivity |].
  destruct (@load_config_reads_environment (env_lookup sample_env) sample_int
              sample_settings eq_refl) as (Hi & Ht & _).
  split.
  - apply (Hi "MEDIUM_ES"). simpl. tauto.
  - apply (Ht "TICKER_NQ"). simpl. tauto.
Defined.

Lemma close_cancels_then_submits_witness :
  (is_live (bot (tracked_world [short_nq; long_es] sample_orders false)) = true
   /\ closable "Long" long_es = true /\ closable "Long" short_nq = false)
  /\ in_position
       (bot (snd (close_positions sample_config "Long" es_price
                    (tracked_world [short_nq; long_es] sample_orders false))))
     = []
  /\ trace (snd (close_positions sample_config "Long" es_price
                   (tracked_world [short_nq; long_es] sample_orders false)))
     = [Called CGetPositions; Called CGetLiveOrders;
        Called (CDeleteOrder 11); LogInfo (TCancelled 11);
        Called (CDeleteOrder 12); LogInfo (TCancelled 12);
        Called (CGetFuture "/ESH4");
        Called (CPlaceOrder
                  (closing_order "Long" {| fut_symbol := "/ESH4" |} (Dec 1 0)));
        Called (CPushover (TClosing "Long" "/ES" es_price (Dec 1 0)));
        Sleep 1].
Proof.
  split; [repeat split |].
  rewrite (@close_cancels_then_submits SimExternal sample_config "Long" es_price
             (tracked_world [short_nq; long_es] sample_orders false)
             [short_nq] long_es []
             (ext (tracked_world [short_nq; long_es] sample_orders false))
             sample_orders
             (ext (tracked_world [short_nq; long_es] sample_orders false))
             {| fut_symbol := "/ESH4" |}
             (after_cancellations sample_orders
                (ext (tracked_world [short_nq; long_es] sample_orders false)))
             (after_cancellations sample_orders
                (ext (tracked_world [short_nq; long_es] sample_orders false)))
             200
             (after_cancellations sample_orders
                (ext (tracked_world [short_nq; long_es] sample_orders false)))
             eq_refl eq_refl eq_refl).
  - split; reflexivity.
  - intros q [<- | []]. reflexivity.
  - reflexivity.
  - intros id x. reflexivity.
  - reflexivity.
  - reflexivity.
  - reflexivity.
Defined.

Lemma rejected_stop_type_still_records_alert_witness :
  (("ES" = "ES" \/ "ES" = "NQ")
   /\ in_position (bot fresh_world) = [] /\ is_live (bot fresh_world) = true
   /\ truthy (JBool true) = true /\ stop_type_known (JStr "Huge") = false)
  /\ handle_bullish_alert sample_config (JStr "ES") (JStr "Long") (JStr "Huge")
       es_price (sample_time 10 0 0)
       (dt_replace_hm (sample_time 10 0 0) 8 30)
       (dt_replace_hm (sample_time 10 0 0) 8 35) (JBool true) fresh_world
     = (Raise ValueError,
        with_bot fresh_world (recorded (bot fresh_world) "ES" (sample_time 10 0 0))).
Proof.
  split; [split; [left; reflexivity | repeat split] |].
  apply (rejected_stop_type_still_records_alert sample_config (tk := "ES")
           (JStr "Huge") es_price (sample_time 10 0 0)
           (dt_replace_hm (sample_time 10 0 0) 8 30)
           (dt_replace_hm (sample_time 10 0 0) 8 35) (JBool true) fresh_world
           (or_introl eq_refl) eq_refl eq_refl eq_refl eq_refl).
Defined.

(** * What a run can change *)

Section Modes.

Context {X : External}.
Variable config : Config.

(** A view of the bot state that the alert logs and the slot do not enter. *)
Variable T : Type.
Variable g : Bot -> T.
Hypothesis g_timestamps : forall b es nq, g (set_timestamps b es nq) = g b.
Hypothesis g_in_position : forall b p, g (set_in_position b p) = g b.

Lemma view_append_timestamp tk t : keeps g (append_timestamp tk t).
Proof.
  unfold append_timestamp. frame.
  apply keeps_modify. intro b. unfold timestamps_set.
  destruct (jeq_str tk "ES"); [apply g_timestamps |].
  destruct (jeq_str tk "NQ"); [apply g_timestamps | reflexivity].
Qed.

Lemma view_clean_old_timestamps t : keeps g (clean_old_timestamps t).
Proof. unfold clean_old_timestamps. apply keeps_modify. intro b. apply g_timestamps. Qed.

Lemma view_clear_timestamps : keeps g clear_timestamps.
Proof. unfold clear_timestamps. apply keeps_modify. intro b. apply g_timestamps. Qed.

Lemma view_process_trade tk st p a : keeps g (process_trade config tk st p a).
Proof.
  intro w. pose proof (process_trade_bot config tk st p a w) as H.
  destruct (process_trade config tk st p a w) as [r w']. cbn [snd].
  destruct H as (t & _ & [H | (_ & _ & _ & _ & pos & H)]); rewrite H;
    [reflexivity |].
  rewrite g_in_position, g_timestamps. reflexivity.
Qed.

Lemma view_close_positions direction p : keeps g (close_positions config direction p).
Proof.
  intro w. pose proof (close_positions_spec config direction p w) as H.
  destruct (close_positions config direction p w) as [r w']. cbn [snd].
  destruct H as (t & _ & [H | (_ & _ & H & _)]); rewrite H;
    [reflexivity | apply g_in_position].
Qed.

Lemma view_handle_webhook r : keeps g (handle_webhook config r).
Proof.
  unfold handle_webhook, handle_bullish_alert, handle_bearish_alert.
  apply keeps_bind; [apply keeps_request_json | intro data].
  apply keeps_bind; [apply keeps_get_bot | intro b].
  apply keeps_bind; [| intros; apply keeps_ret].
  apply keeps_if; [| apply keeps_ret].
  apply keeps_bind; [apply keeps_lift | intro price].
  apply keeps_bind; [apply keeps_call | intro now].
  apply keeps_if; apply keeps_if;
    repeat first
      [ apply view_append_timestamp
      | apply view_clean_old_timestamps
      | apply view_process_trade
      | apply view_close_positions
      | apply keeps_get_bot
      | apply keeps_ret
      | apply keeps_if
      | apply keeps_bind; [| intro] ].
Qed.

Lemma view_reconcile_pass : keeps g reconcile_pass.
Proof.
  intro w. pose proof (reconcile_pass_bot w) as H.
  destruct (reconcile_pass w) as [r w']. cbn [snd].
  destruct H as [H | H]; rewrite H; [reflexivity | apply g_in_position].
Qed.

Lemma view_handle_switch_bias r :
  (forall b v, g (set_is_bullish b v) = g b) ->
  keeps g (handle_switch_bias config r).
Proof.
  intro Hb. unfold handle_switch_bias.
  apply keeps_bind; [apply keeps_request_json | intro data].
  apply keeps_if; [| apply keeps_ret].
  apply keeps_bind; [apply keeps_get_bot | intro b].
  apply keeps_bind; [apply view_close_positions | intros _].
  apply keeps_bind; [apply view_clear_timestamps | intros _].
  apply keeps_bind; [apply keeps_modify; intro; apply Hb | intros _].
  apply keeps_bind; [apply keeps_get_bot | intro]. apply keeps_ret.
Qed.

Lemma view_handle_switch_live_status r :
  (forall b v, g (set_is_live b v) = g b) ->
  keeps g (handle_switch_live_status config r).
Proof.
  intro Hl. unfold handle_switch_live_status.
  apply keeps_bind; [apply keeps_request_json | intro data].
  apply keeps_if; [| apply keeps_ret].
  apply keeps_bind; [apply keeps_modify; intro; apply Hl | intros _].
  apply keeps_bind; [apply keeps_get_bot | intro]. apply keeps_ret.
Qed.

Lemma view_step ev (w : World) :
  ((forall b v, g (set_is_bullish b v) = g b) \/ forall r, ev <> SwitchBias r) ->
  ((forall b v, g (set_is_live b v) = g b) \/ forall r, ev <> SwitchLiveStatus r) ->
  g (bot (step config ev w)) = g (bot w).
Proof.
  intros Hb Hl. destruct ev as [r | r | r |]; cbn [step].
  - apply view_handle_webhook.
  - destruct Hb as [Hb | Hb]; [| destruct (Hb r); reflexivity].
    apply view_handle_switch_bias. exact Hb.
  - destruct Hl as [Hl | Hl]; [| destruct (Hl r); reflexivity].
    apply view_handle_switch_live_status. exact Hl.
  - apply view_reconcile_pass.
Qed.

Lemma view_run evs (w : World) :
  ((forall b v, g (set_is_bullish b v) = g b)
   \/ Forall (fun ev => forall r, ev <> SwitchBias r) evs) ->
  ((forall b v, g (set_is_live b v) = g b)
   \/ Forall (fun ev => forall r, ev <> SwitchLiveStatus r) evs) ->
  g (bot (run config evs w)) = g (bot w).
Proof.
  revert w. induction evs as [| ev evs IH]; intros w Hb Hl; [reflexivity |].
  unfold run in *. cbn [fold_left]. rewrite IH.
  - apply view_step.
    + destruct Hb as [Hb | Hb]; [left; exact Hb | right].
      inversion Hb; assumption.
    + destruct Hl as [Hl | Hl]; [left; exact Hl | right].
      inversion Hl; assumption.
  - destruct Hb as [Hb | Hb]; [left; exact Hb | right].
    inversion Hb; assumption.
  - destruct Hl as [Hl | Hl]; [left; exact Hl | right].
    inversion Hl; assumption.
Qed.

End Modes.

Section RunModes.

Context {X : External}.
Variable config : Config.

(** Along any run of events, whether handlers return or raise: the two
    contract symbols never change; live mode changes only at a request to
    the live toggle, so no alert, bias switch or reconciliation pass can
    turn trading on or off; and the bias changes only at a request to the
    bias switch. *)
Theorem modes_change_only_at_their_toggle evs (w : World) :
  symbol_ES (bot (run config evs w)) = symbol_ES (bot w)
  /\ symbol_NQ (bot (run config evs w)) = symbol_NQ (bot w)
  /\ (Forall (fun ev => forall r, ev <> SwitchLiveStatus r) evs ->
      is_live (bot (run config evs w)) = is_live (bot w))
  /\ (Forall (fun ev => forall r, ev <> SwitchBias r) evs ->
      is_bullish (bot (run config evs w)) = is_bullish (bot w)).
Proof.
  split; [| split; [| split]].
  - apply (view_run config symbol_ES); try reflexivity; left; reflexivity.
  - apply (view_run config symbol_NQ); try reflexivity; left; reflexivity.
  - intro H. apply (view_run config is_live); try reflexivity;
      [left; reflexivity | right; exact H].
  - intro H. apply (view_run config is_bullish); try reflexivity;
      [right; exact H | left; reflexivity].
Qed.

End RunModes.
